(** * IoT sensor data pipeline: generator core and dashboard deserialisation

    A shallow embedding of [iot-data-stream.py] (the [SensorDevice] signal
    model and [DataGenerator.generate_batch]) and of
    [iot_dashboard.py]'s [convert_dynamodb_item], with the properties the
    specification states about them.

    Numbers.  Python floats are modelled as exact rationals ([Q]): the
    binary64 rounding error of a single operation is not represented.  The
    integer bounds of the sensor registry are kept as [Z] and injected.
    In the dashboard [float] of a [Decimal] is a parameter of the model.

    Randomness.  The [random] module is modelled as a tape of raw draws
    read left to right, one cell per call on the module, together with the
    log of the calls made so far. *)

From Stdlib Require Import QArith Qround Qabs Qminmax Lqa Lia ZArith.
From stdpp Require Import gmap strings list fin_maps.

Local Open Scope Q_scope.
Local Open Scope string_scope.
Set Warnings "-register-all".

(** ** Python numerics *)

Module Num.

Fixpoint pow10 (n : nat) : positive :=
  match n with
  | O => 1%positive
  | S n' => (10 * pow10 n')%positive
  end.

(** Nearest integer, ties to the even neighbour. *)
Definition round_half_even (x : Q) : Z :=
  let f := Qfloor x in
  match Qcompare (x - inject_Z f) (1 # 2) with
  | Lt => f
  | Gt => (f + 1)%Z
  | Eq => if Z.even f then f else (f + 1)%Z
  end.

(** [round(x, ndigits)] on a float, for [ndigits >= 0]: the closest
    multiple of [10^-ndigits], ties to even.  It is taken of the exact
    value; Python takes it of the double, so the two can fall on different
    sides where the exact value is halfway between two multiples. *)
Definition py_round (x : Q) (ndigits : nat) : Q :=
  Qred (round_half_even (x * inject_Z (Zpos (pow10 ndigits))) # pow10 ndigits).

(** [max(a, b)] and [min(a, b)] on two arguments: the first one wins a
    tie, as in Python. *)
Definition py_max (a b : Q) : Q := if Qlt_le_dec a b then b else a.
Definition py_min (a b : Q) : Q := if Qlt_le_dec b a then b else a.

End Num.


(** ** The [random] module

    A raw draw is a natural number together with a resolution; read as a
    value of [random.random()] it is the fraction [(num mod den) / den],
    which lies in [[0, 1)] whatever the tape holds.  Every call on the
    module consumes exactly one cell and is recorded in [calls]. *)

Module Random.

Record draw := mk_draw { num : N; den : positive }.

Definition unit_of (d : draw) : Q :=
  (Z.of_N (num d) mod Zpos (den d))%Z # den d.

Inductive call :=
| Call_uniform (a b : Q)
| Call_random
| Call_choices
| Call_choice (len : nat).

Record state := mk_state { tape : nat -> draw; calls : list call }.

Definition next (c : call) (g : state) : draw * state :=
  (tape g (length (calls g)), {| tape := tape g; calls := calls g ++ [c] |}).

(** [random.random()] *)
Definition random (g : state) : Q * state :=
  let '(d, g') := next Call_random g in (unit_of d, g').

(** [random.uniform(a, b)] is [a + (b - a) * random()]. *)
Definition uniform (a b : Q) (g : state) : Q * state :=
  let '(d, g') := next (Call_uniform a b) g in (a + (b - a) * unit_of d, g').

(** [itertools.accumulate(weights)] *)
Fixpoint accumulate (acc : Q) (weights : list Q) : list Q :=
  match weights with
  | [] => []
  | w :: ws => (acc + w) :: accumulate (acc + w) ws
  end.

(** [bisect.bisect(cum, x, 0, hi)] on an increasing list: the first index
    below [hi] whose entry exceeds [x], else [hi]. *)
Fixpoint bisect (cum : list Q) (x : Q) (hi : nat) : nat :=
  match hi, cum with
  | S hi', c :: cum' => if Qlt_le_dec x c then O else S (bisect cum' x hi')
  | _, _ => O
  end.

(** [random.choices(population, weights=weights)[0]]; [None] stands for the
    [ValueError] and [IndexError] of ill-formed arguments. *)
Definition choices {A} (population : list A) (weights : list Q) (g : state)
  : option A * state :=
  let cum_weights := accumulate 0 weights in
  if negb (length cum_weights =? length population)%nat then (None, g) else
  match last cum_weights with
  | None => (None, g)
  | Some total =>
    if Qlt_le_dec 0 total then
      let '(d, g') := next Call_choices g in
      (population !! bisect cum_weights (unit_of d * total) (length population - 1), g')
    else (None, g)
  end.

(** [random.choice(seq)]; [None] stands for the [IndexError] raised on an
    empty sequence.  The index is the raw draw reduced below [len(seq)]. *)
Definition choice {A} (seq : list A) (g : state) : option A * state :=
  match seq with
  | [] => (None, g)
  | _ =>
    let '(d, g') := next (Call_choice (length seq)) g in
    (seq !! (N.to_nat (num d) mod length seq)%nat, g')
  end.

(** The value the [i]-th upcoming call will read, as a fraction. *)
Definition peek (g : state) (i : nat) : Q :=
  unit_of (tape g (length (calls g) + i)).

Definition peek_raw (g : state) (i : nat) : draw :=
  tape g (length (calls g) + i).

End Random.

(** ** Python computations: state, results and exceptions

    A call either returns or raises; the state reached is kept in both
    cases, as mutations made before an exception are not undone. *)

Inductive exn :=
| KeyError (key : string)
| IndexError
| ValueError
| InvalidOperation.

Inductive outcome (A : Type) :=
| Return (a : A)
| Raise (e : exn).
Arguments Return {A} a.
Arguments Raise {A} e.

Definition Py (S A : Type) : Type := S -> outcome A * S.

Definition ret {S A} (a : A) : Py S A := fun s => (Return a, s).

Definition raise {S A} (e : exn) : Py S A := fun s => (Raise e, s).

Definition bind {S A B} (m : Py S A) (k : A -> Py S B) : Py S B :=
  fun s =>
    match m s with
    | (Return a, s') => k a s'
    | (Raise e, s') => (Raise e, s')
    end.

Notation "'let!' x := m 'in' k" := (bind m (fun x => k))
  (at level 10, x name, m at level 200, k at level 200,
   format "'[v' 'let!'  x  :=  m  'in' '/' k ']'").
Notation "'do!' m 'in' k" := (bind m (fun _ => k))
  (at level 10, m at level 200, k at level 200,
   format "'[v' 'do!'  m  'in' '/' k ']'").

(** ** Registries *)

Record SensorConfig := mk_config {
  cfg_unit : string;
  cfg_min : Z;
  cfg_max : Z;
  cfg_precision : nat;
  cfg_drift_factor : Q;
  cfg_decay : option bool   (* the ['decay'] key is optional *)
}.

Definition SENSOR_TYPES : gmap string SensorConfig :=
  list_to_map [
    ("temperature",   mk_config "°C"    (-10)   45 1 (1 # 10) None);
    ("humidity",      mk_config "%"        0   100 1 2        None);
    ("pressure",      mk_config "hPa"    970  1050 1 (1 # 2)  None);
    ("light_level",   mk_config "lux"      0 10000 0 50       None);
    ("air_quality",   mk_config "PM2.5"    0   500 1 5        None);
    ("battery_level", mk_config "%"        0   100 0 (1 # 10) (Some true))
  ].

(** [sensor_config.get('decay', False)] *)
Definition get_decay (c : SensorConfig) : bool := default false (cfg_decay c).

Record Location := mk_location {
  loc_id : string;
  loc_name : string;
  lat : Q;
  lon : Q
}.

Definition LOCATIONS : list Location := [
  mk_location "warehouse_a" "Warehouse A" (476062 # 10000) (-1223321 # 10000);
  mk_location "warehouse_b" "Warehouse B" (476152 # 10000) (-1223447 # 10000);
  mk_location "office_main" "Main Office" (476205 # 10000) (-1223493 # 10000);
  mk_location "production_floor" "Production Floor" (476170 # 10000) (-1223377 # 10000);
  mk_location "storage_cold" "Cold Storage" (476180 # 10000) (-1223399 # 10000)
].

Definition DEVICE_STATUSES : list string :=
  ["operational"; "maintenance"; "warning"; "error"].

Definition STATUS_WEIGHTS : list Q := [95 # 100; 3 # 100; 15 # 1000; 5 # 1000].

(** ** [SensorDevice]

    [location] is a reference to one of the dictionaries of [LOCATIONS],
    shared with the other devices of the site; no method writes through
    it, so the object holds it by value here. *)

Record SensorDevice := mk_device {
  device_id : string;
  location : Location;
  sensor_types : list string;
  current_values : gmap string Q
}.

(** One entry of the [readings] dictionary of a record. *)
Record SensorReading := mk_sensor_reading { value : Q; unit_ : string }.

Record Coordinates := mk_coordinates { latitude : Q; longitude : Q }.

Record Reading := mk_reading {
  reading_device_id : string;
  timestamp : string;
  location_id : string;
  location_name : string;
  coordinates : Coordinates;
  readings : gmap string SensorReading;
  status : string
}.

(** The state a method of [SensorDevice] runs in: the object and the
    module-level generator. *)
Record World := mk_world { self : SensorDevice; rng : Random.state }.

Definition get_self : Py World SensorDevice := fun w => (Return (self w), w).

(** [self.current_values[k] = v] *)
Definition set_current_value (k : string) (v : Q) : Py World () :=
  fun w =>
    (Return tt,
     {| self := {| device_id := device_id (self w);
                   location := location (self w);
                   sensor_types := sensor_types (self w);
                   current_values := <[k := v]> (current_values (self w)) |};
        rng := rng w |}).

(** [self.current_values[k]] *)
Definition get_current_value (k : string) : Py World Q :=
  fun w =>
    match current_values (self w) !! k with
    | Some v => (Return v, w)
    | None => (Raise (KeyError k), w)
    end.

(** A call on the [random] module. *)
Definition rand {A} (f : Random.state -> A * Random.state) : Py World A :=
  fun w => let '(a, g) := f (rng w) in (Return a, {| self := self w; rng := g |}).

Definition or_raise {S A} (e : exn) (o : option A) : Py S A :=
  match o with
  | Some a => ret a
  | None => raise e
  end.

(** [SensorDevice.__init__]: the loop over [sensor_types]. *)
Fixpoint init_values (kinds : list string) : Py World () :=
  match kinds with
  | [] => ret tt
  | sensor_type :: rest =>
    match SENSOR_TYPES !! sensor_type with
    | Some sensor_config =>
      let! v := rand (Random.uniform (inject_Z (cfg_min sensor_config))
                                (inject_Z (cfg_max sensor_config))) in
      do! set_current_value sensor_type v in
      init_values rest
    | None => init_values rest
    end
  end.

(** [SensorDevice(device_id, location, sensor_types)] *)
Definition SensorDevice_init (device_id : string) (location : Location)
    (sensor_types : list string) (g : Random.state)
  : outcome SensorDevice * Random.state :=
  let w0 := {| self := mk_device device_id location sensor_types ∅; rng := g |} in
  match init_values sensor_types w0 with
  | (Return _, w) => (Return (self w), rng w)
  | (Raise e, w) => (Raise e, rng w)
  end.

(** The body of the loop of [generate_reading] for one [sensor_type]. *)
Definition drift_step (sensor_type : string)
    (readings : gmap string SensorReading) : Py World (gmap string SensorReading) :=
  match SENSOR_TYPES !! sensor_type with
  | Some sensor_config =>
    let! drift := rand (Random.uniform (- cfg_drift_factor sensor_config)
                                  (cfg_drift_factor sensor_config)) in
    let drift := if get_decay sensor_config then Qabs drift * (-1) else drift in
    let! current := get_current_value sensor_type in
    let new_value := current + drift in
    let new_value :=
      Num.py_max (inject_Z (cfg_min sensor_config))
                 (Num.py_min new_value (inject_Z (cfg_max sensor_config))) in
    let new_value := Num.py_round new_value (cfg_precision sensor_config) in
    do! set_current_value sensor_type new_value in
    ret (<[sensor_type := mk_sensor_reading new_value (cfg_unit sensor_config)]> readings)
  | None => ret readings
  end.

Fixpoint drift_loop (kinds : list string)
    (readings : gmap string SensorReading) : Py World (gmap string SensorReading) :=
  match kinds with
  | [] => ret readings
  | sensor_type :: rest =>
    let! readings' := drift_step sensor_type readings in
    drift_loop rest readings'
  end.

(** [readings[k]['value'] = v] *)
Definition set_value (k : string) (v : Q)
    (readings : gmap string SensorReading) : gmap string SensorReading :=
  alter (fun e => mk_sensor_reading v (unit_ e)) k readings.

(** The anomaly block of [generate_reading]. *)
Definition anomaly (readings : gmap string SensorReading)
  : Py World (gmap string SensorReading) :=
  let! a := rand Random.random in
  if Qlt_le_dec a (1 # 100) then
    let! d := get_self in
    let! chosen := rand (Random.choice (sensor_types d)) in
    let! anomaly_sensor := or_raise IndexError chosen in
    match readings !! anomaly_sensor with
    | Some _ =>
      let! s := rand Random.random in
      let! cfg := or_raise (KeyError anomaly_sensor) (SENSOR_TYPES !! anomaly_sensor) in
      if Qlt_le_dec s (1 # 2)
      then ret (set_value anomaly_sensor (inject_Z (cfg_max cfg)) readings)
      else ret (set_value anomaly_sensor (inject_Z (cfg_min cfg)) readings)
    | None => ret readings
    end
  else ret readings.

(** [SensorDevice.generate_reading]; [now] is what
    [datetime.datetime.now().isoformat()] gives at the call. *)
Definition generate_reading (now : string) : Py World Reading :=
  let! d := get_self in
  let! readings := drift_loop (sensor_types d) ∅ in
  let! picked := rand (Random.choices DEVICE_STATUSES STATUS_WEIGHTS) in
  let! status := or_raise ValueError picked in
  let! readings := anomaly readings in
  let! d := get_self in
  let! jlat := rand (Random.uniform (- (1 # 10000)) (1 # 10000)) in
  let! jlon := rand (Random.uniform (- (1 # 10000)) (1 # 10000)) in
  ret {| reading_device_id := device_id d;
         timestamp := now;
         location_id := loc_id (location d);
         location_name := loc_name (location d);
         coordinates := {| latitude := lat (location d) + jlat;
                           longitude := lon (location d) + jlon |};
         readings := readings;
         status := status |}.


(** The state after [n] successive calls of [generate_reading], the [i]-th
    of them made at time [clock i]. *)
Fixpoint ticks (clock : nat -> string) (n : nat) (w : World) : World :=
  match n with
  | O => w
  | S n' => snd (generate_reading (clock n') (ticks clock n' w))
  end.

(** ** [DataGenerator] *)

Record DataGenerator := mk_generator {
  devices : list SensorDevice;
  gen : Random.state
}.

(** The loop of [generate_batch] over the devices still to visit; the
    [i]-th device of the fleet is visited at time [clock i]. *)
Fixpoint batch_loop (clock : nat -> string) (i : nat) (todo : list SensorDevice)
    (readings : list Reading) (g : Random.state)
  : outcome (list Reading) * (list SensorDevice * Random.state) :=
  match todo with
  | [] => (Return readings, ([], g))
  | device :: rest =>
    let '(u, g1) := Random.random g in
    if Qlt_le_dec u (98 # 100) then
      match generate_reading (clock i) {| self := device; rng := g1 |} with
      | (Return r, w) =>
        let '(o, (rest', g')) :=
          batch_loop clock (S i) rest (readings ++ [r]) (rng w) in
        (o, (self w :: rest', g'))
      | (Raise e, w) => (Raise e, (self w :: rest, rng w))
      end
    else
      let '(o, (rest', g')) := batch_loop clock (S i) rest readings g1 in
      (o, (device :: rest', g'))
  end.

(** [DataGenerator.generate_batch] *)
Definition generate_batch (clock : nat -> string) : Py DataGenerator (list Reading) :=
  fun s =>
    let '(o, (ds, g)) := batch_loop clock 0 (devices s) [] (gen s) in
    (o, {| devices := ds; gen := g |}).

(** ** The dashboard's [convert_dynamodb_item]

    Items are the Python values the DynamoDB resource API hands over
    (strings, [Decimal] numbers, booleans, [None], lists and maps) together
    with the values the conversion produces.  A [Decimal] is a finite
    decimal [coefficient * 10^exponent]; a float is again a rational. *)

Module Dashboard.

(** A finite [Decimal], as the table holds its numbers: the coefficient
    with its sign, and the exponent. *)
Record Decimal := mk_decimal { coefficient : Z; exponent : Z }.

(** [int(v)]: truncation towards zero. *)
Definition to_int (v : Decimal) : Z :=
  if (0 <=? exponent v)%Z then (coefficient v * 10 ^ exponent v)%Z
  else (coefficient v ÷ 10 ^ (- exponent v))%Z.

(** The default context of [decimal], which the dashboard never changes:
    its precision, and the exponent [Etiny = Emin - prec + 1] of the
    smallest digit it keeps. *)
Definition PREC : Z := 28.
Definition ETINY : Z := -1000026.

(** The quotient of [v] by 1 has more digits than the context allows. *)
Definition quotient_too_large (v : Decimal) : bool :=
  (10 ^ PREC <=? Z.abs (to_int v))%Z.

(** The remainder of [v] by 1, rounded by the context, is zero: [v] has a
    fractional part of half a unit of [Etiny] at most, which for an
    exponent of [Etiny] or more is no fractional part at all. *)
Definition remainder_is_zero (v : Decimal) : bool :=
  if (0 <=? exponent v)%Z then true
  else if (ETINY <=? exponent v)%Z
       then (coefficient v mod 10 ^ (- exponent v) =? 0)%Z
       else (2 * Z.abs (Z.rem (coefficient v) (10 ^ (- exponent v)))
             <=? 10 ^ (ETINY - exponent v))%Z.

(** [v % 1 == 0].  The remainder is taken under the default context: when
    the integer part of [v] has more than [PREC] digits the quotient does
    not fit and [%] raises [InvalidOperation]. *)
Definition is_whole (v : Decimal) : outcome bool :=
  if quotient_too_large v then Raise InvalidOperation
  else Return (remainder_is_zero v).

(** A comprehension or a loop over [l] whose body [f] may raise: the
    elements are taken in order and the first exception ends it. *)
Definition mapM {A B : Type} (f : A -> outcome B) : list A -> outcome (list B) :=
  fix go (l : list A) : outcome (list B) :=
    match l with
    | [] => Return []
    | a :: rest =>
      match f a with
      | Return b =>
        match go rest with
        | Return bs => Return (b :: bs)
        | Raise e => Raise e
        end
      | Raise e => Raise e
      end
    end.

Section Convert.

(** The type of [datetime] objects and [datetime.fromisoformat], [None]
    standing for its [ValueError]; and [float(v)] on a [Decimal], the
    double nearest to [v], as the rational it denotes: how it rounds is
    left open. *)
Variable datetime : Type.
Variable fromisoformat : string -> option datetime.
Variable to_float : Decimal -> Q.

(** The values of an item as the table hands them over (a number as a
    [Decimal], the three kinds of sets as Python sets, listed here in any
    order), and the [int], [float] and [datetime] the conversion makes. *)
Inductive item :=
| Dec (v : Decimal)
| Str (s : string)
| Bool (b : bool)
| Null
| Int (n : Z)
| Float (x : Q)
| Datetime (t : datetime)
| Binary (b : string)
| StringSet (l : list string)
| NumberSet (l : list Decimal)
| BinarySet (l : list string)
| List (l : list item)
| Dict (kvs : list (string * item)).

Fixpoint convert_dynamodb_item (it : item) : outcome item :=
  match it with
  | List l =>
    match mapM convert_dynamodb_item l with
    | Return l' => Return (List l')
    | Raise e => Raise e
    end
  | Dict kvs =>
    match mapM (fun kv : string * item =>
                  let (k, v) := kv in
                  match
                    match v with
                    | Dec d =>
                      match is_whole d with
                      | Return true => Return (Int (to_int d))
                      | Return false => Return (Float (to_float d))
                      | Raise e => Raise e
                      end
                    | Str s =>
                      if String.eqb k "timestamp" then
                        Return match fromisoformat s with
                               | Some t => Datetime t
                               | None => v
                               end
                      else convert_dynamodb_item v
                    | _ => convert_dynamodb_item v
                    end
                  with
                  | Return v' => Return (k, v')
                  | Raise e => Raise e
                  end) kvs with
    | Return new_dict => Return (Dict new_dict)
    | Raise e => Raise e
    end
  | _ => Return it
  end.

(** Does a [Decimal] occur anywhere in the structure? *)
Fixpoint has_decimal (it : item) : bool :=
  match it with
  | Dec _ => true
  | NumberSet l => match l with [] => false | _ :: _ => true end
  | List l => existsb has_decimal l
  | Dict kvs => existsb (fun kv : string * item => has_decimal (snd kv)) kvs
  | _ => false
  end.

End Convert.

Arguments Dec {datetime} v.
Arguments Str {datetime} s.
Arguments Bool {datetime} b.
Arguments Null {datetime}.
Arguments Int {datetime} n.
Arguments Float {datetime} x.
Arguments Datetime {datetime} t.
Arguments Binary {datetime} b.
Arguments StringSet {datetime} l.
Arguments NumberSet {datetime} l.
Arguments BinarySet {datetime} l.
Arguments List {datetime} l.
Arguments Dict {datetime} kvs.
Arguments convert_dynamodb_item {datetime} fromisoformat to_float it.
Arguments has_decimal {datetime} it.

End Dashboard.

(** ** Vocabulary of the properties *)

(** [m] keeps [I], whether it returns or raises. *)
Definition preserves {S A} (I : S -> Prop) (m : Py S A) : Prop :=
  forall s, I s -> I (snd (m s)).

(** Every persisted value of a registered kind is inside the kind's range. *)
Definition values_in_range (cv : gmap string Q) : Prop :=
  forall k c v,
    SENSOR_TYPES !! k = Some c -> cv !! k = Some v ->
    inject_Z (cfg_min c) <= v <= inject_Z (cfg_max c).

(** Every registered kind among [kinds] has a persisted value. *)
Definition values_present (kinds : list string) (cv : gmap string Q) : Prop :=
  forall k, In k kinds -> is_Some (SENSOR_TYPES !! k) -> is_Some (cv !! k).

(** A device as the fleet holds them: at least one kind, and a value for
    each registered one. *)
Definition device_ok (d : SensorDevice) : Prop :=
  sensor_types d <> [] /\ values_present (sensor_types d) (current_values d).

(** The value [drift_step] persists for a kind with configuration [c],
    from the value [current] and the fraction [u] its draw reads. *)
Definition drift_value (c : SensorConfig) (current u : Q) : Q :=
  let drift := - cfg_drift_factor c + (cfg_drift_factor c - - cfg_drift_factor c) * u in
  let drift := if get_decay c then Qabs drift * (-1) else drift in
  Num.py_round
    (Num.py_max (inject_Z (cfg_min c))
                (Num.py_min (current + drift) (inject_Z (cfg_max c))))
    (cfg_precision c).

(** [v] is a multiple of the kind's rounding unit inside the kind's range. *)
Definition settled (c : SensorConfig) (v : Q) : Prop :=
  (exists n : Z, v == n # Num.pow10 (cfg_precision c))
  /\ inject_Z (cfg_min c) <= v <= inject_Z (cfg_max c).

(** The object [d] with its [current_values] replaced. *)
Definition with_values (d : SensorDevice) (cv : gmap string Q) : SensorDevice :=
  {| device_id := device_id d; location := location d;
     sensor_types := sensor_types d; current_values := cv |}.

(** Each entry of [readings] reports the persisted value of its kind. *)
Definition readings_match (rs : gmap string SensorReading) (cv : gmap string Q) : Prop :=
  forall k e, rs !! k = Some e -> cv !! k = Some (value e).

(** The calls the drift loop makes: one per registered kind, in list order. *)
Definition drift_calls (kinds : list string) : list Random.call :=
  omap (fun k => (fun c => Random.Call_uniform (- cfg_drift_factor c) (cfg_drift_factor c))
                   <$> SENSOR_TYPES !! k) kinds.

Definition jitter_call : Random.call :=
  Random.Call_uniform (- (1 # 10000)) (1 # 10000).

(** [d'] differs from [d] at most in its [current_values]. *)
Definition same_identity (d d' : SensorDevice) : Prop :=
  device_id d' = device_id d
  /\ location d' = location d
  /\ sensor_types d' = sensor_types d.

(** The decisions of the anomaly block, read off the generator [g] it
    starts in: whether the 1% draw fires, the kind the next draw picks
    among [kinds], and the extreme the draw after that selects. *)
Definition anomaly_fires (g : Random.state) : bool :=
  if Qlt_le_dec (Random.peek g 0) (1 # 100) then true else false.

Definition anomaly_target (kinds : list string) (g : Random.state) : option string :=
  kinds !! (N.to_nat (Random.num (Random.peek_raw g 1)) mod length kinds)%nat.

Definition anomaly_extreme (c : SensorConfig) (g : Random.state) : Z :=
  if Qlt_le_dec (Random.peek g 2) (1 # 2) then cfg_max c else cfg_min c.

(** The generator with the calls [cs] logged after those already made. *)
Definition logged (g : Random.state) (cs : list Random.call) : Random.state :=
  {| Random.tape := Random.tape g; Random.calls := Random.calls g ++ cs |}.

(** The generator as the anomaly block of a call started in [w] finds it:
    after the drift draws and the status draw. *)
Definition anomaly_rng (w : World) : Random.state :=
  logged (rng w) (drift_calls (sensor_types (self w)) ++ [Random.Call_choices]).

(** The calls of the anomaly block started in [g] for a device supporting
    [kinds]: the 1% draw; when it fires, the choice of a kind; when the
    chosen kind has a reading (it is registered), the spike-or-drop draw. *)
Definition anomaly_calls (kinds : list string) (g : Random.state) : list Random.call :=
  Random.Call_random ::
  (if anomaly_fires g then
     Random.Call_choice (length kinds) ::
     match anomaly_target kinds g with
     | Some k => if SENSOR_TYPES !! k is Some _ then [Random.Call_random] else []
     | None => []
     end
   else []).

(** The readings the anomaly block hands on, from those of the drift loop. *)
Definition anomaly_readings (kinds : list string) (g : Random.state)
    (rs : gmap string SensorReading) : gmap string SensorReading :=
  if anomaly_fires g then
    match anomaly_target kinds g with
    | Some k =>
      match SENSOR_TYPES !! k with
      | Some c => set_value k (inject_Z (anomaly_extreme c g)) rs
      | None => rs
      end
    | None => rs
    end
  else rs.

(** The calls on the [random] module one [generate_reading] makes, in
    order, as the code makes them. *)
Definition call_trace (w : World) : list Random.call :=
  drift_calls (sensor_types (self w))
  ++ [Random.Call_choices]
  ++ anomaly_calls (sensor_types (self w)) (anomaly_rng w)
  ++ [jitter_call; jitter_call].

(** The calls as the specification lists them: the drift draws, one draw
    for the anomaly check, one for the status, two for the jitter. *)
Definition claimed_trace (w : World) : list Random.call :=
  drift_calls (sensor_types (self w))
  ++ [Random.Call_random; Random.Call_choices; jitter_call; jitter_call].

(** ** Sample data *)

Definition warehouse_a : Location :=
  mk_location "warehouse_a" "Warehouse A" (476062 # 10000) (-1223321 # 10000).

(** A tape on which every draw reads 1/4: no anomaly, status operational. *)
Definition steady_tape : nat -> Random.draw := fun _ => Random.mk_draw 1 4.

Definition steady_rng : Random.state := Random.mk_state steady_tape [].

(** The first draw reads 0.797, every later one 1/4. *)
Definition battery_tape : nat -> Random.draw :=
  fun i => match i with O => Random.mk_draw 797 1000 | _ => Random.mk_draw 1 4 end.

(** The third draw reads 0, so that the anomaly of a one-kind device
    fires; every other draw reads 1/4. *)
Definition anomaly_tape : nat -> Random.draw :=
  fun i => match i with 2%nat => Random.mk_draw 0 1 | _ => Random.mk_draw 1 4 end.

(** A device reporting its battery only, started at 80. *)
Definition battery_device : SensorDevice :=
  mk_device "device_0001" warehouse_a ["battery_level"] {["battery_level" := 80]}.

Definition battery_world : World := mk_world battery_device steady_rng.

Definition epoch : nat -> string := fun _ => "2024-01-01T00:00:00".

(** The battery device on a tape that makes its anomaly fire. *)
Definition anomaly_world : World :=
  mk_world battery_device (Random.mk_state anomaly_tape []).

(** One run of [generate_batch] over the devices still to visit, told
    device by device in fleet order: a device whose draw is not below
    98/100 is skipped and left as it is; a device whose draw is below
    98/100 has [generate_reading] called on it once, its record joins the
    batch and the object the call leaves takes its place. *)
Inductive batch_run (clock : nat -> string)
  : nat -> list SensorDevice -> Random.state ->
    list Reading -> list SensorDevice -> Random.state -> Prop :=
| batch_done i g : batch_run clock i [] g [] [] g
| batch_skip i d ds g rs ds' g' :
    98 # 100 <= Random.peek g 0 ->
    batch_run clock (S i) ds (logged g [Random.Call_random]) rs ds' g' ->
    batch_run clock i (d :: ds) g rs (d :: ds') g'
| batch_report i d ds g r w rs ds' g' :
    Random.peek g 0 < 98 # 100 ->
    generate_reading (clock i) {| self := d; rng := logged g [Random.Call_random] |}
    = (Return r, w) ->
    batch_run clock (S i) ds (rng w) rs ds' g' ->
    batch_run clock i (d :: ds) g (r :: rs) (self w :: ds') g'.

(** A fleet of two battery devices. *)
Definition sample_fleet : DataGenerator :=
  mk_generator
    [battery_device;
     mk_device "device_0002" warehouse_a ["battery_level"] {["battery_level" := 55]}]
    steady_rng.

(** ** Vocabulary of the further properties *)

(** An entry [e] under [k] of a record of a device supporting [kinds] is
    well formed: [k] is a registered kind of the device, [e] carries the
    kind's unit, and its value is a multiple of the kind's rounding unit
    inside the kind's range. *)
Definition entry_ok (kinds : list string) (k : string) (e : SensorReading) : Prop :=
  In k kinds
  /\ exists c, SENSOR_TYPES !! k = Some c
               /\ unit_ e = cfg_unit c
               /\ settled c (value e).

(** The status the weights [0.95, 0.03, 0.015, 0.005] give for the
    fraction [u] drawn. *)
Definition status_by_draw (u : Q) : string :=
  if Qlt_le_dec u (95 # 100) then "operational"
  else if Qlt_le_dec u (98 # 100) then "maintenance"
  else if Qlt_le_dec u (995 # 1000) then "warning"
  else "error".

(** A device without sensors, as [SensorDevice(id, location, [])] makes it. *)
Definition bare_device : SensorDevice := mk_device "device_0000" warehouse_a [] ∅.

(** A device whose list names a registered kind it holds no value for, as
    after [device.sensor_types.append('humidity')]. *)
Definition stale_device : SensorDevice :=
  mk_device "device_0009" warehouse_a ["battery_level"; "humidity"]
    {["battery_level" := 80]}.

(** A device reporting its temperature only, at 20.0. *)
Definition thermo_device : SensorDevice :=
  mk_device "device_0042" warehouse_a ["temperature"] {["temperature" := 20]}.

(** A device fit for the fleet: well formed, its values in range. *)
Definition fleet_ok (d : SensorDevice) : Prop :=
  device_ok d /\ values_in_range (current_values d).

(** The generator after [m] successive calls of [generate_batch], the
    [j]-th of them stamping its [i]-th device at time [clock j i]. *)
Fixpoint run_batches (clock : nat -> nat -> string) (m : nat) (s : DataGenerator)
  : DataGenerator :=
  match m with
  | O => s
  | S m' => snd (generate_batch (clock m') (run_batches clock m' s))
  end.

(** ** [DataGenerator.__init__]

    Two more calls on the [random] module serve the creation of the fleet.
    Both draw through [_randbelow(n)], one cell of the tape each, logged as
    the choice among [n] values that it is. *)

(** [random.randint(a, b)]: [a] plus a draw below [b - a + 1]; [None]
    stands for the [ValueError] of an empty range. *)
Definition random_randint (a b : Z) (g : Random.state) : option Z * Random.state :=
  if (b <? a)%Z then (None, g)
  else
    let width := Z.to_nat (b - a + 1) in
    let '(d, g') := Random.next (Random.Call_choice width) g in
    (Some (a + Z.of_nat (N.to_nat (Random.num d) mod width))%Z, g').

(** The loop of [random.sample] over a pool (the branch taken for
    populations of at most 21 elements): with [live] entries of the pool
    still to pick from, [j = _randbelow(live)], [result[i] = pool[j]],
    [pool[j] = pool[live - 1]]. *)
Fixpoint sample_loop {A} (k live : nat) (pool : list A) (g : Random.state)
  : option (list A) * Random.state :=
  match k with
  | O => (Some [], g)
  | S k' =>
    let '(d, g1) := Random.next (Random.Call_choice live) g in
    let j := (N.to_nat (Random.num d) mod live)%nat in
    match pool !! j, pool !! (live - 1)%nat with
    | Some x, Some y =>
      let '(rest, g2) := sample_loop k' (live - 1) (<[j := y]> pool) g1 in
      (cons x <$> rest, g2)
    | _, _ => (None, g1)
    end
  end.

(** [random.sample(population, k)]; [None] stands for the [ValueError] of
    a sample larger than the population or negative. *)
Definition random_sample {A} (population : list A) (k : Z) (g : Random.state)
  : option (list A) * Random.state :=
  if ((k <? 0) || (Z.of_nat (length population) <? k))%Z then (None, g)
  else sample_loop (Z.to_nat k) (length population) population g.

(** [list(SENSOR_TYPES.keys())]: the keys in the order of the literal. *)
Definition SENSOR_KEYS : list string :=
  ["temperature"; "humidity"; "pressure"; "light_level"; "air_quality";
   "battery_level"].

(** A call on the [random] module from module level. *)
Definition draw {A} (f : Random.state -> A * Random.state) : Py Random.state A :=
  fun g => let '(a, g') := f g in (Return a, g').

(** The body of the loop of [DataGenerator.__init__]; [uuid_hex] is what
    [uuid.uuid4().hex] gives. *)
Definition new_device (uuid_hex : string) : Py Random.state SensorDevice :=
  let device_id := "device_" ++ String.substring 0 8 uuid_hex in
  let! chosen := draw (Random.choice LOCATIONS) in
  let! location := or_raise IndexError chosen in
  let available_sensors := SENSOR_KEYS in
  let! drawn :=
    draw (random_randint (Z.max 1 (Z.of_nat (length available_sensors) - 2))
                         (Z.of_nat (length available_sensors))) in
  let! num_sensors := or_raise ValueError drawn in
  let! sampled := draw (random_sample available_sensors num_sensors) in
  let! device_sensors := or_raise ValueError sampled in
  SensorDevice_init device_id location device_sensors.

Fixpoint new_devices (uuids : nat -> string) (i n : nat) (devices : list SensorDevice)
  : Py Random.state (list SensorDevice) :=
  match n with
  | O => ret devices
  | S n' =>
    let! device := new_device (uuids i) in
    new_devices uuids (S i) n' (devices ++ [device])
  end.

(** [DataGenerator(num_devices)]; [uuids i] is the hex of the [i]-th
    identifier [uuid.uuid4()] hands out. *)
Definition DataGenerator_init (uuids : nat -> string) (num_devices : Z)
    (g : Random.state) : outcome DataGenerator * Random.state :=
  match new_devices uuids 0 (Z.to_nat num_devices) [] g with
  | (Return ds, g') => (Return {| devices := ds; gen := g' |}, g')
  | (Raise e, g') => (Raise e, g')
  end.

(** What the fleet's constructor gives each device: its identifier, one of
    the registered sites, and between four and six distinct registered
    kinds. *)
Definition as_constructed (d : SensorDevice) : Prop :=
  In (location d) LOCATIONS
  /\ NoDup (sensor_types d)
  /\ (4 <= length (sensor_types d) <= 6)%nat
  /\ (forall k, In k (sensor_types d) -> is_Some (SENSOR_TYPES !! k))
  /\ (forall k, is_Some (current_values d !! k) <-> In k (sensor_types d)).

(** ** [save_to_csv]: the flattening of the records

    A cell of a flat record is a string or a number.  What the data frame
    and the CSV writer do with the flat records is not modelled. *)

Inductive Cell :=
| Text (s : string)
| Number (x : Q).

(** The loop over [record['readings'].items()]; [items] lists the entries
    in the order the dictionary yields them. *)
Definition add_sensor_columns (flat_record : gmap string Cell)
    (items : list (string * SensorReading)) : gmap string Cell :=
  foldl (fun flat (item : string * SensorReading) =>
           let (sensor_type, reading) := item in
           <[sensor_type ++ "_unit" := Text (unit_ reading)]>
             (<[sensor_type ++ "_value" := Number (value reading)]> flat))
        flat_record items.

(** The body of the loop of [save_to_csv] for one [record]. *)
Definition flat_record (record : Reading) (items : list (string * SensorReading))
  : gmap string Cell :=
  add_sensor_columns
    (<["status" := Text (status record)]>
     (<["longitude" := Number (longitude (coordinates record))]>
     (<["latitude" := Number (latitude (coordinates record))]>
     (<["location_name" := Text (location_name record)]>
     (<["location_id" := Text (location_id record)]>
     (<["timestamp" := Text (timestamp record)]>
     (<["device_id" := Text (reading_device_id record)]> ∅)))))))
    items.

(** [flattened_data] of [save_to_csv]; [order record] is the order in
    which [record['readings']] yields its entries. *)
Definition flattened_data (order : Reading -> list (string * SensorReading))
    (data : list Reading) : list (gmap string Cell) :=
  map (fun record => flat_record record (order record)) data.

(** The columns every flat record has. *)
Definition FIXED_COLUMNS : list string :=
  ["device_id"; "timestamp"; "location_id"; "location_name"; "latitude";
   "longitude"; "status"].

(** What one flat record holds of its record: the seven fixed columns, the
    value and unit of each kind reported, and nothing else. *)
Definition flat_of (record : Reading) (flat : gmap string Cell) : Prop :=
  flat !! "device_id" = Some (Text (reading_device_id record))
  /\ flat !! "timestamp" = Some (Text (timestamp record))
  /\ flat !! "location_id" = Some (Text (location_id record))
  /\ flat !! "location_name" = Some (Text (location_name record))
  /\ flat !! "latitude" = Some (Number (latitude (coordinates record)))
  /\ flat !! "longitude" = Some (Number (longitude (coordinates record)))
  /\ flat !! "status" = Some (Text (status record))
  /\ (forall k, flat !! (k ++ "_value")
                = (fun e => Number (value e)) <$> readings record !! k)
  /\ (forall k, flat !! (k ++ "_unit")
                = (fun e => Text (unit_ e)) <$> readings record !! k)
  /\ (forall col, is_Some (flat !! col) ->
        In col FIXED_COLUMNS
        \/ exists k, is_Some (readings record !! k)
                     /\ (col = k ++ "_value" \/ col = k ++ "_unit")).

(** A record as [generate_reading] builds it, for a device reporting its
    temperature and its battery level. *)
Definition sample_record : Reading :=
  {| reading_device_id := "device_0042";
     timestamp := "2024-01-01T00:00:00";
     location_id := loc_id warehouse_a;
     location_name := loc_name warehouse_a;
     coordinates := {| latitude := lat warehouse_a; longitude := lon warehouse_a |};
     readings := {["temperature" := {| value := 205 # 10; unit_ := "°C" |};
                   "battery_level" := {| value := 80; unit_ := "%" |}]};
     status := "operational" |}.

(** ** The dashboard: [extract_sensor_value] and the scan loop *)

Section Dashboard_helpers.

Context {datetime : Type}.

Local Abbreviation item := (Dashboard.item datetime).

(** [d.get(key)] on the entries of a dict, [None] when the key is missing. *)
Fixpoint dict_get (kvs : list (string * item)) (key : string) : option item :=
  match kvs with
  | [] => None
  | (k, v) :: rest => if String.eqb k key then Some v else dict_get rest key
  end.

(** [extract_sensor_value]; Python's [None] is [Null]. *)
Definition extract_sensor_value (reading_dict : item) (sensor_name : string) : item :=
  match reading_dict with
  | Dashboard.Dict kvs =>
    match dict_get kvs sensor_name with
    | Some (Dashboard.Dict reading) =>
      match dict_get reading "value" with
      | Some v => v
      | None => Dashboard.Null
      end
    | _ => Dashboard.Null
    end
  | _ => Dashboard.Null
  end.

(** A [Decimal] that is not the value of a dictionary key: the item
    itself, an element of a list or a member of a number set, at any
    depth. *)
Fixpoint exposed_decimal (it : item) : bool :=
  match it with
  | Dashboard.Dec _ => true
  | Dashboard.NumberSet l => match l with [] => false | _ :: _ => true end
  | Dashboard.List l => existsb exposed_decimal l
  | Dashboard.Dict kvs =>
    existsb (fun kv : string * item =>
               match snd kv with
               | Dashboard.Dec _ => false
               | _ => exposed_decimal (snd kv)
               end) kvs
  | _ => false
  end.

(** The number a [Decimal] denotes: its coefficient times ten to its
    exponent. *)
Definition decimal_value (v : Dashboard.Decimal) : Q :=
  if (0 <=? Dashboard.exponent v)%Z
  then inject_Z (Dashboard.coefficient v * 10 ^ Dashboard.exponent v)
  else Dashboard.coefficient v # Z.to_pos (10 ^ (- Dashboard.exponent v)).

(** A [Decimal] whose integer part has more digits than the context
    allows. *)
Definition oversized (v : Dashboard.Decimal) : bool :=
  (10 ^ 28 <=? Z.abs (Dashboard.to_int v))%Z.

(** An oversized [Decimal] as the value of a dictionary key, the
    dictionary being the item itself or reached from it through lists and
    dictionary values. *)
Fixpoint oversized_under_key (it : item) : bool :=
  match it with
  | Dashboard.List l => existsb oversized_under_key l
  | Dashboard.Dict kvs =>
    existsb (fun kv : string * item =>
               match snd kv with
               | Dashboard.Dec d => oversized d
               | _ => oversized_under_key (snd kv)
               end) kvs
  | _ => false
  end.

(** What the loop over a dictionary stores under the key [k] for the
    value [v], or the exception it ends with. *)
Definition convert_value (fromisoformat : string -> option datetime)
    (to_float : Dashboard.Decimal -> Q) (k : string) (v : item) : outcome item :=
  match v with
  | Dashboard.Dec d =>
    match Dashboard.is_whole d with
    | Return true => Return (Dashboard.Int (Dashboard.to_int d))
    | Return false => Return (Dashboard.Float (to_float d))
    | Raise e => Raise e
    end
  | Dashboard.Str s =>
    if String.eqb k "timestamp" then
      Return match fromisoformat s with
             | Some t => Dashboard.Datetime t
             | None => v
             end
    else Dashboard.convert_dynamodb_item fromisoformat to_float v
  | _ => Dashboard.convert_dynamodb_item fromisoformat to_float v
  end.

(** *** [fetch_data_from_dynamodb]: gathering the items

    A response of [table.scan]: its ['Items'], if the key is there, and its
    ['LastEvaluatedKey'], if the scan stopped before the end of the table. *)
Record ScanResponse (Key : Type) := mk_response {
  Items : option (list item);
  LastEvaluatedKey : option Key
}.

Arguments Items {Key} _.
Arguments LastEvaluatedKey {Key} _.

(** [response.get('Items', [])] *)
Definition get_items {Key} (response : ScanResponse Key) : list item :=
  match Items response with
  | Some l => l
  | None => []
  end.

Section Fetch.

(** [table.scan]: the [n]-th call, with its [Limit] and its
    [ExclusiveStartKey]. *)
Variable Key : Type.
Variable scan : nat -> Z -> option Key -> ScanResponse Key.

(** The [while] loop; [n] counts the calls of [scan] made so far, [None]
    is the loop still running when the fuel is spent. *)
Fixpoint scan_loop (fuel n : nat) (limit : Z) (response : ScanResponse Key)
    (items : list item) : option (list item) :=
  match LastEvaluatedKey response with
  | Some key =>
    if (Z.of_nat (length items) <? limit)%Z then
      match fuel with
      | O => None
      | S fuel' =>
        let response' := scan n (limit - Z.of_nat (length items))%Z (Some key) in
        let items' := (items ++ get_items response')%list in
        if (limit <=? Z.of_nat (length items'))%Z then Some items'
        else scan_loop fuel' (S n) limit response' items'
      end
    else Some items
  | None => Some items
  end.

(** The items [fetch_data_from_dynamodb] gathers before it converts them. *)
Definition fetch_items (fuel : nat) (limit : Z) : option (list item) :=
  let response := scan 0 limit None in
  scan_loop fuel 1 limit response (get_items response).

(** [converted_items]: the comprehension over the items gathered, which
    an item that does not convert ends with its exception. *)
Definition converted_items (fromisoformat : string -> option datetime)
    (to_float : Dashboard.Decimal -> Q)
    (fuel : nat) (limit : Z) : option (outcome (list item)) :=
  match fetch_items fuel limit with
  | Some items =>
    Some (Dashboard.mapM (Dashboard.convert_dynamodb_item fromisoformat to_float)
            items)
  | None => None
  end.

(** What the service promises of a scan: no more items than the [Limit]
    asked for, and a page that is not the last one holds an item. *)
Definition scan_respects_limit : Prop :=
  forall n lim key, (1 <= lim)%Z ->
    (Z.of_nat (length (get_items (scan n lim key))) <= lim)%Z.

Definition scan_progresses : Prop :=
  forall n lim key, (1 <= lim)%Z ->
    is_Some (LastEvaluatedKey (scan n lim key)) ->
    (1 <= length (get_items (scan n lim key)))%nat.

End Fetch.

End Dashboard_helpers.

Arguments Items {datetime Key} _.
Arguments LastEvaluatedKey {datetime Key} _.
Arguments mk_response {datetime Key} _ _.
Arguments scan_loop {datetime Key} scan fuel n limit response items.
Arguments fetch_items {datetime Key} scan fuel limit.
Arguments converted_items {datetime Key} scan fromisoformat to_float fuel limit.
Arguments scan_respects_limit {datetime Key} scan.
Arguments scan_progresses {datetime Key} scan.

(** A table of five items, each with a [Decimal], and a scan of it that
    hands out pages of two items at most; the key of a page is the
    position it stopped at. *)
Definition sample_table : list (Dashboard.item ()) :=
  map (fun n => Dashboard.Dict
                  [("device_id", Dashboard.Str "device_0042");
                   ("battery_level", Dashboard.Dec (Dashboard.mk_decimal n 0))])
      [80; 79; 78; 77; 76]%Z.

Definition sample_scan (n : nat) (lim : Z) (key : option nat)
  : ScanResponse (datetime := ()) nat :=
  let start := default 0%nat key in
  let page := take (Z.to_nat (Z.min lim 2)) (drop start sample_table) in
  {| Items := Some page;
     LastEvaluatedKey :=
       if (start + length page <? length sample_table)%nat
       then Some (start + length page)%nat
       else None |}.

(** The battery reading of an item, at 80.0. *)
Definition sample_battery_reading : list (string * Dashboard.item ()) :=
  [("value", Dashboard.Dec (Dashboard.mk_decimal 800 (-1)));
   ("unit", Dashboard.Str "%")].

(** Readings as DynamoDB hands them over, the values as [Decimal]s. *)
Definition sample_readings : list (string * Dashboard.item ()) :=
  [("temperature",
    Dashboard.Dict [("value", Dashboard.Dec (Dashboard.mk_decimal 205 (-1)));
                    ("unit", Dashboard.Str "°C")]);
   ("battery_level", Dashboard.Dict sample_battery_reading)].

(** The sample readings converted: the battery at 80.0 as the [int] 80,
    the temperature at 20.5 as a [float]. *)
Definition sample_converted (to_float : Dashboard.Decimal -> Q)
  : Dashboard.item () :=
  Dashboard.Dict
    [("temperature",
      Dashboard.Dict
        [("value", Dashboard.Float (to_float (Dashboard.mk_decimal 205 (-1))));
         ("unit", Dashboard.Str "°C")]);
     ("battery_level",
      Dashboard.Dict [("value", Dashboard.Int 80);
                      ("unit", Dashboard.Str "%")])].

(** * Properties *)

(** *** Facts about rounding *)

Section RoundingFacts.
Import Num.

Lemma pow10_pos (n : nat) : 0 < inject_Z (Zpos (pow10 n)).
Proof. reflexivity. Qed.

Lemma round_half_even_comp (x y : Q) :
  x == y -> round_half_even x = round_half_even y.
Proof.
  intros E. unfold round_half_even.
  rewrite (Qfloor_comp _ _ E).
  assert (Ec : Qcompare (x - inject_Z (Qfloor y)) (1 # 2)
             = Qcompare (y - inject_Z (Qfloor y)) (1 # 2))
    by (apply Qcompare_comp; [rewrite E|]; reflexivity).
  now rewrite Ec.
Qed.

(** The rounded integer is within one half of the argument. *)
Lemma round_half_even_near (x : Q) :
  inject_Z (round_half_even x) - (1 # 2) <= x
  /\ x <= inject_Z (round_half_even x) + (1 # 2).
Proof.
  unfold round_half_even.
  pose proof (Qfloor_le x) as Hlo. pose proof (Qlt_floor x) as Hhi.
  rewrite inject_Z_plus in Hhi. change (inject_Z 1) with 1 in Hhi.
  destruct (Qcompare_spec (x - inject_Z (Qfloor x)) (1 # 2)) as [E|L|G].
  - destruct (Z.even (Qfloor x)); rewrite ?inject_Z_plus;
      change (inject_Z 1) with 1; split; lra.
  - split; lra.
  - rewrite inject_Z_plus. change (inject_Z 1) with 1. split; lra.
Qed.

(** Whoever is strictly closer than one half to an integer rounds to it. *)
Lemma round_half_even_close (x : Q) (n : Z) :
  inject_Z n - (1 # 2) < x -> x < inject_Z n + (1 # 2) ->
  round_half_even x = n.
Proof.
  intros Hlo Hhi. destruct (round_half_even_near x) as [A B].
  set (r := round_half_even x) in *.
  assert (Hl : inject_Z r < inject_Z (n + 1)).
  { rewrite inject_Z_plus. change (inject_Z 1) with 1. lra. }
  assert (Hr : inject_Z n < inject_Z (r + 1)).
  { rewrite inject_Z_plus. change (inject_Z 1) with 1. lra. }
  rewrite <- Zlt_Qlt in Hl, Hr. lia.
Qed.

Lemma round_half_even_Z (n : Z) : round_half_even (inject_Z n) = n.
Proof. apply round_half_even_close; lra. Qed.

Lemma round_half_even_mono (x y : Q) :
  x <= y -> (round_half_even x <= round_half_even y)%Z.
Proof.
  intros Hxy.
  destruct (Z.le_gt_cases (round_half_even x) (round_half_even y)) as [|Hgt];
    [assumption|].
  destruct (round_half_even_near x) as [Ax _].
  destruct (round_half_even_near y) as [_ By].
  assert (Hz : inject_Z (round_half_even y + 1) <= inject_Z (round_half_even x))
    by (rewrite <- Zle_Qle; lia).
  rewrite inject_Z_plus in Hz. change (inject_Z 1) with 1 in Hz.
  assert (E : x == y) by lra.
  rewrite (round_half_even_comp _ _ E). lia.
Qed.

Lemma py_round_eq (x : Q) (p : nat) :
  py_round x p
  == inject_Z (round_half_even (x * inject_Z (Zpos (pow10 p))))
     / inject_Z (Zpos (pow10 p)).
Proof. unfold py_round. rewrite Qred_correct. apply Qmake_Qdiv. Qed.

Lemma py_round_comp (x y : Q) (p : nat) : x == y -> py_round x p = py_round y p.
Proof.
  intros E. unfold py_round.
  assert (E' : x * inject_Z (Zpos (pow10 p)) == y * inject_Z (Zpos (pow10 p)))
    by (rewrite E; reflexivity).
  now rewrite (round_half_even_comp _ _ E').
Qed.

Lemma py_round_mono (x y : Q) (p : nat) :
  x <= y -> py_round x p <= py_round y p.
Proof.
  intros Hxy. rewrite !py_round_eq.
  pose proof (pow10_pos p) as Hp.
  apply Qmult_le_compat_r; [|apply Qlt_le_weak, Qinv_lt_0_compat, Hp].
  rewrite <- Zle_Qle. apply round_half_even_mono.
  apply Qmult_le_compat_r; [assumption | lra].
Qed.

(** A multiple of [10^-p] is a fixed point of rounding to [p] digits. *)
Lemma py_round_multiple (n : Z) (p : nat) :
  py_round (n # pow10 p) p == n # pow10 p.
Proof.
  rewrite py_round_eq.
  assert (E : (n # pow10 p) * inject_Z (Zpos (pow10 p)) == inject_Z n).
  { rewrite Qmult_inject_Z_r. apply Qreduce_den_inject_Z_r. }
  rewrite (round_half_even_comp _ _ E), round_half_even_Z.
  symmetry. apply Qmake_Qdiv.
Qed.

Lemma py_round_Z (n : Z) (p : nat) : py_round (inject_Z n) p == inject_Z n.
Proof.
  assert (E : inject_Z n == (n * Zpos (pow10 p)) # pow10 p)
    by (symmetry; apply Qreduce_den_inject_Z_r).
  rewrite (py_round_comp _ _ p E), py_round_multiple. now symmetry.
Qed.

(** Rounding cannot leave an interval with integer end points. *)
Lemma py_round_between (lo hi : Z) (x : Q) (p : nat) :
  inject_Z lo <= x <= inject_Z hi ->
  inject_Z lo <= py_round x p <= inject_Z hi.
Proof.
  intros [Hlo Hhi]. split.
  - rewrite <- (py_round_Z lo p). now apply py_round_mono.
  - rewrite <- (py_round_Z hi p). now apply py_round_mono.
Qed.

(** The result of rounding is itself a multiple of [10^-p]. *)
Lemma py_round_is_multiple (x : Q) (p : nat) :
  exists n : Z, py_round x p == n # pow10 p.
Proof.
  exists (round_half_even (x * inject_Z (Zpos (pow10 p)))).
  unfold py_round. apply Qred_correct.
Qed.

(** Adding less than half a unit in the last place to a multiple of
    [10^-p] does not change what it rounds to. *)
Lemma py_round_absorbs (n : Z) (p : nat) (d : Q) :
  - (1 # 2) < d * inject_Z (Zpos (pow10 p)) ->
  d * inject_Z (Zpos (pow10 p)) < 1 # 2 ->
  py_round ((n # pow10 p) + d) p == n # pow10 p.
Proof.
  intros Hlo Hhi. rewrite py_round_eq.
  assert (E : (n # pow10 p) * inject_Z (Zpos (pow10 p)) == inject_Z n).
  { rewrite Qmult_inject_Z_r. apply Qreduce_den_inject_Z_r. }
  rewrite (round_half_even_close _ n).
  - symmetry. apply Qmake_Qdiv.
  - rewrite Qmult_plus_distr_l, E. lra.
  - rewrite Qmult_plus_distr_l, E. lra.
Qed.

Lemma py_max_spec (a b : Q) : a <= py_max a b /\ b <= py_max a b
  /\ (py_max a b = a \/ py_max a b = b).
Proof. unfold py_max. destruct (Qlt_le_dec a b); repeat split; auto; lra. Qed.

Lemma py_min_spec (a b : Q) : py_min a b <= a /\ py_min a b <= b
  /\ (py_min a b = a \/ py_min a b = b).
Proof. unfold py_min. destruct (Qlt_le_dec b a); repeat split; auto; lra. Qed.

End RoundingFacts.

(** ** The random source *)

Section RandomFacts.
Import Random.

Lemma unit_of_range (d : draw) : 0 <= unit_of d /\ unit_of d < 1.
Proof.
  unfold unit_of.
  pose proof (Z.mod_pos_bound (Z.of_N (num d)) (Zpos (den d)) eq_refl) as [Hlo Hhi].
  split.
  - unfold Qle; simpl. lia.
  - unfold Qlt; simpl. lia.
Qed.

Lemma uniform_range (a b : Q) (g : state) :
  a <= b -> a <= fst (uniform a b g) <= b.
Proof.
  intros Hab. unfold uniform; simpl.
  destruct (unit_of_range (tape g (length (calls g)))) as [Hlo Hhi].
  set (u := unit_of _) in *.
  split; nra.
Qed.

Lemma bisect_le (cum : list Q) (x : Q) (hi : nat) :
  length cum = S hi -> (bisect cum x hi <= hi)%nat.
Proof.
  revert cum. induction hi as [|hi IH]; intros [|c cum] Hlen; simpl in *; try lia.
  destruct (Qlt_le_dec x c); [lia|].
  specialize (IH cum ltac:(lia)). lia.
Qed.

End RandomFacts.

(** ** Reasoning about Python computations *)

Section PyLogic.
Context {S : Type}.

Lemma preserves_ret {A} (I : S -> Prop) (a : A) : preserves I (ret a).
Proof. intros s Hs. exact Hs. Qed.

Lemma preserves_raise {A} (I : S -> Prop) (e : exn) : preserves I (@raise S A e).
Proof. intros s Hs. exact Hs. Qed.

Lemma preserves_or_raise {A} (I : S -> Prop) (e : exn) (o : option A) :
  preserves I (or_raise e o).
Proof. destruct o; [apply preserves_ret | apply preserves_raise]. Qed.

Lemma preserves_bind {A B} (I : S -> Prop) (m : Py S A) (k : A -> Py S B) :
  preserves I m -> (forall a, preserves I (k a)) -> preserves I (bind m k).
Proof.
  intros Hm Hk s Hs. unfold bind.
  specialize (Hm s Hs). destruct (m s) as [[a|e] s']; simpl in *.
  - apply Hk, Hm.
  - exact Hm.
Qed.

End PyLogic.

(** ** The registry *)

Lemma registry_facts :
  map_Forall (fun _ c =>
    (cfg_min c <= cfg_max c)%Z
    /\ 0 <= cfg_drift_factor c
    /\ (get_decay c = true ->
        cfg_drift_factor c * inject_Z (Zpos (Num.pow10 (cfg_precision c))) < 1 # 2))
    SENSOR_TYPES.
Proof.
  unfold SENSOR_TYPES; simpl.
  repeat (apply map_Forall_insert_2;
          [ split; [| split]; simpl; [lia | discriminate | try discriminate]
          | ]);
    try apply map_Forall_empty.
  intros _. reflexivity.
Qed.

Lemma registry_range (k : string) (c : SensorConfig) :
  SENSOR_TYPES !! k = Some c -> inject_Z (cfg_min c) <= inject_Z (cfg_max c).
Proof.
  intros H. rewrite <- Zle_Qle. exact (proj1 (registry_facts k c H)).
Qed.

Lemma registry_drift_nonneg (k : string) (c : SensorConfig) :
  SENSOR_TYPES !! k = Some c -> 0 <= cfg_drift_factor c.
Proof. intros H. exact (proj1 (proj2 (registry_facts k c H))). Qed.

Lemma registry_decay_small (k : string) (c : SensorConfig) :
  SENSOR_TYPES !! k = Some c -> get_decay c = true ->
  cfg_drift_factor c * inject_Z (Zpos (Num.pow10 (cfg_precision c))) < 1 # 2.
Proof. intros H. exact (proj2 (proj2 (registry_facts k c H))). Qed.

(** ** One drift step on one value *)

Section DriftValue.
Import Num.
Variables (k : string) (c : SensorConfig).
Hypothesis registered : SENSOR_TYPES !! k = Some c.

Lemma clamp_range (x : Q) :
  inject_Z (cfg_min c)
  <= py_max (inject_Z (cfg_min c)) (py_min x (inject_Z (cfg_max c)))
  <= inject_Z (cfg_max c).
Proof.
  pose proof (registry_range k c registered) as Hr.
  destruct (py_min_spec x (inject_Z (cfg_max c))) as (_ & Hm & _).
  destruct (py_max_spec (inject_Z (cfg_min c)) (py_min x (inject_Z (cfg_max c))))
    as (Ha & _ & [E|E]); rewrite E in *; split; lra.
Qed.

Lemma drift_value_range (v u : Q) :
  inject_Z (cfg_min c) <= drift_value c v u <= inject_Z (cfg_max c).
Proof. unfold drift_value. apply py_round_between, clamp_range. Qed.

Lemma drift_value_settled (v u : Q) : settled c (drift_value c v u).
Proof.
  split; [|apply drift_value_range].
  unfold drift_value. apply py_round_is_multiple.
Qed.

(** The drift of a decaying kind, as a function of the fraction drawn. *)
Lemma decay_drift_range (u : Q) :
  0 <= u -> u < 1 ->
  let d := - cfg_drift_factor c + (cfg_drift_factor c - - cfg_drift_factor c) * u in
  - cfg_drift_factor c <= Qabs d * (-1) <= 0.
Proof.
  intros Hlo Hhi d.
  pose proof (registry_drift_nonneg k c registered) as Hf.
  assert (Hd : - cfg_drift_factor c <= d <= cfg_drift_factor c) by (unfold d; split; nra).
  pose proof (Qabs_nonneg d) as Hn.
  assert (Ha : Qabs d <= cfg_drift_factor c) by (apply Qabs_Qle_condition; exact Hd).
  split; lra.
Qed.

(** With a non-positive drift the clamped value does not exceed an
    in-range previous value, and stays within the drift of it. *)
Lemma clamp_decay (v d : Q) :
  inject_Z (cfg_min c) <= v <= inject_Z (cfg_max c) -> d <= 0 ->
  v + d <= py_max (inject_Z (cfg_min c)) (py_min (v + d) (inject_Z (cfg_max c))) <= v.
Proof.
  intros [Hlo Hhi] Hd.
  destruct (py_min_spec (v + d) (inject_Z (cfg_max c))) as (Hm1 & Hm2 & [E|E]);
  destruct (py_max_spec (inject_Z (cfg_min c)) (py_min (v + d) (inject_Z (cfg_max c))))
    as (Ha & Hb & [E'|E']); rewrite E' in *; rewrite ?E in *; split; lra.
Qed.

Lemma drift_value_decay_le (v u : Q) :
  get_decay c = true ->
  inject_Z (cfg_min c) <= v <= inject_Z (cfg_max c) -> 0 <= u -> u < 1 ->
  drift_value c v u <= py_round v (cfg_precision c).
Proof.
  intros Hdecay Hv Hlo Hhi. unfold drift_value. rewrite Hdecay.
  apply py_round_mono, clamp_decay; [assumption|].
  apply (decay_drift_range u Hlo Hhi).
Qed.

(** A settled value of a decaying kind is a fixed point of the step: the
    drift is below half a rounding unit. *)
Lemma drift_value_decay_fixed (v u : Q) :
  get_decay c = true -> settled c v -> 0 <= u -> u < 1 ->
  drift_value c v u == v.
Proof.
  intros Hdecay [[n Hn] Hv] Hlo Hhi.
  pose proof (registry_decay_small k c registered Hdecay) as Hsmall.
  pose proof (decay_drift_range u Hlo Hhi) as Hd. cbv zeta in Hd.
  unfold drift_value. rewrite Hdecay.
  set (d := Qabs _ * (-1)) in *.
  pose proof (clamp_decay v d Hv (proj2 Hd)) as Hc.
  set (x := py_max _ _) in *.
  assert (Ex : x == (n # pow10 (cfg_precision c)) + (x - v)) by (rewrite <- Hn; ring).
  rewrite (py_round_comp _ _ _ Ex).
  pose proof (pow10_pos (cfg_precision c)) as Hp.
  transitivity (n # pow10 (cfg_precision c)); [|symmetry; exact Hn].
  assert (Hxv : - cfg_drift_factor c <= x - v <= 0) by (split; lra).
  apply py_round_absorbs; nra.
Qed.

End DriftValue.

(** ** The drift loop *)

Lemma peek_0 (g : Random.state) :
  Random.peek g 0 = Random.unit_of (Random.tape g (length (Random.calls g))).
Proof. unfold Random.peek. now rewrite Nat.add_0_r. Qed.

Lemma drift_step_unregistered (k : string) (rs : gmap string SensorReading) (w : World) :
  SENSOR_TYPES !! k = None -> drift_step k rs w = (Return rs, w).
Proof. intros H. unfold drift_step. now rewrite H. Qed.

Lemma drift_step_registered (k : string) (c : SensorConfig)
    (rs : gmap string SensorReading) (w : World) (v : Q) :
  SENSOR_TYPES !! k = Some c -> current_values (self w) !! k = Some v ->
  let nv := drift_value c v (Random.peek (rng w) 0) in
  drift_step k rs w
  = (Return (<[k := mk_sensor_reading nv (cfg_unit c)]> rs),
     {| self := with_values (self w) (<[k := nv]> (current_values (self w)));
        rng := snd (Random.uniform (- cfg_drift_factor c) (cfg_drift_factor c) (rng w)) |}).
Proof.
  intros Hc Hv nv. unfold drift_step. rewrite Hc.
  unfold bind, rand, get_current_value, set_current_value, ret; simpl.
  rewrite Hv. unfold nv, drift_value. rewrite peek_0. reflexivity.
Qed.

Lemma drift_step_missing (k : string) (c : SensorConfig)
    (rs : gmap string SensorReading) (w : World) :
  SENSOR_TYPES !! k = Some c -> current_values (self w) !! k = None ->
  drift_step k rs w
  = (Raise (KeyError k),
     {| self := self w;
        rng := snd (Random.uniform (- cfg_drift_factor c) (cfg_drift_factor c) (rng w)) |}).
Proof.
  intros Hc Hv. unfold drift_step. rewrite Hc.
  unfold bind, rand, get_current_value; simpl. now rewrite Hv.
Qed.

(** A property of the object that every single update of a registered
    kind by a drift value keeps is kept by the whole loop, however it ends. *)
Lemma drift_loop_preserves (I : SensorDevice -> Prop) :
  (forall k c v u d,
      SENSOR_TYPES !! k = Some c -> current_values d !! k = Some v ->
      0 <= u -> u < 1 -> I d ->
      I (with_values d (<[k := drift_value c v u]> (current_values d)))) ->
  forall kinds rs w, I (self w) -> I (self (snd (drift_loop kinds rs w))).
Proof.
  intros Hstep kinds. induction kinds as [|k kinds IH]; intros rs w Hw; simpl.
  - exact Hw.
  - unfold bind.
    destruct (SENSOR_TYPES !! k) as [c|] eqn:Hc.
    + destruct (current_values (self w) !! k) as [v|] eqn:Hv.
      * rewrite (drift_step_registered k c rs w v Hc Hv). apply IH. simpl.
        destruct (unit_of_range (Random.tape (rng w) (length (Random.calls (rng w))))).
        apply Hstep; auto; rewrite peek_0; assumption.
      * rewrite (drift_step_missing k c rs w Hc Hv). exact Hw.
    + rewrite (drift_step_unregistered k rs w Hc). apply IH, Hw.
Qed.

(** ** What [generate_reading] leaves of the object *)

Lemma rand_eq {A} (f : Random.state -> A * Random.state) (w : World) :
  rand f w = (Return (fst (f (rng w))), {| self := self w; rng := snd (f (rng w)) |}).
Proof. unfold rand. destruct (f (rng w)); reflexivity. Qed.

Lemma preserves_rand {A} (d : SensorDevice) (f : Random.state -> A * Random.state) :
  preserves (fun w => self w = d) (rand f).
Proof. intros w Hw. rewrite rand_eq. exact Hw. Qed.

Lemma preserves_get_self (I : World -> Prop) : preserves I get_self.
Proof. intros w Hw. exact Hw. Qed.

Lemma anomaly_preserves_self (d : SensorDevice) (rs : gmap string SensorReading) :
  preserves (fun w => self w = d) (anomaly rs).
Proof.
  unfold anomaly.
  apply preserves_bind; [apply preserves_rand|]. intros a.
  destruct (Qlt_le_dec a (1 # 100)); [|apply preserves_ret].
  apply preserves_bind; [apply preserves_get_self|]. intros d0.
  apply preserves_bind; [apply preserves_rand|]. intros chosen.
  apply preserves_bind; [apply preserves_or_raise|]. intros k.
  destruct (rs !! k); [|apply preserves_ret].
  apply preserves_bind; [apply preserves_rand|]. intros side.
  apply preserves_bind; [apply preserves_or_raise|]. intros c.
  destruct (Qlt_le_dec side (1 # 2)); apply preserves_ret.
Qed.

(** The object after a call is the object the drift loop left: neither the
    status draw, nor the anomaly block, nor the construction of the record
    writes to it. *)
Lemma generate_reading_self (now : string) (w : World) :
  self (snd (generate_reading now w))
  = self (snd (drift_loop (sensor_types (self w)) ∅ w)).
Proof.
  unfold generate_reading. unfold bind at 1. unfold get_self at 1.
  unfold bind at 1.
  destruct (drift_loop (sensor_types (self w)) ∅ w) as [[rs|e] w0]; [|reflexivity].
  simpl.
  assert (H : preserves (fun w' => self w' = self w0)
    (let! picked := rand (Random.choices DEVICE_STATUSES STATUS_WEIGHTS) in
     let! status := or_raise ValueError picked in
     let! readings := anomaly rs in
     let! d := get_self in
     let! jlat := rand (Random.uniform (- (1 # 10000)) (1 # 10000)) in
     let! jlon := rand (Random.uniform (- (1 # 10000)) (1 # 10000)) in
     ret {| reading_device_id := device_id d;
            timestamp := now;
            location_id := loc_id (location d);
            location_name := loc_name (location d);
            coordinates := {| latitude := lat (location d) + jlat;
                              longitude := lon (location d) + jlon |};
            readings := readings;
            status := status |})).
  { apply preserves_bind; [apply preserves_rand|]. intros picked.
    apply preserves_bind; [apply preserves_or_raise|]. intros st.
    apply preserves_bind; [apply anomaly_preserves_self|]. intros rs'.
    apply preserves_bind; [apply preserves_get_self|]. intros d.
    apply preserves_bind; [apply preserves_rand|]. intros jlat.
    apply preserves_bind; [apply preserves_rand|]. intros jlon.
    apply preserves_ret. }
  exact (H w0 eq_refl).
Qed.

Lemma with_values_identity (d : SensorDevice) (cv : gmap string Q) :
  same_identity d (with_values d cv).
Proof. repeat split. Qed.

Lemma drift_loop_identity (kinds : list string) (rs : gmap string SensorReading)
    (w : World) :
  same_identity (self w) (self (snd (drift_loop kinds rs w))).
Proof.
  apply (drift_loop_preserves (same_identity (self w))); [|repeat split].
  intros k c v u d _ _ _ _ (H1 & H2 & H3). repeat split; assumption.
Qed.

Lemma values_in_range_insert (k : string) (c : SensorConfig) (v u : Q)
    (cv : gmap string Q) :
  SENSOR_TYPES !! k = Some c -> values_in_range cv ->
  values_in_range (<[k := drift_value c v u]> cv).
Proof.
  intros Hc Hcv k' c' v' Hc' Hv'.
  destruct (decide (k = k')) as [->|Hne].
  - rewrite lookup_insert_eq in Hv'. injection Hv' as <-.
    rewrite Hc in Hc'. injection Hc' as <-.
    apply (drift_value_range k' c Hc).
  - rewrite lookup_insert_ne in Hv' by assumption. eapply Hcv; eassumption.
Qed.

Lemma drift_loop_in_range (kinds : list string) (rs : gmap string SensorReading)
    (w : World) :
  values_in_range (current_values (self w)) ->
  values_in_range (current_values (self (snd (drift_loop kinds rs w)))).
Proof.
  apply (drift_loop_preserves (fun d => values_in_range (current_values d))).
  intros k c v u d Hc _ _ _ Hd. simpl. now apply values_in_range_insert.
Qed.

Lemma drift_loop_present (ks kinds : list string) (rs : gmap string SensorReading)
    (w : World) :
  values_present ks (current_values (self w)) ->
  values_present ks (current_values (self (snd (drift_loop kinds rs w)))).
Proof.
  apply (drift_loop_preserves (fun d => values_present ks (current_values d))).
  intros k c v u d Hc Hv _ _ Hd k' Hin Hreg. simpl.
  destruct (decide (k = k')) as [->|Hne].
  - rewrite lookup_insert_eq. eauto.
  - rewrite lookup_insert_ne by assumption. now apply Hd.
Qed.

(** ** Creation *)

Lemma init_values_spec (kinds : list string) (w : World) :
  exists w',
    init_values kinds w = (Return tt, w')
    /\ same_identity (self w) (self w')
    /\ (values_in_range (current_values (self w)) ->
        values_in_range (current_values (self w')))
    /\ (forall k, is_Some (current_values (self w') !! k)
                  <-> is_Some (current_values (self w) !! k)
                      \/ (In k kinds /\ is_Some (SENSOR_TYPES !! k))).
Proof.
  revert w. induction kinds as [|k kinds IH]; intros w; simpl.
  - exists w. split; [reflexivity|]. split; [repeat split|]. split; [auto|].
    intros k. split; [auto | intros [H|[[] _]]; exact H].
  - destruct (SENSOR_TYPES !! k) as [c|] eqn:Hc.
    + unfold bind at 1. rewrite rand_eq. unfold bind at 1. simpl.
      set (v := _ + _ * _).
      set (w1 := {| self := _; rng := _ |}).
      destruct (IH w1) as (w' & E & Hid & Hr & Hdom).
      exists w'. split; [exact E|]. split; [exact Hid|]. split.
      * intros Hcv. apply Hr. subst w1; simpl.
        intros k' c' v' Hc' Hv'.
        destruct (decide (k = k')) as [->|Hne].
        -- rewrite lookup_insert_eq in Hv'. injection Hv' as <-.
           rewrite Hc in Hc'. injection Hc' as <-.
           apply (uniform_range _ _ (rng w)), (registry_range k' c Hc).
        -- rewrite lookup_insert_ne in Hv' by assumption. eapply Hcv; eassumption.
      * intros k'. rewrite Hdom. subst w1; simpl.
        destruct (decide (k = k')) as [->|Hne].
        -- rewrite lookup_insert_eq. split; [|eauto].
           intros _. right. split; [now left | rewrite Hc; eauto].
        -- rewrite lookup_insert_ne by assumption.
           split; intros [H|[H1 H2]]; auto.
           destruct H1 as [->|H1]; [contradiction | auto].
    + destruct (IH w) as (w' & E & Hid & Hr & Hdom).
      exists w'. split; [exact E|]. split; [exact Hid|]. split; [exact Hr|].
      intros k'. rewrite Hdom.
      split; intros [H|[H1 H2]]; auto.
      destruct H1 as [->|H1]; [|auto].
      rewrite Hc in H2. destruct H2 as [? H2]. discriminate.
Qed.

(** Creation always returns: it builds the object with the identity given,
    holding an in-range value for exactly the registered kinds listed. *)
Lemma SensorDevice_init_spec (id : string) (loc : Location) (kinds : list string)
    (g : Random.state) :
  exists d g',
    SensorDevice_init id loc kinds g = (Return d, g')
    /\ device_id d = id /\ location d = loc /\ sensor_types d = kinds
    /\ values_in_range (current_values d)
    /\ (forall k, is_Some (current_values d !! k)
                  <-> In k kinds /\ is_Some (SENSOR_TYPES !! k)).
Proof.
  unfold SensorDevice_init.
  destruct (init_values_spec kinds {| self := mk_device id loc kinds ∅; rng := g |})
    as (w' & E & (H1 & H2 & H3) & Hr & Hdom).
  rewrite E. exists (self w'), (rng w'). simpl in *.
  split; [reflexivity|]. do 3 (split; [assumption|]). split.
  - apply Hr. intros k c v _ Hv. rewrite lookup_empty in Hv. discriminate.
  - intros k. rewrite Hdom, lookup_empty. split; [|auto].
    intros [[? H]|H]; [discriminate | exact H].
Qed.

Lemma ticks_identity (clock : nat -> string) (n : nat) (w : World) :
  same_identity (self w) (self (ticks clock n w)).
Proof.
  induction n as [|n IH]; simpl; [repeat split|].
  rewrite generate_reading_self.
  destruct IH as (H1 & H2 & H3).
  destruct (drift_loop_identity (sensor_types (self (ticks clock n w))) ∅ (ticks clock n w))
    as (K1 & K2 & K3).
  repeat split; congruence.
Qed.

Lemma ticks_in_range (clock : nat -> string) (n : nat) (w : World) :
  values_in_range (current_values (self w)) ->
  values_in_range (current_values (self (ticks clock n w))).
Proof.
  intros Hw. induction n as [|n IH]; simpl; [exact Hw|].
  rewrite generate_reading_self. now apply drift_loop_in_range.
Qed.

Lemma ticks_present (clock : nat -> string) (ks : list string) (n : nat) (w : World) :
  values_present ks (current_values (self w)) ->
  values_present ks (current_values (self (ticks clock n w))).
Proof.
  intros Hw. induction n as [|n IH]; simpl; [exact Hw|].
  rewrite generate_reading_self. now apply drift_loop_present.
Qed.

(** ** Symbolic execution of [generate_reading] *)

Lemma drift_loop_readings (kinds : list string) :
  forall rs w rs' w',
    drift_loop kinds rs w = (Return rs', w') ->
    (readings_match rs (current_values (self w)) ->
     readings_match rs' (current_values (self w')))
    /\ (forall k, is_Some (rs' !! k)
                  <-> is_Some (rs !! k) \/ (In k kinds /\ is_Some (SENSOR_TYPES !! k))).
Proof.
  induction kinds as [|k kinds IH]; intros rs w rs' w' E; simpl in E.
  - injection E as <- <-. split; [auto|].
    intros k. split; [auto | intros [H|[[] _]]; exact H].
  - unfold bind in E.
    destruct (SENSOR_TYPES !! k) as [c|] eqn:Hc.
    + destruct (current_values (self w) !! k) as [v|] eqn:Hv.
      * rewrite (drift_step_registered k c rs w v Hc Hv) in E.
        apply IH in E. destruct E as [Hm Hdom]. simpl in Hm. split.
        -- intros Hrs. apply Hm. intros k' e He.
           destruct (decide (k = k')) as [->|Hne].
           ++ rewrite lookup_insert_eq in He. injection He as <-.
              now rewrite lookup_insert_eq.
           ++ rewrite lookup_insert_ne in He by assumption.
              rewrite lookup_insert_ne by assumption. now apply Hrs.
        -- intros k'. rewrite Hdom.
           destruct (decide (k = k')) as [->|Hne].
           ++ rewrite lookup_insert_eq. split; intros _.
              ** right. split; [now left | rewrite Hc; eauto].
              ** left. eauto.
           ++ rewrite lookup_insert_ne by assumption. split.
              ** intros [H|[H1 H2]]; [now left|]. right. split; [now right | exact H2].
              ** intros [H|[H1 H2]]; [now left|].
                 destruct H1 as [->|H1]; [contradiction | now right].
      * rewrite (drift_step_missing k c rs w Hc Hv) in E. discriminate.
    + rewrite (drift_step_unregistered k rs w Hc) in E.
      apply IH in E. destruct E as [Hm Hdom]. split; [exact Hm|].
      intros k'. rewrite Hdom. split.
      * intros [H|[H1 H2]]; [now left|]. right. split; [now right | exact H2].
      * intros [H|[H1 H2]]; [now left|].
        destruct H1 as [->|H1]; [|now right].
        rewrite Hc in H2. destruct H2; discriminate.
Qed.

Lemma drift_calls_cons (k : string) (kinds : list string) :
  drift_calls (k :: kinds)
  = match SENSOR_TYPES !! k with
    | Some c => Random.Call_uniform (- cfg_drift_factor c) (cfg_drift_factor c)
                :: drift_calls kinds
    | None => drift_calls kinds
    end.
Proof. unfold drift_calls; simpl. destruct (SENSOR_TYPES !! k); reflexivity. Qed.

(** With a value present for every registered kind the loop runs to its
    end, reading the tape once per registered kind. *)
Lemma drift_loop_returns (kinds : list string) :
  forall rs w,
    values_present kinds (current_values (self w)) ->
    exists rs' w',
      drift_loop kinds rs w = (Return rs', w')
      /\ Random.tape (rng w') = Random.tape (rng w)
      /\ Random.calls (rng w') = (Random.calls (rng w) ++ drift_calls kinds)%list.
Proof.
  induction kinds as [|k kinds IH]; intros rs w Hp.
  - exists rs, w. split; [reflexivity|]. split; [reflexivity|].
    simpl. now rewrite app_nil_r.
  - rewrite drift_calls_cons. simpl drift_loop. unfold bind.
    destruct (SENSOR_TYPES !! k) as [c|] eqn:Hc.
    + destruct (Hp k (or_introl eq_refl)) as [v Hv]; [rewrite Hc; eauto|].
      rewrite (drift_step_registered k c rs w v Hc Hv).
      set (w1 := {| self := _; rng := _ |}).
      destruct (IH (<[k:=mk_sensor_reading (drift_value c v (Random.peek (rng w) 0))
                                           (cfg_unit c)]> rs) w1)
        as (rs' & w' & E & Ht & Hcalls).
      { intros k' Hin Hreg. subst w1; simpl.
        destruct (decide (k = k')) as [->|Hne].
        - rewrite lookup_insert_eq; eauto.
        - rewrite lookup_insert_ne by assumption. apply Hp; [now right | exact Hreg]. }
      exists rs', w'. split; [exact E|]. split; [exact Ht|].
      rewrite Hcalls. subst w1; simpl. now rewrite <- app_assoc.
    + rewrite (drift_step_unregistered k rs w Hc).
      apply IH. intros k' Hin Hreg. apply Hp; [now right | exact Hreg].
Qed.

(** What a returning call went through. *)
Lemma generate_reading_inv (now : string) (w : World) (r : Reading) (w' : World) :
  generate_reading now w = (Return r, w') ->
  exists rs0 w0 st rs1 w1,
    drift_loop (sensor_types (self w)) ∅ w = (Return rs0, w0)
    /\ fst (Random.choices DEVICE_STATUSES STATUS_WEIGHTS (rng w0)) = Some st
    /\ anomaly rs0 {| self := self w0;
                      rng := snd (Random.choices DEVICE_STATUSES STATUS_WEIGHTS (rng w0)) |}
       = (Return rs1, w1)
    /\ r = {| reading_device_id := device_id (self w1);
              timestamp := now;
              location_id := loc_id (location (self w1));
              location_name := loc_name (location (self w1));
              coordinates :=
                {| latitude := lat (location (self w1))
                     + fst (Random.uniform (- (1 # 10000)) (1 # 10000) (rng w1));
                   longitude := lon (location (self w1))
                     + fst (Random.uniform (- (1 # 10000)) (1 # 10000)
                              (snd (Random.uniform (- (1 # 10000)) (1 # 10000) (rng w1)))) |};
              readings := rs1;
              status := st |}
    /\ w' = {| self := self w1;
               rng := snd (Random.uniform (- (1 # 10000)) (1 # 10000)
                             (snd (Random.uniform (- (1 # 10000)) (1 # 10000) (rng w1)))) |}.
Proof.
  unfold generate_reading. unfold bind at 1. unfold get_self at 1.
  unfold bind at 1.
  destruct (drift_loop (sensor_types (self w)) ∅ w) as [[rs0|e] w0]; [|discriminate].
  unfold bind at 1. rewrite rand_eq.
  destruct (fst (Random.choices DEVICE_STATUSES STATUS_WEIGHTS (rng w0))) as [st|] eqn:Hst;
    [|discriminate].
  unfold bind at 1. unfold or_raise at 1. cbv beta iota. unfold ret at 1.
  unfold bind at 1.
  destruct (anomaly rs0 _) as [[rs1|e] w1] eqn:Ha; [|discriminate].
  unfold bind at 1. unfold get_self at 1.
  unfold bind at 1. rewrite rand_eq.
  unfold bind at 1. rewrite rand_eq.
  unfold ret. cbv beta. intros E. injection E as <- <-.
  exists rs0, w0, st, rs1, w1.
  split; [reflexivity|]. split; [exact Hst|]. split; [exact Ha|].
  split; reflexivity.
Qed.

(** ** The status draw and the anomaly block *)

Lemma logged_logged (g : Random.state) (cs cs' : list Random.call) :
  logged (logged g cs) cs' = logged g (cs ++ cs').
Proof. unfold logged; simpl. now rewrite <- app_assoc. Qed.

Lemma random_eq (g : Random.state) :
  Random.random g = (Random.peek g 0, logged g [Random.Call_random]).
Proof. unfold Random.random, Random.next. now rewrite peek_0. Qed.

Lemma uniform_snd (a b : Q) (g : Random.state) :
  snd (Random.uniform a b g) = logged g [Random.Call_uniform a b].
Proof. reflexivity. Qed.

Lemma peek_logged (g : Random.state) (cs : list Random.call) (i : nat) :
  Random.peek (logged g cs) i = Random.peek g (length cs + i).
Proof.
  unfold Random.peek, logged; simpl. rewrite length_app. f_equal. f_equal. lia.
Qed.

Lemma peek_raw_logged (g : Random.state) (cs : list Random.call) (i : nat) :
  Random.peek_raw (logged g cs) i = Random.peek_raw g (length cs + i).
Proof.
  unfold Random.peek_raw, logged; simpl. rewrite length_app. f_equal. lia.
Qed.

Lemma choices_status (g : Random.state) :
  exists st,
    Random.choices DEVICE_STATUSES STATUS_WEIGHTS g
    = (Some st, logged g [Random.Call_choices]).
Proof.
  unfold Random.choices.
  set (cum := Random.accumulate 0 STATUS_WEIGHTS).
  change (negb (length cum =? length DEVICE_STATUSES)%nat) with false. cbv iota.
  change (last cum) with (Some (0 + (95 # 100) + (3 # 100) + (15 # 1000) + (5 # 1000))).
  cbv iota beta.
  destruct (Qlt_le_dec 0 _) as [_|Hbad];
    [|exfalso; revert Hbad; apply Qlt_not_le; reflexivity].
  unfold Random.next.
  set (i := Random.bisect _ _ _).
  assert (Hi : (i < length DEVICE_STATUSES)%nat).
  { pose proof (bisect_le cum
      (Random.unit_of (Random.tape g (length (Random.calls g)))
       * (0 + (95 # 100) + (3 # 100) + (15 # 1000) + (5 # 1000))) 3 eq_refl).
    subst i. simpl length. simpl Nat.sub. lia. }
  destruct (lookup_lt_is_Some_2 _ _ Hi) as [st Hst].
  exists st. now rewrite Hst.
Qed.

Lemma choice_eq {A} (seq : list A) (g : Random.state) :
  seq <> [] ->
  Random.choice seq g
  = (seq !! (N.to_nat (Random.num (Random.peek_raw g 0)) mod length seq)%nat,
     logged g [Random.Call_choice (length seq)]).
Proof.
  destruct seq as [|a seq]; [contradiction|]. intros _.
  unfold Random.choice, Random.next, Random.peek_raw. now rewrite Nat.add_0_r.
Qed.

Section Anomaly.
Variables (rs : gmap string SensorReading) (w : World).
Let kinds := sensor_types (self w).
Let g := rng w.

Lemma anomaly_quiet :
  anomaly_fires g = false ->
  anomaly rs w = (Return rs, {| self := self w; rng := logged g [Random.Call_random] |}).
Proof.
  unfold anomaly_fires, anomaly. intros H.
  unfold bind at 1. rewrite rand_eq, random_eq. cbv beta iota. cbn [fst snd].
  fold g. destruct (Qlt_le_dec (Random.peek g 0) (1 # 100)); [discriminate|].
  reflexivity.
Qed.

Lemma anomaly_empty :
  anomaly_fires g = true -> kinds = [] ->
  anomaly rs w = (Raise IndexError, {| self := self w; rng := logged g [Random.Call_random] |}).
Proof.
  unfold anomaly_fires, anomaly. intros H Hk.
  unfold bind at 1. rewrite rand_eq, random_eq. cbv beta iota. cbn [fst snd].
  fold g. destruct (Qlt_le_dec (Random.peek g 0) (1 # 100)); [|discriminate].
  unfold bind at 1. unfold get_self at 1. cbv beta iota.
  unfold bind at 1. rewrite rand_eq. cbv beta iota. cbn [rng self].
  fold kinds. rewrite Hk. reflexivity.
Qed.

Lemma anomaly_target_In :
  kinds <> [] -> exists k, anomaly_target kinds g = Some k /\ In k kinds.
Proof.
  intros Hne. unfold anomaly_target.
  set (i := (_ mod _)%nat).
  assert (Hi : (i < length kinds)%nat).
  { apply Nat.mod_upper_bound. destruct kinds; [contradiction | simpl; lia]. }
  destruct (lookup_lt_is_Some_2 _ _ Hi) as [k Hk].
  exists k. split; [exact Hk|].
  apply list_elem_of_In. eapply list_elem_of_lookup_2. exact Hk.
Qed.

Lemma anomaly_prefix (k : string) :
  anomaly_fires g = true -> anomaly_target kinds g = Some k ->
  anomaly rs w
  = match rs !! k with
    | Some _ =>
      (let! s := rand Random.random in
       let! cfg := or_raise (KeyError k) (SENSOR_TYPES !! k) in
       if Qlt_le_dec s (1 # 2)
       then ret (set_value k (inject_Z (cfg_max cfg)) rs)
       else ret (set_value k (inject_Z (cfg_min cfg)) rs))
        {| self := self w;
           rng := logged g [Random.Call_random; Random.Call_choice (length kinds)] |}
    | None =>
      (Return rs,
       {| self := self w;
          rng := logged g [Random.Call_random; Random.Call_choice (length kinds)] |})
    end.
Proof.
  unfold anomaly_fires, anomaly_target, anomaly. intros H Hk.
  unfold bind at 1. rewrite rand_eq, random_eq. cbv beta iota. cbn [fst snd].
  fold g. destruct (Qlt_le_dec (Random.peek g 0) (1 # 100)); [|discriminate].
  unfold bind at 1. unfold get_self at 1. cbv beta iota.
  unfold bind at 1. rewrite rand_eq. cbv beta iota. cbn [rng self].
  fold kinds.
  assert (Hne : kinds <> []).
  { intros E. rewrite E, lookup_nil in Hk. discriminate. }
  assert (Hc : Random.choice kinds (logged g [Random.Call_random])
               = (Some k, logged g [Random.Call_random; Random.Call_choice (length kinds)])).
  { rewrite (choice_eq kinds _ Hne), peek_raw_logged, logged_logged.
    simpl length. simpl Nat.add. now rewrite Hk. }
  rewrite Hc. cbn [fst snd].
  unfold bind at 1. unfold or_raise at 1. cbv beta iota. unfold ret at 1.
  destruct (rs !! k); reflexivity.
Qed.

Lemma anomaly_miss (k : string) :
  anomaly_fires g = true -> anomaly_target kinds g = Some k -> rs !! k = None ->
  anomaly rs w
  = (Return rs,
     {| self := self w;
        rng := logged g [Random.Call_random; Random.Call_choice (length kinds)] |}).
Proof. intros H Hk Hrs. rewrite (anomaly_prefix k H Hk), Hrs. reflexivity. Qed.

Lemma anomaly_hit (k : string) (e : SensorReading) (c : SensorConfig) :
  anomaly_fires g = true -> anomaly_target kinds g = Some k ->
  rs !! k = Some e -> SENSOR_TYPES !! k = Some c ->
  anomaly rs w
  = (Return (set_value k (inject_Z (anomaly_extreme c g)) rs),
     {| self := self w;
        rng := logged g [Random.Call_random; Random.Call_choice (length kinds);
                         Random.Call_random] |}).
Proof.
  intros H Hk Hrs Hc. rewrite (anomaly_prefix k H Hk), Hrs.
  unfold bind at 1. rewrite rand_eq, random_eq. cbn [fst snd].
  cbn [rng self]. rewrite peek_logged, logged_logged. simpl length. simpl Nat.add.
  unfold bind at 1. rewrite Hc. unfold or_raise, ret at 1. cbv beta iota.
  unfold anomaly_extreme.
  destruct (Qlt_le_dec (Random.peek g 2) (1 # 2)); reflexivity.
Qed.

End Anomaly.

Lemma anomaly_run (rs : gmap string SensorReading) (w : World) :
  sensor_types (self w) <> [] ->
  (forall k, is_Some (rs !! k)
             <-> In k (sensor_types (self w)) /\ is_Some (SENSOR_TYPES !! k)) ->
  anomaly rs w
  = (Return (anomaly_readings (sensor_types (self w)) (rng w) rs),
     {| self := self w;
        rng := logged (rng w) (anomaly_calls (sensor_types (self w)) (rng w)) |}).
Proof.
  intros Hne Hdom. unfold anomaly_readings, anomaly_calls.
  destruct (anomaly_fires (rng w)) eqn:Hf; [|now apply anomaly_quiet].
  destruct (anomaly_target_In w Hne) as (k & Hk & Hin). rewrite Hk.
  destruct (SENSOR_TYPES !! k) as [c|] eqn:Hc.
  - destruct (proj2 (Hdom k)) as [e He]; [rewrite Hc; eauto|].
    now apply (anomaly_hit rs w k e c).
  - apply (anomaly_miss rs w k Hf Hk).
    destruct (rs !! k) eqn:Hrs; [|reflexivity].
    destruct (proj1 (Hdom k)) as [_ [? H]]; [eauto|]. rewrite Hc in H. discriminate.
Qed.

Lemma rng_logged (g g' : Random.state) (cs : list Random.call) :
  Random.tape g' = Random.tape g -> Random.calls g' = (Random.calls g ++ cs)%list ->
  g' = logged g cs.
Proof. destruct g'; simpl; intros -> ->. reflexivity. Qed.

(** A call on a well-formed device returns; the object it leaves is the
    one the drift loop left, the calls it made are [call_trace], and the
    readings of the record are those of the loop passed through the
    anomaly block. *)
Lemma generate_reading_run (now : string) (w : World) :
  device_ok (self w) ->
  exists rs0 w0 r,
    drift_loop (sensor_types (self w)) ∅ w = (Return rs0, w0)
    /\ generate_reading now w
       = (Return r, {| self := self w0; rng := logged (rng w) (call_trace w) |})
    /\ readings r = anomaly_readings (sensor_types (self w)) (anomaly_rng w) rs0
    /\ reading_device_id r = device_id (self w)
    /\ location_id r = loc_id (location (self w))
    /\ location_name r = loc_name (location (self w))
    /\ timestamp r = now.
Proof.
  intros [Hne Hp].
  destruct (drift_loop_returns _ ∅ w Hp) as (rs0 & w0 & E & Ht & Hc).
  pose proof (rng_logged _ _ _ Ht Hc) as Hg0.
  destruct (drift_loop_readings _ _ _ _ _ E) as [_ Hdom].
  pose proof (drift_loop_identity (sensor_types (self w)) ∅ w) as Hid.
  rewrite E in Hid. simpl in Hid. destruct Hid as (Hid1 & Hid2 & Hid3).
  destruct (choices_status (rng w0)) as [st Hst].
  set (wa := {| self := self w0; rng := anomaly_rng w |}).
  assert (Ha : anomaly rs0 wa
               = (Return (anomaly_readings (sensor_types (self w)) (anomaly_rng w) rs0),
                  {| self := self w0;
                     rng := logged (anomaly_rng w)
                              (anomaly_calls (sensor_types (self w)) (anomaly_rng w)) |})).
  { generalize (anomaly_run rs0 wa). subst wa. cbn [self rng]. rewrite Hid3.
    intros H. apply H; [exact Hne|].
    intros k. rewrite Hdom, lookup_empty. split.
    - intros [[? H']|H']; [discriminate | exact H'].
    - auto. }
  eexists rs0, w0, _. split; [exact E|].
  unfold generate_reading. unfold bind at 1. unfold get_self at 1.
  unfold bind at 1. rewrite E.
  unfold bind at 1. rewrite rand_eq, Hst. cbn [fst snd].
  unfold bind at 1. unfold or_raise at 1. cbv beta iota. unfold ret at 1.
  rewrite Hg0, logged_logged. fold (anomaly_rng w). fold wa.
  unfold bind at 1. rewrite Ha.
  unfold bind at 1. unfold get_self at 1.
  unfold bind at 1. rewrite rand_eq.
  unfold bind at 1. rewrite rand_eq.
  unfold ret. cbn [fst snd self rng].
  rewrite !uniform_snd. fold jitter_call.
  assert (Hfinal :
    logged (logged (logged (anomaly_rng w)
                      (anomaly_calls (sensor_types (self w)) (anomaly_rng w)))
              [jitter_call]) [jitter_call]
    = logged (rng w) (call_trace w)).
  { unfold anomaly_rng, call_trace. rewrite !logged_logged, <- !app_assoc.
    reflexivity. }
  rewrite Hfinal. split; [reflexivity|].
  cbn [readings reading_device_id location_id location_name timestamp].
  rewrite Hid1, Hid2. repeat split.
Qed.

Lemma anomaly_inv (rs : gmap string SensorReading) (w : World)
    (rs' : gmap string SensorReading) (w' : World) :
  anomaly rs w = (Return rs', w') ->
  self w' = self w
  /\ (rs' = rs
      \/ exists k e c,
           anomaly_fires (rng w) = true
           /\ anomaly_target (sensor_types (self w)) (rng w) = Some k
           /\ rs !! k = Some e /\ SENSOR_TYPES !! k = Some c
           /\ rs' = set_value k (inject_Z (anomaly_extreme c (rng w))) rs).
Proof.
  intros E. split.
  - pose proof (anomaly_preserves_self (self w) rs w eq_refl) as H.
    now rewrite E in H.
  - destruct (anomaly_fires (rng w)) eqn:Hf.
    + destruct (sensor_types (self w)) as [|k0 ks] eqn:Hk.
      * rewrite (anomaly_empty rs w Hf Hk) in E. discriminate.
      * destruct (anomaly_target_In w) as (k & Hk' & _); [rewrite Hk; discriminate|].
        rewrite Hk in Hk'.
        pose proof (anomaly_prefix rs w k Hf) as Hp. rewrite Hk in Hp.
        specialize (Hp Hk'). rewrite Hp in E.
        destruct (rs !! k) as [e|] eqn:He.
        -- destruct (SENSOR_TYPES !! k) as [c|] eqn:Hc.
           ++ right. exists k, e, c. rewrite <- Hp in E.
              pose proof (anomaly_hit rs w k e c Hf) as Hh. rewrite Hk in Hh.
              rewrite (Hh Hk' He Hc) in E. injection E as <- _.
              repeat split; auto.
           ++ unfold bind at 1 in E. rewrite rand_eq in E.
              unfold bind at 1 in E. discriminate.
        -- left. now injection E as <- _.
    + rewrite (anomaly_quiet rs w Hf) in E. left. now injection E as <- _.
Qed.

(** * The claims *)

(** C1 — Bounds invariant.  Creation always yields a device, and after any
    number of [generate_reading] calls on it (whatever the tape holds:
    ordinary ticks, decay ticks and anomaly branches alike) every kind the
    device supports that is registered has a persisted value, and that
    value lies within the kind's [[min, max]], inclusive. *)
Theorem bounds_invariant (id : string) (loc : Location) (kinds : list string)
    (g : Random.state) (clock : nat -> string) (n : nat) :
  exists d g',
    SensorDevice_init id loc kinds g = (Return d, g')
    /\ forall k c, In k kinds -> SENSOR_TYPES !! k = Some c ->
       exists v,
         current_values (self (ticks clock n (mk_world d g'))) !! k = Some v
         /\ inject_Z (cfg_min c) <= v <= inject_Z (cfg_max c).
Proof.
  destruct (SensorDevice_init_spec id loc kinds g)
    as (d & g' & E & _ & _ & Hk & Hr & Hdom).
  exists d, g'. split; [exact E|]. intros k c Hin Hc.
  assert (Hp : values_present kinds (current_values (self (mk_world d g')))).
  { intros k' Hin' Hreg. apply Hdom. auto. }
  destruct (ticks_present clock kinds n _ Hp k Hin) as [v Hv]; [rewrite Hc; eauto|].
  exists v. split; [exact Hv|].
  exact (ticks_in_range clock n (mk_world d g') Hr k c v Hc Hv).
Qed.

(** C8 — Frame.  A call of [generate_reading] leaves the device's id, its
    list of sensor kinds and its Location (base latitude and longitude
    included) as they were: only [current_values] can change.  The jitter
    shows in the returned record alone, whose coordinates stay within
    0.0001 of the unchanged base coordinates. *)
Theorem generate_reading_frame (now : string) (w : World) :
  same_identity (self w) (self (snd (generate_reading now w)))
  /\ match fst (generate_reading now w) with
     | Return r =>
       Qabs (latitude (coordinates r) - lat (location (self w))) <= 1 # 10000
       /\ Qabs (longitude (coordinates r) - lon (location (self w))) <= 1 # 10000
     | Raise _ => True
     end.
Proof.
  split.
  - rewrite generate_reading_self. apply drift_loop_identity.
  - destruct (generate_reading now w) as [[r|e] w'] eqn:E; [|exact I].
    destruct (generate_reading_inv now w r w' E)
      as (rs0 & w0 & st & rs1 & w1 & E0 & _ & Ea & -> & _).
    destruct (anomaly_inv _ _ _ _ Ea) as [Hs _]. simpl in Hs.
    pose proof (drift_loop_identity (sensor_types (self w)) ∅ w) as Hid.
    rewrite E0 in Hid. destruct Hid as (_ & Hloc & _). simpl in Hloc.
    cbn [fst coordinates latitude longitude]. rewrite Hs, Hloc.
    assert (Hj : - (1 # 10000) <= 1 # 10000) by discriminate.
    split; apply Qabs_Qle_condition.
    + pose proof (uniform_range _ _ (rng w1) Hj) as [? ?]. split; lra.
    + pose proof (uniform_range _ _
        (snd (Random.uniform (- (1 # 10000)) (1 # 10000) (rng w1))) Hj) as [? ?].
      split; lra.
Qed.

Lemma readings_match_empty (cv : gmap string Q) : readings_match ∅ cv.
Proof. intros k e H. rewrite lookup_empty in H. discriminate. Qed.

Lemma anomaly_extreme_cases (c : SensorConfig) (g : Random.state) :
  anomaly_extreme c g = cfg_max c \/ anomaly_extreme c g = cfg_min c.
Proof. unfold anomaly_extreme. destruct (Qlt_le_dec _ _); auto. Qed.

(** C10 — Reading-only anomaly policy.  The object a call leaves is the
    one its drift loop left: the anomaly block writes nothing to it.  In
    the record returned, every reported kind has a persisted value, and
    the reported value either is that persisted, drift-updated value or is
    an extreme of the kind's range put in by the override, the persisted
    value staying what the drift step made it. *)
Theorem anomaly_reading_only (now : string) (w : World) :
  self (snd (generate_reading now w))
  = self (snd (drift_loop (sensor_types (self w)) ∅ w))
  /\ match generate_reading now w with
     | (Return r, w') =>
       forall k e, readings r !! k = Some e ->
         exists v, current_values (self w') !! k = Some v
           /\ (value e = v
               \/ exists c, SENSOR_TYPES !! k = Some c
                    /\ (value e = inject_Z (cfg_max c)
                        \/ value e = inject_Z (cfg_min c)))
     | (Raise _, _) => True
     end.
Proof.
  split; [apply generate_reading_self|].
  destruct (generate_reading now w) as [[r|e] w'] eqn:E; [|exact I].
  destruct (generate_reading_inv now w r w' E)
    as (rs0 & w0 & st & rs1 & w1 & E0 & _ & Ea & -> & ->).
  destruct (drift_loop_readings _ _ _ _ _ E0) as [Hm _].
  specialize (Hm (readings_match_empty _)).
  destruct (anomaly_inv _ _ _ _ Ea) as [Hs Hcase]. cbn [self rng] in Hs, Hcase.
  cbn [readings self]. rewrite Hs. intros k e He.
  destruct Hcase as [->|(k0 & e0 & c & _ & _ & He0 & Hc & ->)].
  - exists (value e). split; [now apply Hm | now left].
  - unfold set_value in He. destruct (decide (k0 = k)) as [->|Hne].
    + rewrite lookup_alter_eq, He0 in He. injection He as <-.
      exists (value e0). split; [now apply Hm|]. right. exists c.
      split; [exact Hc|]. cbn [value].
      match goal with
      | |- context [anomaly_extreme c ?g0] =>
        destruct (anomaly_extreme_cases c g0) as [-> | ->]; auto
      end.
    + rewrite lookup_alter_ne in He by assumption.
      exists (value e). split; [now apply Hm | now left].
Qed.

(** C3 — Anomaly override.  On a device with at least one kind, all of them
    registered, a call returns a record.  When the anomaly draw is below
    1/100 the kind picked by the next draw reports an extreme of its range
    (its max when the draw after that is below 1/2, its min otherwise) and
    every other kind reports its persisted value; when the anomaly draw is
    not below 1/100 every kind reports its persisted value. *)
Theorem anomaly_override (now : string) (w : World) :
  device_ok (self w) ->
  (forall k, In k (sensor_types (self w)) -> is_Some (SENSOR_TYPES !! k)) ->
  exists r w',
    generate_reading now w = (Return r, w')
    /\ if anomaly_fires (anomaly_rng w) then
         exists k c e,
           anomaly_target (sensor_types (self w)) (anomaly_rng w) = Some k
           /\ In k (sensor_types (self w))
           /\ SENSOR_TYPES !! k = Some c
           /\ readings r !! k = Some e
           /\ value e = inject_Z (anomaly_extreme c (anomaly_rng w))
           /\ forall k', k' <> k -> In k' (sensor_types (self w)) ->
                value <$> readings r !! k' = current_values (self w') !! k'
       else
         forall k, In k (sensor_types (self w)) ->
           value <$> readings r !! k = current_values (self w') !! k.
Proof.
  intros Hok Hreg.
  destruct (generate_reading_run now w Hok) as (rs0 & w0 & r & E0 & E & Hr & _).
  destruct (drift_loop_readings _ _ _ _ _ E0) as [Hm Hdom].
  specialize (Hm (readings_match_empty _)).
  assert (Hrep : forall k, In k (sensor_types (self w)) ->
                   exists e, rs0 !! k = Some e
                             /\ current_values (self w0) !! k = Some (value e)).
  { intros k Hin. destruct (proj2 (Hdom k)) as [e He]; [right; auto|].
    exists e. split; [exact He | now apply Hm]. }
  eexists r, _. split; [exact E|]. cbn [self]. rewrite Hr.
  unfold anomaly_readings.
  destruct (anomaly_fires (anomaly_rng w)) eqn:Hf.
  - destruct (anomaly_target_In {| self := self w; rng := anomaly_rng w |} (proj1 Hok))
      as (k & Hk & Hin). cbn [self rng] in Hk, Hin. rewrite Hk.
    destruct (Hreg k Hin) as [c Hc]. rewrite Hc.
    destruct (Hrep k Hin) as (e0 & He0 & _).
    exists k, c, (mk_sensor_reading (inject_Z (anomaly_extreme c (anomaly_rng w))) (unit_ e0)).
    split; [reflexivity|]. split; [exact Hin|]. split; [exact Hc|]. split.
    { unfold set_value. now rewrite lookup_alter_eq, He0. }
    split; [reflexivity|].
    intros k' Hne Hin'. unfold set_value.
    rewrite lookup_alter_ne by congruence.
    destruct (Hrep k' Hin') as (e & He & Hv). now rewrite He, Hv.
  - intros k Hin. destruct (Hrep k Hin) as (e & He & Hv). now rewrite He, Hv.
Qed.

(** C6, as amended — Pseudorandom draw trace.  A call on a well-formed
    device returns after exactly the calls of [call_trace], in that order:
    one drift draw per registered kind, then the status draw, then the
    anomaly draw, then (only when the anomaly fires) the choice of a kind
    and (only when that kind has a reading) the spike-or-drop draw, then
    the two jitter draws. *)
Theorem draw_trace (now : string) (w : World) :
  device_ok (self w) ->
  exists r w',
    generate_reading now w = (Return r, w')
    /\ Random.tape (rng w') = Random.tape (rng w)
    /\ Random.calls (rng w') = (Random.calls (rng w) ++ call_trace w)%list.
Proof.
  intros Hok.
  destruct (generate_reading_run now w Hok) as (rs0 & w0 & r & _ & E & _).
  eexists r, _. split; [exact E|]. split; reflexivity.
Qed.

Lemma ticks_device_ok (clock : nat -> string) (n : nat) (w : World) :
  device_ok (self w) -> device_ok (self (ticks clock n w)).
Proof.
  intros [Hne Hp]. destruct (ticks_identity clock n w) as (_ & _ & Hk).
  split; rewrite Hk; [exact Hne | now apply ticks_present].
Qed.

(** C4, as amended — Permissive creation.  Creation never fails: kinds
    absent from the registry are skipped, the device keeps the list as
    given and holds a value for exactly the registered kinds of it.  When
    the list is not empty, every later [generate_reading] call returns a
    record: an unrecognized kind raises nothing at tick time either. *)
Theorem creation_is_permissive (id : string) (loc : Location) (kinds : list string)
    (g : Random.state) (clock : nat -> string) (n : nat) (now : string) :
  kinds <> [] ->
  exists d g',
    SensorDevice_init id loc kinds g = (Return d, g')
    /\ sensor_types d = kinds
    /\ (forall k, is_Some (current_values d !! k)
                  <-> In k kinds /\ is_Some (SENSOR_TYPES !! k))
    /\ exists r w',
         generate_reading now (ticks clock n (mk_world d g')) = (Return r, w').
Proof.
  intros Hne.
  destruct (SensorDevice_init_spec id loc kinds g)
    as (d & g' & E & _ & _ & Hk & _ & Hdom).
  exists d, g'. split; [exact E|]. split; [exact Hk|]. split; [exact Hdom|].
  assert (Hok : device_ok (self (mk_world d g'))).
  { split; cbn [self]; rewrite Hk; [exact Hne|].
    intros k Hin Hreg. apply Hdom. auto. }
  destruct (generate_reading_run now _ (ticks_device_ok clock n _ Hok))
    as (_ & w0 & r & _ & E' & _).
  eexists r, _. exact E'.
Qed.

Lemma battery_device_ok : device_ok battery_device.
Proof.
  split; [discriminate|].
  intros k [<-|[]] _. vm_compute. eauto.
Qed.

Lemma battery_device_registered (k : string) :
  In k (sensor_types battery_device) -> is_Some (SENSOR_TYPES !! k).
Proof. intros [<-|[]]. vm_compute. eauto. Qed.

(** The battery device on the anomaly tape meets the conditions of C3. *)
Lemma anomaly_override_witness :
  device_ok (self anomaly_world)
  /\ (forall k, In k (sensor_types (self anomaly_world)) -> is_Some (SENSOR_TYPES !! k))
  /\ exists r w', generate_reading (epoch 0) anomaly_world = (Return r, w').
Proof.
  split; [exact battery_device_ok|]. split; [exact battery_device_registered|].
  destruct (anomaly_override (epoch 0) anomaly_world battery_device_ok
              battery_device_registered) as (r & w' & E & _).
  exists r, w'. exact E.
Defined.

(** On [anomaly_world] the anomaly fires and picks the battery: the record
    reports the maximum 100 while 80 stays persisted. *)
Example anomaly_world_run :
  match generate_reading (epoch 0) anomaly_world with
  | (Return r, w') =>
    anomaly_fires (anomaly_rng anomaly_world) = true
    /\ (value <$> readings r !! "battery_level") = Some (inject_Z 100)
    /\ current_values (self w') !! "battery_level" = Some (inject_Z 80)
    /\ Random.calls (rng w')
       = [Random.Call_uniform (-1 # 10) (1 # 10); Random.Call_choices;
          Random.Call_random; Random.Call_choice 1; Random.Call_random;
          Random.Call_uniform (-1 # 10000) (1 # 10000);
          Random.Call_uniform (-1 # 10000) (1 # 10000)]
  | (Raise _, _) => False
  end.
Proof. vm_compute. repeat split. Qed.

(** C6, as stated, fails: on the battery device with no anomaly the status
    draw ([Call_choices]) comes before the anomaly draw ([Call_random]),
    not after it. *)
Lemma draw_order_counterexample :
  match generate_reading (epoch 0) battery_world with
  | (Return r, w') =>
    Random.calls (rng w')
    = [Random.Call_uniform (-1 # 10) (1 # 10); Random.Call_choices;
       Random.Call_random;
       Random.Call_uniform (-1 # 10000) (1 # 10000);
       Random.Call_uniform (-1 # 10000) (1 # 10000)]
    /\ Random.calls (rng w')
       <> (Random.calls (rng battery_world) ++ claimed_trace battery_world)%list
  | (Raise _, _) => False
  end.
Proof. vm_compute. split; [reflexivity | discriminate]. Qed.

(** The battery device on the steady tape meets the condition of C6. *)
Lemma draw_trace_witness :
  device_ok (self battery_world)
  /\ exists r w',
       generate_reading (epoch 0) battery_world = (Return r, w')
       /\ Random.tape (rng w') = Random.tape (rng battery_world)
       /\ Random.calls (rng w')
          = (Random.calls (rng battery_world) ++ call_trace battery_world)%list.
Proof.
  split; [exact battery_device_ok|].
  exact (draw_trace (epoch 0) battery_world battery_device_ok).
Defined.

(** C4, as stated, fails: a list naming the unregistered kind ["co2"]
    still builds a device, which keeps the list and holds no value for
    that kind. *)
Lemma creation_counterexample :
  SENSOR_TYPES !! "co2" = None
  /\ match SensorDevice_init "device_0002" warehouse_a ["temperature"; "co2"] steady_rng with
     | (Return d, _) =>
       sensor_types d = ["temperature"; "co2"] /\ current_values d !! "co2" = None
     | (Raise _, _) => False
     end.
Proof. vm_compute. repeat split. Qed.

(** A list with an unregistered kind, followed over three calls. *)
Lemma creation_is_permissive_witness :
  ["temperature"; "co2"] <> []
  /\ exists d g',
       SensorDevice_init "device_0002" warehouse_a ["temperature"; "co2"] steady_rng
       = (Return d, g')
       /\ sensor_types d = ["temperature"; "co2"]
       /\ (forall k, is_Some (current_values d !! k)
                     <-> In k ["temperature"; "co2"] /\ is_Some (SENSOR_TYPES !! k))
       /\ exists r w',
            generate_reading (epoch 2) (ticks epoch 2 (mk_world d g')) = (Return r, w').
Proof.
  split; [discriminate|].
  apply (creation_is_permissive "device_0002" warehouse_a ["temperature"; "co2"]
           steady_rng epoch 2 (epoch 2)).
  discriminate.
Defined.

(** ** Decaying kinds *)

Lemma registry_decay_battery (k : string) (c : SensorConfig) :
  SENSOR_TYPES !! k = Some c -> get_decay c = true ->
  cfg_min c = 0%Z /\ cfg_max c = 100%Z /\ cfg_precision c = O.
Proof.
  revert k c.
  change (map_Forall (fun _ c => get_decay c = true ->
            cfg_min c = 0%Z /\ cfg_max c = 100%Z /\ cfg_precision c = O) SENSOR_TYPES).
  unfold SENSOR_TYPES; simpl.
  repeat (apply map_Forall_insert_2; [try discriminate|]);
    try apply map_Forall_empty.
  intros _. repeat split.
Qed.

Lemma settled_comp (c : SensorConfig) (v v' : Q) :
  v' == v -> settled c v -> settled c v'.
Proof.
  intros E [[n Hn] Hr]. split.
  - exists n. now rewrite E.
  - rewrite E. exact Hr.
Qed.

Section Decay.
Variables (k : string) (c : SensorConfig).
Hypothesis registered : SENSOR_TYPES !! k = Some c.
Hypothesis decaying : get_decay c = true.

(** One update of any kind keeps a settled value of the decaying kind. *)
Lemma update_keeps_settled (B : Q) (k1 : string) (c1 : SensorConfig) (v1 u : Q)
    (d : SensorDevice) :
  SENSOR_TYPES !! k1 = Some c1 -> current_values d !! k1 = Some v1 ->
  0 <= u -> u < 1 ->
  (exists v, current_values d !! k = Some v /\ settled c v /\ v == B) ->
  exists v, current_values (with_values d (<[k1 := drift_value c1 v1 u]> (current_values d))) !! k
            = Some v /\ settled c v /\ v == B.
Proof.
  intros Hc1 Hv1 Hlo Hhi (v & Hv & Hs & HB). cbn [with_values current_values].
  destruct (decide (k1 = k)) as [->|Hne].
  - rewrite lookup_insert_eq.
    rewrite registered in Hc1. injection Hc1 as <-.
    rewrite Hv in Hv1. injection Hv1 as <-.
    pose proof (drift_value_decay_fixed k c registered v u decaying Hs Hlo Hhi) as E.
    exists (drift_value c v u). split; [reflexivity|]. split.
    + exact (settled_comp c v _ E Hs).
    + now rewrite E.
  - rewrite lookup_insert_ne by assumption. exists v. auto.
Qed.

Lemma drift_loop_decay_fixed (B : Q) (kinds : list string)
    (rs : gmap string SensorReading) (w : World) :
  (exists v, current_values (self w) !! k = Some v /\ settled c v /\ v == B) ->
  exists v, current_values (self (snd (drift_loop kinds rs w))) !! k = Some v
            /\ settled c v /\ v == B.
Proof.
  apply (drift_loop_preserves
           (fun d => exists v, current_values d !! k = Some v /\ settled c v /\ v == B)).
  intros k1 c1 v1 u d. apply update_keeps_settled.
Qed.

Lemma tick_decay_fixed (B : Q) (now : string) (w : World) :
  (exists v, current_values (self w) !! k = Some v /\ settled c v /\ v == B) ->
  exists v, current_values (self (snd (generate_reading now w))) !! k = Some v
            /\ settled c v /\ v == B.
Proof. rewrite generate_reading_self. apply drift_loop_decay_fixed. Qed.

Lemma ticks_decay_fixed (B : Q) (clock : nat -> string) (n : nat) (w : World) :
  (exists v, current_values (self w) !! k = Some v /\ settled c v /\ v == B) ->
  exists v, current_values (self (ticks clock n w)) !! k = Some v
            /\ settled c v /\ v == B.
Proof.
  intros H. induction n as [|n IH]; [exact H|]. simpl.
  now apply tick_decay_fixed.
Qed.

(** When the loop visits the decaying kind, the value it leaves is
    settled and at most the rounded previous value. *)
Lemma drift_loop_decay_settles (kinds : list string) :
  forall rs w v,
    In k kinds ->
    values_present kinds (current_values (self w)) ->
    current_values (self w) !! k = Some v ->
    inject_Z (cfg_min c) <= v <= inject_Z (cfg_max c) ->
    exists v', current_values (self (snd (drift_loop kinds rs w))) !! k = Some v'
               /\ settled c v'
               /\ v' <= Num.py_round v (cfg_precision c).
Proof.
  induction kinds as [|k0 kinds IH]; intros rs w v Hin Hp Hv Hr; [destruct Hin|].
  simpl drift_loop. unfold bind.
  destruct (unit_of_range (Random.tape (rng w) (length (Random.calls (rng w)))))
    as [Hlo Hhi]. rewrite <- peek_0 in Hlo, Hhi.
  destruct (decide (k0 = k)) as [->|Hne].
  - rewrite (drift_step_registered k c rs w v registered Hv).
    set (nv := drift_value c v (Random.peek (rng w) 0)).
    set (w1 := {| self := _; rng := _ |}).
    destruct (drift_loop_decay_fixed nv kinds
                (<[k:=mk_sensor_reading nv (cfg_unit c)]> rs) w1)
      as (v' & Hv' & Hs' & E').
    { exists nv. subst w1; cbn [self with_values current_values].
      rewrite lookup_insert_eq. split; [reflexivity|].
      split; [apply (drift_value_settled k c registered) | reflexivity]. }
    exists v'. split; [exact Hv'|]. split; [exact Hs'|].
    rewrite E'. now apply (drift_value_decay_le k c registered).
  - destruct Hin as [->|Hin]; [contradiction|].
    assert (Hp' : values_present kinds (current_values (self w))).
    { intros k' Hin' Hreg. apply Hp; [now right | exact Hreg]. }
    destruct (SENSOR_TYPES !! k0) as [c0|] eqn:Hc0.
    + destruct (Hp k0 (or_introl eq_refl)) as [v0 Hv0]; [rewrite Hc0; eauto|].
      rewrite (drift_step_registered k0 c0 rs w v0 Hc0 Hv0).
      apply IH; cbn [self with_values current_values]; auto.
      * intros k' Hin' Hreg. destruct (decide (k0 = k')) as [->|Hne'].
        -- rewrite lookup_insert_eq; eauto.
        -- rewrite lookup_insert_ne by assumption. now apply Hp'.
      * now rewrite lookup_insert_ne.
    + rewrite (drift_step_unregistered k0 rs w Hc0). now apply IH.
Qed.

End Decay.

(** C7 — Absorbing minimum for decay kinds.  For a decay-flagged kind whose
    persisted value is at the profile minimum or at 80, after any number of
    further calls the value after the next call is at most the value
    before it, a value at the minimum is at the minimum after the call too,
    and from the minimum every later value is the minimum, whatever the
    tape holds. *)
Theorem decay_minimum_absorbing (clock : nat -> string) (w : World) (k : string)
    (c : SensorConfig) (v : Q) (n : nat) :
  SENSOR_TYPES !! k = Some c -> get_decay c = true ->
  current_values (self w) !! k = Some v ->
  v == inject_Z (cfg_min c) \/ v == 80 ->
  exists a b,
    current_values (self (ticks clock n w)) !! k = Some a
    /\ current_values (self (ticks clock (S n) w)) !! k = Some b
    /\ b <= a
    /\ (a == inject_Z (cfg_min c) -> b == inject_Z (cfg_min c))
    /\ (v == inject_Z (cfg_min c) -> a == inject_Z (cfg_min c)).
Proof.
  intros Hc Hd Hv Hstart.
  destruct (registry_decay_battery k c Hc Hd) as (Hmin & Hmax & Hp).
  assert (Hs : settled c v).
  { unfold settled. rewrite Hmin, Hmax, Hp. simpl Num.pow10.
    rewrite Hmin in Hstart. destruct Hstart as [E|E].
    - split; [exists 0%Z; exact E | rewrite E; split; discriminate].
    - split; [exists 80%Z; exact E | rewrite E; split; discriminate]. }
  assert (H0 : exists v', current_values (self w) !! k = Some v' /\ settled c v' /\ v' == v).
  { exists v. split; [exact Hv|]. split; [exact Hs | reflexivity]. }
  destruct (ticks_decay_fixed k c Hc Hd v clock n w H0) as (a & Ha & _ & Ea).
  destruct (ticks_decay_fixed k c Hc Hd v clock (S n) w H0) as (b & Hb & _ & Eb).
  exists a, b. split; [exact Ha|]. split; [exact Hb|]. split; [|split].
  - rewrite Ea, Eb. apply Qle_refl.
  - intros E. now rewrite Eb, <- Ea.
  - intros E. now rewrite Ea.
Qed.

(** The battery device started at 80, between its third and fourth call. *)
Lemma decay_minimum_absorbing_witness :
  SENSOR_TYPES !! "battery_level"
  = Some (mk_config "%" 0 100 0 (1 # 10) (Some true))
  /\ current_values (self battery_world) !! "battery_level" = Some 80
  /\ exists a b,
       current_values (self (ticks epoch 3 battery_world)) !! "battery_level" = Some a
       /\ current_values (self (ticks epoch 4 battery_world)) !! "battery_level" = Some b
       /\ b <= a
       /\ (a == 0 -> b == 0)
       /\ (80 == 0 -> a == 0).
Proof.
  split; [reflexivity|]. split; [reflexivity|].
  apply (decay_minimum_absorbing epoch battery_world "battery_level"
           (mk_config "%" 0 100 0 (1 # 10) (Some true)) 80 3);
    [reflexivity | reflexivity | reflexivity | right; reflexivity].
Defined.

(** C2 — where the code departs from the claim.  The comments of
    [generate_reading] say that battery levels should slowly decrease over
    time, and the drift of a decaying kind is forced negative; but the
    value is rounded to the kind's precision after the drift is added.  A
    battery created at the unrounded 79.7 and drifting by -0.05, with no
    anomaly, has 80 persisted by its first call, above the value before
    the call; and whatever the later draws, every later call persists 80
    again: the level has risen and never decays. *)
Theorem decay_first_call_counterexample :
  match SensorDevice_init "device_0001" warehouse_a ["battery_level"]
          (Random.mk_state battery_tape []) with
  | (Return d, g) =>
    match generate_reading (epoch 0) (mk_world d g) with
    | (Return r, w') =>
      anomaly_fires (anomaly_rng (mk_world d g)) = false
      /\ exists v0 v1,
           current_values d !! "battery_level" = Some v0
           /\ current_values (self w') !! "battery_level" = Some v1
           /\ v0 == 797 # 10 /\ v1 == 80 /\ ~ v1 <= v0
           /\ forall (tape : nat -> Random.draw) (n : nat),
                exists vn,
                  current_values
                    (self (ticks epoch n
                             (mk_world (self w')
                                (Random.mk_state tape (Random.calls (rng w'))))))
                    !! "battery_level" = Some vn
                  /\ vn == 80
    | (Raise _, _) => False
    end
  | (Raise _, _) => False
  end.
Proof.
  remember (SensorDevice_init "device_0001" warehouse_a ["battery_level"]
              (Random.mk_state battery_tape [])) as created eqn:E.
  vm_compute in E. subst created. cbv beta iota.
  match goal with
  | |- match generate_reading ?now ?w with _ => _ end =>
    remember (generate_reading now w) as called eqn:C;
    assert (A : anomaly_fires (anomaly_rng w) = false) by (vm_compute; reflexivity)
  end.
  vm_compute in C. subst called. cbv beta iota.
  split; [exact A|].
  eexists _, _. split; [reflexivity|]. split; [reflexivity|].
  split; [reflexivity|]. split; [reflexivity|].
  split; [intros H; now apply H|].
  intros tape n.
  destruct (ticks_decay_fixed "battery_level" (mk_config "%" 0 100 0 (1 # 10) (Some true))
              eq_refl eq_refl 80 epoch n
              (mk_world
                 (mk_device "device_0001" warehouse_a ["battery_level"]
                    {["battery_level" := 80]})
                 (Random.mk_state tape
                    [Random.Call_uniform 0 100; Random.Call_uniform (- (1 # 10)) (1 # 10);
                     Random.Call_choices; Random.Call_random;
                     jitter_call; jitter_call])))
    as (vn & Hvn & _ & En).
  - exists 80. split; [reflexivity|]. split; [|reflexivity].
    split; [exists 80%Z; reflexivity | split; discriminate].
  - exists vn. split; [|exact En]. exact Hvn.
Qed.

(** ** The batch *)

Lemma generate_reading_ids (now : string) (w : World) (r : Reading) (w' : World) :
  generate_reading now w = (Return r, w') ->
  reading_device_id r = device_id (self w)
  /\ device_id (self w') = device_id (self w).
Proof.
  intros E.
  destruct (generate_reading_inv now w r w' E)
    as (rs0 & w0 & st & rs1 & w1 & E0 & _ & Ea & -> & ->).
  destruct (anomaly_inv _ _ _ _ Ea) as [Hs _]. cbn [self] in Hs.
  pose proof (drift_loop_identity (sensor_types (self w)) ∅ w) as Hid.
  rewrite E0 in Hid. destruct Hid as (Hid & _). cbn [snd] in Hid.
  cbn [reading_device_id self]. rewrite Hs. auto.
Qed.

Lemma batch_loop_cons (clock : nat -> string) (i : nat) (device : SensorDevice)
    (rest : list SensorDevice) (readings : list Reading) (g : Random.state) :
  batch_loop clock i (device :: rest) readings g
  = let '(u, g1) := Random.random g in
    if Qlt_le_dec u (98 # 100) then
      match generate_reading (clock i) {| self := device; rng := g1 |} with
      | (Return r, w) =>
        let '(o, (rest', g')) :=
          batch_loop clock (S i) rest (readings ++ [r]) (rng w) in
        (o, (self w :: rest', g'))
      | (Raise e, w) => (Raise e, (self w :: rest, rng w))
      end
    else
      let '(o, (rest', g')) := batch_loop clock (S i) rest readings g1 in
      (o, (device :: rest', g')).
Proof. reflexivity. Qed.

Lemma batch_loop_run (clock : nat -> string) (ds : list SensorDevice) :
  forall i acc g,
    Forall device_ok ds ->
    exists rs ds' g',
      batch_loop clock i ds acc g = (Return (acc ++ rs)%list, (ds', g'))
      /\ batch_run clock i ds g rs ds' g'.
Proof.
  induction ds as [|d ds IH]; intros i acc g Hok.
  - exists [], [], g. simpl. rewrite app_nil_r. split; [reflexivity | constructor].
  - apply Forall_cons in Hok. destruct Hok as [Hd Hds].
    rewrite batch_loop_cons, random_eq.
    destruct (Qlt_le_dec (Random.peek g 0) (98 # 100)) as [Hlt|Hge].
    + destruct (generate_reading_run (clock i)
                  {| self := d; rng := logged g [Random.Call_random] |} Hd)
        as (rs0 & w0 & r & _ & E & _).
      rewrite E. cbn [self rng].
      destruct (IH (S i) (acc ++ [r])%list
                   (logged (logged g [Random.Call_random])
                      (call_trace {| self := d; rng := logged g [Random.Call_random] |}))
                   Hds)
        as (rs & ds' & g' & El & Hrun).
      rewrite El. exists (r :: rs), (self w0 :: ds'), g'. split.
      * now rewrite <- app_assoc.
      * apply (batch_report _ _ _ _ _ _ _ _ _ _ Hlt E). exact Hrun.
    + destruct (IH (S i) acc (logged g [Random.Call_random]) Hds)
        as (rs & ds' & g' & El & Hrun).
      rewrite El. exists rs, (d :: ds'), g'. split; [reflexivity|].
      now apply batch_skip.
Qed.

Lemma batch_run_order (clock : nat -> string) (i : nat) (ds : list SensorDevice)
    (g : Random.state) (rs : list Reading) (ds' : list SensorDevice) (g' : Random.state) :
  batch_run clock i ds g rs ds' g' ->
  sublist (map reading_device_id rs) (map device_id ds)
  /\ map device_id ds' = map device_id ds.
Proof.
  induction 1 as [i g | i d ds g rs ds' g' Hge Hrun [IH1 IH2]
                 | i d ds g r w rs ds' g' Hlt E Hrun [IH1 IH2]]; simpl.
  - split; [constructor | reflexivity].
  - split; [now apply sublist_cons | now rewrite IH2].
  - destruct (generate_reading_ids _ _ _ _ E) as [Hr Hw]. cbn [self] in Hr, Hw.
    rewrite Hr, Hw, IH2. split; [now apply sublist_skip | reflexivity].
Qed.

(** C5 — [generate_batch].  On a fleet of well-formed devices a call
    returns a batch.  It visits the devices in fleet order, each once: a
    device is included exactly when its own draw is below 98/100, the
    record of its single [generate_reading] call then joining the batch,
    and is otherwise left untouched.  So the device ids of the batch are
    those of the fleet in the same order with the skipped ones missing,
    and the fleet keeps its devices in place. *)
Theorem generate_batch_order (clock : nat -> string) (s : DataGenerator) :
  Forall device_ok (devices s) ->
  exists rs s',
    generate_batch clock s = (Return rs, s')
    /\ batch_run clock 0 (devices s) (gen s) rs (devices s') (gen s')
    /\ sublist (map reading_device_id rs) (map device_id (devices s))
    /\ map device_id (devices s') = map device_id (devices s).
Proof.
  intros Hok.
  destruct (batch_loop_run clock (devices s) 0 [] (gen s) Hok)
    as (rs & ds' & g' & E & Hrun).
  exists rs, {| devices := ds'; gen := g' |}.
  split; [unfold generate_batch; now rewrite E|].
  split; [exact Hrun|]. exact (batch_run_order _ _ _ _ _ _ _ Hrun).
Qed.

Lemma sample_fleet_ok : Forall device_ok (devices sample_fleet).
Proof.
  repeat constructor; try discriminate;
    intros k [<-|[]] _; vm_compute; eauto.
Qed.

(** The sample fleet meets the condition of C5. *)
Lemma generate_batch_order_witness :
  Forall device_ok (devices sample_fleet)
  /\ exists rs s',
       generate_batch epoch sample_fleet = (Return rs, s')
       /\ batch_run epoch 0 (devices sample_fleet) (gen sample_fleet)
            rs (devices s') (gen s')
       /\ sublist (map reading_device_id rs) (map device_id (devices sample_fleet))
       /\ map device_id (devices s') = map device_id (devices sample_fleet).
Proof.
  split; [exact sample_fleet_ok|].
  exact (generate_batch_order epoch sample_fleet sample_fleet_ok).
Defined.

(** On the sample fleet both devices report, in fleet order. *)
Example sample_fleet_batch :
  match generate_batch epoch sample_fleet with
  | (Return rs, s') =>
    map reading_device_id rs = ["device_0001"; "device_0002"]
    /\ map device_id (devices s') = ["device_0001"; "device_0002"]
  | (Raise _, _) => False
  end.
Proof. vm_compute. split; reflexivity. Qed.

(** ** The dashboard *)

Section DashboardFacts.
Import Dashboard.
Variable datetime : Type.
Variable fromisoformat : string -> option datetime.
Variable to_float : Decimal -> Q.

(** C9 — where the code departs from the claim.  A [Decimal] that is an
    element of a list comes back unchanged: the list branch hands each
    element to the function itself, whose last branch returns whatever is
    neither a list nor a dictionary as it is.  The call returns, and its
    result still contains a [Decimal]. *)
Theorem decimal_in_list_not_converted (key : string) (v : Decimal) :
  convert_dynamodb_item fromisoformat to_float (Dict [(key, List [Dec v])])
  = Return (Dict [(key, List [Dec v])])
  /\ exists r,
       convert_dynamodb_item fromisoformat to_float (Dict [(key, List [Dec v])])
       = Return r
       /\ has_decimal r = true.
Proof. split; [reflexivity|]. eexists. split; reflexivity. Qed.

(** Directly under a dictionary key the conversion is as documented. *)
Example decimal_under_key :
  convert_dynamodb_item fromisoformat to_float
    (Dict [("value", Dec (mk_decimal 15 (-1)));
           ("count", Dec (mk_decimal 20 0));
           ("nested", Dict [("value", Dec (mk_decimal 700 (-2)))])])
  = Return (Dict [("value", Float (to_float (mk_decimal 15 (-1))));
                  ("count", Int 20);
                  ("nested", Dict [("value", Int 7)])]).
Proof. reflexivity. Qed.

End DashboardFacts.

(** * Further properties of the generator *)

(** ** The record of a call *)

Lemma settled_extreme (k : string) (c : SensorConfig) (z : Z) :
  SENSOR_TYPES !! k = Some c -> z = cfg_max c \/ z = cfg_min c ->
  settled c (inject_Z z).
Proof.
  intros Hc Hz. pose proof (registry_range k c Hc) as Hr. split.
  - exists (z * Zpos (Num.pow10 (cfg_precision c)))%Z.
    symmetry. apply Qreduce_den_inject_Z_r.
  - destruct Hz as [-> | ->]; split; lra.
Qed.

Lemma drift_loop_entries (K kinds : list string) :
  forall rs w rs' w',
    drift_loop kinds rs w = (Return rs', w') ->
    (forall k, In k kinds -> In k K) ->
    (forall k e, rs !! k = Some e -> entry_ok K k e) ->
    forall k e, rs' !! k = Some e -> entry_ok K k e.
Proof.
  induction kinds as [|k0 kinds IH]; intros rs w rs' w' E Hsub Hrs; simpl in E.
  - injection E as <- <-. exact Hrs.
  - unfold bind in E.
    assert (Hsub' : forall k, In k kinds -> In k K) by (intros k Hk; apply Hsub; now right).
    destruct (SENSOR_TYPES !! k0) as [c|] eqn:Hc.
    + destruct (current_values (self w) !! k0) as [v|] eqn:Hv.
      * rewrite (drift_step_registered k0 c rs w v Hc Hv) in E.
        apply (IH _ _ _ _ E Hsub'). intros k e He.
        destruct (decide (k0 = k)) as [->|Hne].
        -- rewrite lookup_insert_eq in He. injection He as <-.
           split; [apply Hsub; now left|]. exists c.
           split; [exact Hc|]. split; [reflexivity|].
           apply (drift_value_settled k c Hc).
        -- rewrite lookup_insert_ne in He by assumption. now apply Hrs.
      * rewrite (drift_step_missing k0 c rs w Hc Hv) in E. discriminate.
    + rewrite (drift_step_unregistered k0 rs w Hc) in E.
      apply (IH _ _ _ _ E Hsub' Hrs).
Qed.

(** X1 — The kinds of a record.  The [readings] of a returned record hold
    an entry for exactly the kinds of [sensor_types] that are registered:
    an unregistered kind never shows, a registered one is never missing,
    whether or not the anomaly fired. *)
Theorem record_kinds (now : string) (w : World) :
  match generate_reading now w with
  | (Return r, _) =>
    forall k, is_Some (readings r !! k)
              <-> In k (sensor_types (self w)) /\ is_Some (SENSOR_TYPES !! k)
  | (Raise _, _) => True
  end.
Proof.
  destruct (generate_reading now w) as [[r|e] w'] eqn:E; [|exact I].
  destruct (generate_reading_inv now w r w' E)
    as (rs0 & w0 & st & rs1 & w1 & E0 & _ & Ea & -> & _).
  destruct (drift_loop_readings _ _ _ _ _ E0) as [_ Hdom].
  destruct (anomaly_inv _ _ _ _ Ea) as [_ Hcase]. cbn [readings].
  assert (H0 : forall k, is_Some (rs0 !! k)
                 <-> In k (sensor_types (self w)) /\ is_Some (SENSOR_TYPES !! k)).
  { intros k. rewrite Hdom, lookup_empty. split; [|auto].
    intros [[? H]|H]; [discriminate | exact H]. }
  destruct Hcase as [->|(k0 & e0 & c & _ & _ & He0 & _ & ->)]; [exact H0|].
  intros k. rewrite <- H0. unfold set_value.
  destruct (decide (k0 = k)) as [->|Hne].
  - rewrite lookup_alter_eq, He0. split; eauto.
  - now rewrite lookup_alter_ne.
Qed.

Lemma generate_reading_entries (now : string) (w : World) (r : Reading) (w' : World) :
  generate_reading now w = (Return r, w') ->
  forall k e, readings r !! k = Some e -> entry_ok (sensor_types (self w)) k e.
Proof.
  intros E.
  destruct (generate_reading_inv now w r w' E)
    as (rs0 & w0 & st & rs1 & w1 & E0 & _ & Ea & -> & _).
  assert (H0 : forall k e, rs0 !! k = Some e -> entry_ok (sensor_types (self w)) k e).
  { apply (drift_loop_entries _ _ _ _ _ _ E0); [auto|].
    intros k e He. rewrite lookup_empty in He. discriminate. }
  destruct (anomaly_inv _ _ _ _ Ea) as [_ Hcase]. cbn [readings].
  destruct Hcase as [->|(k0 & e0 & c & _ & _ & He0 & Hc & ->)]; [exact H0|].
  intros k e He. unfold set_value in He.
  destruct (decide (k0 = k)) as [->|Hne].
  - rewrite lookup_alter_eq, He0 in He. injection He as <-.
    destruct (H0 k e0 He0) as (Hin & c' & Hc' & Hu & _).
    rewrite Hc in Hc'. injection Hc' as <-.
    split; [exact Hin|]. exists c. split; [exact Hc|]. split; [exact Hu|].
    cbn [value]. apply (settled_extreme k c _ Hc), anomaly_extreme_cases.
  - rewrite lookup_alter_ne in He by assumption. now apply H0.
Qed.

(** X2 — The entries of a record.  Every entry of a returned record, the
    one an anomaly overrode included, carries the unit of its kind and a
    value that is a multiple of the kind's rounding unit (an integer at
    precision 0, a multiple of 0.1 at precision 1) within the kind's
    [[min, max]]. *)
Theorem record_entries (now : string) (w : World) :
  match generate_reading now w with
  | (Return r, _) =>
    forall k e, readings r !! k = Some e -> entry_ok (sensor_types (self w)) k e
  | (Raise _, _) => True
  end.
Proof.
  destruct (generate_reading now w) as [[r|e] w'] eqn:E; [|exact I].
  exact (generate_reading_entries now w r w' E).
Qed.

Lemma choices_status_by_draw (g : Random.state) :
  Random.choices DEVICE_STATUSES STATUS_WEIGHTS g
  = (Some (status_by_draw (Random.peek g 0)), logged g [Random.Call_choices]).
Proof.
  unfold Random.choices.
  set (cum := Random.accumulate 0 STATUS_WEIGHTS).
  change (negb (length cum =? length DEVICE_STATUSES)%nat) with false. cbv iota.
  change (last cum) with (Some (0 + (95 # 100) + (3 # 100) + (15 # 1000) + (5 # 1000))).
  cbv iota beta.
  destruct (Qlt_le_dec 0 _) as [_|Hbad];
    [|exfalso; revert Hbad; apply Qlt_not_le; reflexivity].
  unfold Random.next. rewrite <- peek_0.
  destruct (unit_of_range (Random.tape g (length (Random.calls g)))) as [Hlo Hhi].
  rewrite <- peek_0 in Hlo, Hhi.
  set (u := Random.peek g 0) in *.
  unfold logged. f_equal. unfold status_by_draw.
  subst cum. unfold STATUS_WEIGHTS, DEVICE_STATUSES.
  cbn [Random.accumulate Random.bisect length Nat.sub].
  repeat match goal with
         | |- context [Qlt_le_dec ?a ?b] => destruct (Qlt_le_dec a b)
         end; try reflexivity; exfalso; lra.
Qed.

Lemma generate_reading_loop_raises (now : string) (w : World) (e : exn) (w0 : World) :
  drift_loop (sensor_types (self w)) ∅ w = (Raise e, w0) ->
  generate_reading now w = (Raise e, w0).
Proof.
  intros E. unfold generate_reading. unfold bind at 1. unfold get_self at 1.
  unfold bind at 1. now rewrite E.
Qed.

Lemma generate_reading_after_loop (now : string) (w : World)
    (rs0 : gmap string SensorReading) (w0 : World) :
  drift_loop (sensor_types (self w)) ∅ w = (Return rs0, w0) ->
  generate_reading now w
  = match anomaly rs0 {| self := self w0; rng := logged (rng w0) [Random.Call_choices] |} with
    | (Return rs1, w1) =>
      (Return
         {| reading_device_id := device_id (self w1);
            timestamp := now;
            location_id := loc_id (location (self w1));
            location_name := loc_name (location (self w1));
            coordinates :=
              {| latitude := lat (location (self w1))
                   + fst (Random.uniform (- (1 # 10000)) (1 # 10000) (rng w1));
                 longitude := lon (location (self w1))
                   + fst (Random.uniform (- (1 # 10000)) (1 # 10000)
                            (logged (rng w1) [jitter_call])) |};
            readings := rs1;
            status := status_by_draw (Random.peek (rng w0) 0) |},
       {| self := self w1; rng := logged (rng w1) [jitter_call; jitter_call] |})
    | (Raise e, w1) => (Raise e, w1)
    end.
Proof.
  intros E. unfold generate_reading. unfold bind at 1. unfold get_self at 1.
  unfold bind at 1. rewrite E.
  unfold bind at 1. rewrite rand_eq, choices_status_by_draw. cbn [fst snd].
  unfold bind at 1. unfold or_raise at 1. cbv beta iota. unfold ret at 1.
  unfold bind at 1.
  destruct (anomaly rs0 _) as [[rs1|e] w1]; [|reflexivity].
  unfold bind at 1. unfold get_self at 1.
  unfold bind at 1. rewrite rand_eq.
  unfold bind at 1. rewrite rand_eq.
  unfold ret. cbn [fst snd self rng].
  rewrite !uniform_snd, logged_logged. reflexivity.
Qed.

(** X3 — Status selection.  On a well-formed device the status of the
    record is decided by the draw that follows the drift draws: below 0.95
    it is "operational", from there below 0.98 "maintenance", from there
    below 0.995 "warning", and "error" from 0.995 on. *)
Theorem record_status (now : string) (w : World) :
  device_ok (self w) ->
  exists r w',
    generate_reading now w = (Return r, w')
    /\ status r
       = status_by_draw
           (Random.peek (rng w) (length (drift_calls (sensor_types (self w))))).
Proof.
  intros Hok.
  destruct (generate_reading_run now w Hok) as (rs0 & w0 & r & E0 & E & _).
  eexists r, _. split; [exact E|].
  destruct (drift_loop_returns _ ∅ w (proj2 Hok)) as (rs0' & w0' & E0' & Ht & Hc).
  rewrite E0 in E0'. injection E0' as <- <-.
  pose proof (rng_logged _ _ _ Ht Hc) as Hg.
  rewrite (generate_reading_after_loop now w rs0 w0 E0) in E.
  destruct (anomaly rs0 _) as [[rs1|e] w1]; [|discriminate].
  injection E as <- _. cbn [status].
  rewrite Hg, peek_logged. now rewrite Nat.add_0_r.
Qed.

Lemma record_status_witness :
  device_ok (self battery_world)
  /\ exists r w',
       generate_reading (epoch 0) battery_world = (Return r, w')
       /\ status r = status_by_draw (Random.peek (rng battery_world) 1).
Proof.
  split; [exact battery_device_ok|].
  exact (record_status (epoch 0) battery_world battery_device_ok).
Defined.

(** X4 — A device without sensors.  When [sensor_types] is empty a call
    changes nothing of the object; it raises [IndexError] (from
    [random.choice] on the empty list) exactly when the anomaly draw fires,
    and otherwise returns a record with no readings. *)
Theorem no_sensor_call (now : string) (w : World) :
  sensor_types (self w) = [] ->
  self (snd (generate_reading now w)) = self w
  /\ if anomaly_fires (anomaly_rng w)
     then fst (generate_reading now w) = Raise IndexError
     else exists r, fst (generate_reading now w) = Return r /\ readings r = ∅.
Proof.
  intros Hk.
  assert (E0 : drift_loop (sensor_types (self w)) ∅ w = (Return ∅, w))
    by (rewrite Hk; reflexivity).
  rewrite (generate_reading_after_loop now w ∅ w E0).
  assert (Hg : anomaly_rng w = logged (rng w) [Random.Call_choices])
    by (unfold anomaly_rng; rewrite Hk; reflexivity).
  rewrite Hg.
  set (wa := {| self := self w; rng := logged (rng w) [Random.Call_choices] |}).
  destruct (anomaly_fires (logged (rng w) [Random.Call_choices])) eqn:Hf.
  - rewrite (anomaly_empty ∅ wa Hf Hk). split; reflexivity.
  - rewrite (anomaly_quiet ∅ wa Hf). cbn [fst snd self]. split; [reflexivity|].
    eexists. split; reflexivity.
Qed.

Lemma no_sensor_call_witness :
  sensor_types (self (mk_world bare_device (Random.mk_state anomaly_tape []))) = []
  /\ self (snd (generate_reading (epoch 0)
                  (mk_world bare_device (Random.mk_state anomaly_tape []))))
     = bare_device
  /\ if anomaly_fires (anomaly_rng (mk_world bare_device (Random.mk_state anomaly_tape [])))
     then fst (generate_reading (epoch 0)
                 (mk_world bare_device (Random.mk_state anomaly_tape [])))
          = Raise IndexError
     else exists r,
         fst (generate_reading (epoch 0)
                (mk_world bare_device (Random.mk_state anomaly_tape []))) = Return r
         /\ readings r = ∅.
Proof.
  split; [reflexivity|].
  apply (no_sensor_call (epoch 0) (mk_world bare_device (Random.mk_state anomaly_tape []))).
  reflexivity.
Defined.

(** ** Edges of the drift loop *)

Lemma drift_loop_missing (kinds : list string) :
  forall rs w k,
    In k kinds -> is_Some (SENSOR_TYPES !! k) ->
    current_values (self w) !! k = None ->
    exists before k0 after w0,
      drift_loop kinds rs w = (Raise (KeyError k0), w0)
      /\ kinds = (before ++ k0 :: after)%list
      /\ is_Some (SENSOR_TYPES !! k0)
      /\ current_values (self w) !! k0 = None
      /\ forall k', In k' before -> is_Some (SENSOR_TYPES !! k') ->
                    is_Some (current_values (self w) !! k').
Proof.
  induction kinds as [|k1 kinds IH]; intros rs w k Hin Hreg Hnone; [destruct Hin|].
  simpl drift_loop. unfold bind.
  destruct (SENSOR_TYPES !! k1) as [c1|] eqn:Hc1.
  - destruct (current_values (self w) !! k1) as [v1|] eqn:Hv1.
    + rewrite (drift_step_registered k1 c1 rs w v1 Hc1 Hv1).
      set (w1 := {| self := _; rng := _ |}).
      assert (Hne : k1 <> k) by (intros ->; rewrite Hnone in Hv1; discriminate).
      destruct Hin as [->|Hin]; [contradiction|].
      destruct (IH (<[k1:=mk_sensor_reading (drift_value c1 v1 (Random.peek (rng w) 0))
                                            (cfg_unit c1)]> rs) w1 k Hin Hreg)
        as (before & k0 & after & w0 & E & Hk & Hreg0 & Hnone0 & Hbefore).
      { subst w1; cbn [self with_values current_values].
        now rewrite lookup_insert_ne. }
      subst w1; cbn [self with_values current_values] in Hnone0, Hbefore.
      assert (Hne0 : k1 <> k0).
      { intros ->. rewrite lookup_insert_eq in Hnone0. discriminate. }
      rewrite lookup_insert_ne in Hnone0 by assumption.
      exists (k1 :: before), k0, after, w0.
      split; [exact E|]. split; [now rewrite Hk|]. split; [exact Hreg0|].
      split; [exact Hnone0|].
      intros k' [<-|Hin'] Hreg'; [rewrite Hv1; eauto|].
      specialize (Hbefore k' Hin' Hreg').
      destruct (decide (k1 = k')) as [<-|Hne'].
      * rewrite Hv1; eauto.
      * now rewrite lookup_insert_ne in Hbefore.
    + rewrite (drift_step_missing k1 c1 rs w Hc1 Hv1).
      exists [], k1, kinds. eexists. split; [reflexivity|].
      split; [reflexivity|]. split; [rewrite Hc1; eauto|].
      split; [exact Hv1|]. intros k' [].
  - rewrite (drift_step_unregistered k1 rs w Hc1).
    destruct Hin as [->|Hin]; [rewrite Hc1 in Hreg; destruct Hreg; discriminate|].
    destruct (IH rs w k Hin Hreg Hnone)
      as (before & k0 & after & w0 & E & Hk & Hreg0 & Hnone0 & Hbefore).
    exists (k1 :: before), k0, after, w0.
    split; [exact E|]. split; [now rewrite Hk|]. split; [exact Hreg0|].
    split; [exact Hnone0|].
    intros k' [<-|Hin'] Hreg'; [rewrite Hc1 in Hreg'; destruct Hreg'; discriminate|].
    now apply Hbefore.
Qed.

(** X5 — A supported kind without a value.  When [sensor_types] names a
    registered kind for which [current_values] has no entry, the call
    raises [KeyError] for the first such kind of the list; no record is
    returned. *)
Theorem missing_value_raises (now : string) (w : World) (k : string) :
  In k (sensor_types (self w)) -> is_Some (SENSOR_TYPES !! k) ->
  current_values (self w) !! k = None ->
  exists before k0 after w',
    generate_reading now w = (Raise (KeyError k0), w')
    /\ sensor_types (self w) = (before ++ k0 :: after)%list
    /\ is_Some (SENSOR_TYPES !! k0)
    /\ current_values (self w) !! k0 = None
    /\ forall k', In k' before -> is_Some (SENSOR_TYPES !! k') ->
                  is_Some (current_values (self w) !! k').
Proof.
  intros Hin Hreg Hnone.
  destruct (drift_loop_missing _ ∅ w k Hin Hreg Hnone)
    as (before & k0 & after & w0 & E & H).
  exists before, k0, after, w0.
  split; [now apply generate_reading_loop_raises | exact H].
Qed.

Lemma missing_value_raises_witness :
  In "humidity" (sensor_types (self (mk_world stale_device steady_rng)))
  /\ is_Some (SENSOR_TYPES !! "humidity")
  /\ current_values (self (mk_world stale_device steady_rng)) !! "humidity" = None
  /\ exists before k0 after w',
       generate_reading (epoch 0) (mk_world stale_device steady_rng)
       = (Raise (KeyError k0), w')
       /\ sensor_types (self (mk_world stale_device steady_rng))
          = (before ++ k0 :: after)%list
       /\ is_Some (SENSOR_TYPES !! k0)
       /\ current_values (self (mk_world stale_device steady_rng)) !! k0 = None
       /\ forall k', In k' before -> is_Some (SENSOR_TYPES !! k') ->
                     is_Some (current_values (self (mk_world stale_device steady_rng)) !! k').
Proof.
  assert (H1 : In "humidity" (sensor_types (self (mk_world stale_device steady_rng))))
    by (right; left; reflexivity).
  assert (H2 : is_Some (SENSOR_TYPES !! "humidity")) by (vm_compute; eauto).
  assert (H3 : current_values (self (mk_world stale_device steady_rng)) !! "humidity" = None)
    by reflexivity.
  split; [exact H1|]. split; [exact H2|]. split; [exact H3|].
  exact (missing_value_raises (epoch 0) (mk_world stale_device steady_rng)
           "humidity" H1 H2 H3).
Defined.

(** The exception does not undo the updates already made: on the stale
    device the battery has been stepped and persisted before [KeyError] is
    raised for the humidity. *)
Example stale_device_run :
  match generate_reading (epoch 0)
          (mk_world stale_device (Random.mk_state battery_tape [])) with
  | (Raise e, w') =>
    e = KeyError "humidity"
    /\ Random.calls (rng w')
       = [Random.Call_uniform (-1 # 10) (1 # 10); Random.Call_uniform (-2) 2]
  | (Return _, _) => False
  end.
Proof. vm_compute. split; reflexivity. Qed.

Lemma drift_loop_untouched (k : string) (kinds : list string) :
  forall rs w,
    ~ In k kinds ->
    current_values (self (snd (drift_loop kinds rs w))) !! k
    = current_values (self w) !! k.
Proof.
  induction kinds as [|k0 kinds IH]; intros rs w Hnin; [reflexivity|].
  simpl drift_loop. unfold bind.
  assert (Hne : k0 <> k) by (intros ->; apply Hnin; now left).
  assert (Hnin' : ~ In k kinds) by (intros H; apply Hnin; now right).
  destruct (SENSOR_TYPES !! k0) as [c0|] eqn:Hc0.
  - destruct (current_values (self w) !! k0) as [v0|] eqn:Hv0.
    + rewrite (drift_step_registered k0 c0 rs w v0 Hc0 Hv0), IH by assumption.
      cbn [self with_values current_values]. now rewrite lookup_insert_ne.
    + now rewrite (drift_step_missing k0 c0 rs w Hc0 Hv0).
  - rewrite (drift_step_unregistered k0 rs w Hc0). now apply IH.
Qed.

(** On a list without repetition each registered kind is stepped once:
    its new value is the drift value of its old one for some draw. *)
Lemma drift_loop_nodup_value (k : string) (c : SensorConfig) (kinds : list string) :
  SENSOR_TYPES !! k = Some c ->
  forall rs w v,
    NoDup kinds -> In k kinds ->
    values_present kinds (current_values (self w)) ->
    current_values (self w) !! k = Some v ->
    exists u, 0 <= u /\ u < 1
              /\ current_values (self (snd (drift_loop kinds rs w))) !! k
                 = Some (drift_value c v u).
Proof.
  intros Hc. induction kinds as [|k0 kinds IH]; intros rs w v Hnd Hin Hp Hv;
    [destruct Hin|].
  apply NoDup_cons in Hnd. destruct Hnd as [Hnin Hnd].
  rewrite list_elem_of_In in Hnin.
  simpl drift_loop. unfold bind.
  destruct (unit_of_range (Random.tape (rng w) (length (Random.calls (rng w)))))
    as [Hlo Hhi]. rewrite <- peek_0 in Hlo, Hhi.
  destruct (decide (k0 = k)) as [->|Hne].
  - rewrite (drift_step_registered k c rs w v Hc Hv).
    exists (Random.peek (rng w) 0). split; [exact Hlo|]. split; [exact Hhi|].
    rewrite drift_loop_untouched by assumption.
    cbn [self with_values current_values]. now rewrite lookup_insert_eq.
  - destruct Hin as [->|Hin]; [contradiction|].
    assert (Hp' : values_present kinds (current_values (self w))).
    { intros k' Hin' Hreg. apply Hp; [now right | exact Hreg]. }
    destruct (SENSOR_TYPES !! k0) as [c0|] eqn:Hc0.
    + destruct (Hp k0 (or_introl eq_refl)) as [v0 Hv0]; [rewrite Hc0; eauto|].
      rewrite (drift_step_registered k0 c0 rs w v0 Hc0 Hv0).
      apply IH; cbn [self with_values current_values]; auto.
      * intros k' Hin' Hreg. destruct (decide (k0 = k')) as [->|Hne'].
        -- rewrite lookup_insert_eq; eauto.
        -- rewrite lookup_insert_ne by assumption. now apply Hp'.
      * now rewrite lookup_insert_ne.
    + rewrite (drift_step_unregistered k0 rs w Hc0). now apply IH.
Qed.

Lemma py_round_near (x : Q) (p : nat) :
  Qabs (Num.py_round x p - x) <= 1 # (2 * Num.pow10 p).
Proof.
  pose proof (py_round_eq x p) as E.
  pose proof (pow10_pos p) as HP.
  destruct (round_half_even_near (x * inject_Z (Zpos (Num.pow10 p)))) as [Hlo Hhi].
  set (z := inject_Z (Num.round_half_even _)) in *.
  set (P := inject_Z (Zpos (Num.pow10 p))) in *.
  set (r := Num.py_round x p) in *.
  assert (Er : r * P == z) by (rewrite E; field; lra).
  assert (Eh : (1 # (2 * Num.pow10 p)) * P * 2 == 1).
  { unfold P. unfold Qeq, Qmult, inject_Z; simpl. lia. }
  set (h := 1 # (2 * Num.pow10 p)) in *.
  apply Qabs_Qle_condition. split; nra.
Qed.

Lemma drift_value_near (k : string) (c : SensorConfig) (v u : Q) :
  SENSOR_TYPES !! k = Some c ->
  inject_Z (cfg_min c) <= v <= inject_Z (cfg_max c) -> 0 <= u -> u < 1 ->
  Qabs (drift_value c v u - v)
  <= cfg_drift_factor c + (1 # (2 * Num.pow10 (cfg_precision c))).
Proof.
  intros Hc [Hvlo Hvhi] Hlo Hhi. unfold drift_value.
  pose proof (registry_drift_nonneg k c Hc) as Hf.
  set (d0 := - cfg_drift_factor c + (cfg_drift_factor c - - cfg_drift_factor c) * u).
  assert (Hd0 : - cfg_drift_factor c <= d0 <= cfg_drift_factor c) by (unfold d0; split; nra).
  set (d := if get_decay c then Qabs d0 * (-1) else d0).
  assert (Hd : - cfg_drift_factor c <= d <= cfg_drift_factor c).
  { unfold d. destruct (get_decay c); [|exact Hd0].
    pose proof (Qabs_nonneg d0).
    assert (Qabs d0 <= cfg_drift_factor c) by (apply Qabs_Qle_condition; exact Hd0).
    split; lra. }
  set (x := Num.py_max _ _).
  assert (Hx : - cfg_drift_factor c <= x - v <= cfg_drift_factor c).
  { subst x.
    destruct (py_min_spec (v + d) (inject_Z (cfg_max c))) as (Hm1 & Hm2 & [E|E]);
    destruct (py_max_spec (inject_Z (cfg_min c))
                (Num.py_min (v + d) (inject_Z (cfg_max c)))) as (Ha & Hb & [E'|E']);
      rewrite E' in *; rewrite ?E in *; split; lra. }
  pose proof (py_round_near x (cfg_precision c)) as Hr.
  apply Qabs_Qle_condition in Hr. apply Qabs_Qle_condition. split; lra.
Qed.

(** X6 — How far one call moves a value.  On a well-formed device whose
    kinds are listed without repetition and whose values are in range, a
    call moves the persisted value of each registered kind by less than
    the kind's drift factor plus one rounding unit.  The drift itself is
    within the drift factor and rounding adds half a unit at most; the
    bound leaves the other half unit so that it does not hang on the side a
    value halfway between two multiples is rounded to. *)
Theorem tick_moves_little (now : string) (w : World) (k : string)
    (c : SensorConfig) (v : Q) :
  NoDup (sensor_types (self w)) ->
  values_present (sensor_types (self w)) (current_values (self w)) ->
  values_in_range (current_values (self w)) ->
  In k (sensor_types (self w)) -> SENSOR_TYPES !! k = Some c ->
  current_values (self w) !! k = Some v ->
  exists v',
    current_values (self (snd (generate_reading now w))) !! k = Some v'
    /\ Qabs (v' - v) < cfg_drift_factor c + (1 # Num.pow10 (cfg_precision c)).
Proof.
  intros Hnd Hp Hr Hin Hc Hv. rewrite generate_reading_self.
  destruct (drift_loop_nodup_value k c _ Hc ∅ w v Hnd Hin Hp Hv)
    as (u & Hlo & Hhi & Hv').
  exists (drift_value c v u). split; [exact Hv'|].
  apply Qle_lt_trans
    with (cfg_drift_factor c + (1 # (2 * Num.pow10 (cfg_precision c)))).
  - apply (drift_value_near k c v u Hc); auto. exact (Hr k c v Hc Hv).
  - apply Qplus_lt_r. unfold Qlt. cbn [Qnum Qden]. lia.
Qed.

Lemma thermo_device_in_range : values_in_range (current_values thermo_device).
Proof.
  intros k c v Hc Hv. unfold thermo_device in Hv; cbn [current_values] in Hv.
  apply lookup_singleton_Some in Hv. destruct Hv as [<- <-].
  vm_compute in Hc. injection Hc as <-. split; discriminate.
Qed.

(** The thermometer at 20.0 with a drift of 0.0594: the call persists a
    value less than 0.2 away. *)
Lemma tick_moves_little_witness :
  NoDup (sensor_types thermo_device)
  /\ In "temperature" (sensor_types thermo_device)
  /\ current_values thermo_device !! "temperature" = Some 20
  /\ exists v',
       current_values
         (self (snd (generate_reading (epoch 0)
                       (mk_world thermo_device (Random.mk_state battery_tape [])))))
         !! "temperature" = Some v'
       /\ Qabs (v' - 20) < (1 # 10) + (1 # 10).
Proof.
  assert (Hnd : NoDup (sensor_types thermo_device))
    by (apply NoDup_singleton).
  split; [exact Hnd|]. split; [left; reflexivity|]. split; [reflexivity|].
  apply (tick_moves_little (epoch 0)
           (mk_world thermo_device (Random.mk_state battery_tape []))
           "temperature" (mk_config "°C" (-10) 45 1 (1 # 10) None) 20 Hnd).
  - intros k [<-|[]] _. vm_compute. eauto.
  - exact thermo_device_in_range.
  - left; reflexivity.
  - reflexivity.
  - reflexivity.
Defined.

(** ** The battery after the first call *)

Lemma created_decay_values (id : string) (loc : Location) (kinds : list string)
    (g : Random.state) (clock : nat -> string) (k : string) (c : SensorConfig) :
  In k kinds -> SENSOR_TYPES !! k = Some c -> get_decay c = true ->
  exists d g' v1,
    SensorDevice_init id loc kinds g = (Return d, g')
    /\ forall m,
         exists v,
           current_values (self (ticks clock (S m) (mk_world d g'))) !! k = Some v
           /\ settled c v /\ v == v1.
Proof.
  intros Hin Hc Hd.
  destruct (SensorDevice_init_spec id loc kinds g)
    as (d & g' & E & _ & _ & Hk & Hr & Hdom).
  destruct (proj2 (Hdom k)) as [v0 Hv0]; [split; [exact Hin | rewrite Hc; eauto]|].
  assert (Hp : values_present (sensor_types d) (current_values d)).
  { rewrite Hk. intros k' Hin' Hreg. apply Hdom. auto. }
  destruct (drift_loop_decay_settles k c Hc Hd (sensor_types d) ∅ (mk_world d g') v0)
    as (v1 & Hv1 & Hs1 & _); auto.
  { now rewrite Hk. }
  { exact (Hr k c v0 Hc Hv0). }
  exists d, g', v1. split; [exact E|].
  induction m as [|m IH].
  - exists v1. simpl ticks. rewrite generate_reading_self.
    split; [exact Hv1|]. split; [exact Hs1 | reflexivity].
  - change (ticks clock (S (S m)) (mk_world d g'))
      with (snd (generate_reading (clock (S m)) (ticks clock (S m) (mk_world d g')))).
    now apply (tick_decay_fixed k c Hc Hd).
Qed.

(** X7 — The battery does not decay.  For a device created with the
    decay-flagged kind among its kinds, the value the first call persists
    is the value every later call persists: the drift of at most 0.1 is
    rounded away at precision 0, so the level never goes down again. *)
Theorem battery_frozen (id : string) (loc : Location) (kinds : list string)
    (g : Random.state) (clock : nat -> string) (n : nat)
    (k : string) (c : SensorConfig) :
  In k kinds -> SENSOR_TYPES !! k = Some c -> get_decay c = true ->
  exists d g' v1 vn,
    SensorDevice_init id loc kinds g = (Return d, g')
    /\ current_values (self (ticks clock 1 (mk_world d g'))) !! k = Some v1
    /\ current_values (self (ticks clock (S n) (mk_world d g'))) !! k = Some vn
    /\ vn == v1.
Proof.
  intros Hin Hc Hd.
  destruct (created_decay_values id loc kinds g clock k c Hin Hc Hd)
    as (d & g' & v1 & E & H).
  destruct (H O) as (a & Ha & _ & Ea). destruct (H n) as (b & Hb & _ & Eb).
  exists d, g', a, b. split; [exact E|]. split; [exact Ha|]. split; [exact Hb|].
  now rewrite Ea, Eb.
Qed.

(** A device with a thermometer and a battery, followed to its 100th call. *)
Lemma battery_frozen_witness :
  In "battery_level" ["temperature"; "battery_level"]
  /\ exists d g' v1 vn,
       SensorDevice_init "device_0003" warehouse_a ["temperature"; "battery_level"]
         (Random.mk_state battery_tape []) = (Return d, g')
       /\ current_values (self (ticks epoch 1 (mk_world d g'))) !! "battery_level"
          = Some v1
       /\ current_values (self (ticks epoch 100 (mk_world d g'))) !! "battery_level"
          = Some vn
       /\ vn == v1.
Proof.
  split; [right; left; reflexivity|].
  apply (battery_frozen "device_0003" warehouse_a ["temperature"; "battery_level"]
           (Random.mk_state battery_tape []) epoch 99 "battery_level"
           (mk_config "%" 0 100 0 (1 # 10) (Some true)));
    [right; left; reflexivity | reflexivity | reflexivity].
Defined.

(** ** The fleet over the batches *)

Lemma generate_reading_keeps_fleet_ok (now : string) (w : World) :
  fleet_ok (self w) -> fleet_ok (self (snd (generate_reading now w))).
Proof.
  intros [Hok Hr]. split.
  - exact (ticks_device_ok (fun _ => now) 1 w Hok).
  - exact (ticks_in_range (fun _ => now) 1 w Hr).
Qed.

Lemma batch_run_keeps (clock : nat -> string) (i : nat) (ds : list SensorDevice)
    (g : Random.state) (rs : list Reading) (ds' : list SensorDevice) (g' : Random.state) :
  batch_run clock i ds g rs ds' g' ->
  Forall fleet_ok ds ->
  Forall fleet_ok ds'
  /\ (length rs <= length ds)%nat
  /\ length ds' = length ds
  /\ Forall (fun r => exists d, In d ds
                        /\ reading_device_id r = device_id d
                        /\ forall k e, readings r !! k = Some e ->
                                       entry_ok (sensor_types d) k e) rs.
Proof.
  induction 1 as [i g | i d ds g rs ds' g' Hge Hrun IH
                 | i d ds g r w rs ds' g' Hlt E Hrun IH]; intros Hok.
  - repeat split; constructor.
  - apply Forall_cons in Hok. destruct Hok as [Hd Hds].
    destruct (IH Hds) as (H1 & H2 & H3 & H4).
    split; [now constructor|]. split; [simpl; lia|]. split; [simpl; lia|].
    eapply Forall_impl; [exact H4|].
    intros r (d0 & Hin & Hr). exists d0. split; [now right | exact Hr].
  - apply Forall_cons in Hok. destruct Hok as [Hd Hds].
    destruct (IH Hds) as (H1 & H2 & H3 & H4).
    pose proof (generate_reading_keeps_fleet_ok (clock i)
                  {| self := d; rng := logged g [Random.Call_random] |} Hd) as Hd'.
    rewrite E in Hd'. cbn [snd] in Hd'.
    split; [now constructor|]. split; [simpl; lia|]. split; [simpl; lia|].
    constructor.
    + exists d. split; [now left|].
      destruct (generate_reading_ids _ _ _ _ E) as [Hid _].
      split; [exact Hid|]. exact (generate_reading_entries _ _ _ _ E).
    + eapply Forall_impl; [exact H4|].
      intros r0 (d0 & Hin & Hr). exists d0. split; [now right | exact Hr].
Qed.

Lemma generate_batch_run (clock : nat -> string) (s : DataGenerator) :
  Forall fleet_ok (devices s) ->
  exists rs s',
    generate_batch clock s = (Return rs, s')
    /\ batch_run clock 0 (devices s) (gen s) rs (devices s') (gen s').
Proof.
  intros Hok.
  assert (Hok' : Forall device_ok (devices s))
    by (eapply Forall_impl; [exact Hok | intros d [H _]; exact H]).
  destruct (batch_loop_run clock (devices s) 0 [] (gen s) Hok')
    as (rs & ds' & g' & E & Hrun).
  exists rs, {| devices := ds'; gen := g' |}.
  split; [unfold generate_batch; now rewrite E | exact Hrun].
Qed.

(** X8 — What a batch holds and leaves.  On a fleet of well-formed devices
    with values in range, [generate_batch] returns at most one record per
    device; every record belongs to a device of the fleet and every entry
    of it carries its kind's unit and a value at the kind's precision
    inside the kind's range; and the fleet is left as large, well formed
    and in range as it was. *)
Theorem batch_contents (clock : nat -> string) (s : DataGenerator) :
  Forall fleet_ok (devices s) ->
  exists rs s',
    generate_batch clock s = (Return rs, s')
    /\ Forall fleet_ok (devices s')
    /\ (length rs <= length (devices s))%nat
    /\ length (devices s') = length (devices s)
    /\ Forall (fun r => exists d, In d (devices s)
                          /\ reading_device_id r = device_id d
                          /\ forall k e, readings r !! k = Some e ->
                                         entry_ok (sensor_types d) k e) rs.
Proof.
  intros Hok.
  destruct (generate_batch_run clock s Hok) as (rs & s' & E & Hrun).
  exists rs, s'. split; [exact E|]. exact (batch_run_keeps _ _ _ _ _ _ _ Hrun Hok).
Qed.

Lemma battery_values_in_range (id : string) (v : Z) :
  (0 <= v <= 100)%Z ->
  values_in_range
    (current_values (mk_device id warehouse_a ["battery_level"]
                       {["battery_level" := inject_Z v]})).
Proof.
  intros Hv k c x Hc Hx. cbn [current_values] in Hx.
  apply lookup_singleton_Some in Hx. destruct Hx as [<- <-].
  vm_compute in Hc. injection Hc as <-. cbn [cfg_min cfg_max].
  rewrite <- !Zle_Qle. exact Hv.
Qed.

Lemma sample_fleet_fleet_ok : Forall fleet_ok (devices sample_fleet).
Proof.
  pose proof sample_fleet_ok as H. unfold sample_fleet in *. cbn [devices] in *.
  apply Forall_cons in H. destruct H as [H1 H].
  apply Forall_cons in H. destruct H as [H2 _].
  constructor; [|constructor; [|constructor]].
  - split; [exact H1|]. apply (battery_values_in_range "device_0001" 80). lia.
  - split; [exact H2|]. apply (battery_values_in_range "device_0002" 55). lia.
Qed.

Lemma batch_contents_witness :
  Forall fleet_ok (devices sample_fleet)
  /\ exists rs s',
       generate_batch epoch sample_fleet = (Return rs, s')
       /\ Forall fleet_ok (devices s')
       /\ (length rs <= length (devices sample_fleet))%nat
       /\ length (devices s') = length (devices sample_fleet)
       /\ Forall (fun r => exists d, In d (devices sample_fleet)
                             /\ reading_device_id r = device_id d
                             /\ forall k e, readings r !! k = Some e ->
                                            entry_ok (sensor_types d) k e) rs.
Proof.
  split; [exact sample_fleet_fleet_ok|].
  exact (batch_contents epoch sample_fleet sample_fleet_fleet_ok).
Defined.

Lemma run_batches_fleet_ok (clock : nat -> nat -> string) (m : nat) (s : DataGenerator) :
  Forall fleet_ok (devices s) -> Forall fleet_ok (devices (run_batches clock m s)).
Proof.
  intros Hok. induction m as [|m IH]; [exact Hok|]. simpl run_batches.
  destruct (generate_batch_run (clock m) _ IH) as (rs & s' & E & Hrun).
  rewrite E. cbn [snd]. exact (proj1 (batch_run_keeps _ _ _ _ _ _ _ Hrun IH)).
Qed.

(** X9 — Batch after batch.  On a fleet of well-formed devices with values
    in range, [generate_batch] can be called any number of times: after
    [m] batches the next call returns again and the fleet is still well
    formed and in range. *)
Theorem batches_never_fail (clock : nat -> nat -> string) (m : nat) (s : DataGenerator) :
  Forall fleet_ok (devices s) ->
  exists rs s',
    generate_batch (clock m) (run_batches clock m s) = (Return rs, s')
    /\ Forall fleet_ok (devices s')
    /\ length (devices s') = length (devices s).
Proof.
  intros Hok.
  pose proof (run_batches_fleet_ok clock m s Hok) as Hm.
  destruct (generate_batch_run (clock m) _ Hm) as (rs & s' & E & Hrun).
  exists rs, s'. split; [exact E|].
  destruct (batch_run_keeps _ _ _ _ _ _ _ Hrun Hm) as (H1 & _ & H3 & _).
  split; [exact H1|]. rewrite H3. clear -Hok.
  induction m as [|m IH]; [reflexivity|]. simpl run_batches.
  pose proof (run_batches_fleet_ok clock m s Hok) as Hm.
  destruct (generate_batch_run (clock m) _ Hm) as (rs & s' & E & Hrun).
  rewrite E. cbn [snd].
  destruct (batch_run_keeps _ _ _ _ _ _ _ Hrun Hm) as (_ & _ & H3 & _).
  now rewrite H3.
Qed.

Lemma batches_never_fail_witness :
  Forall fleet_ok (devices sample_fleet)
  /\ exists rs s',
       generate_batch epoch (run_batches (fun _ => epoch) 5 sample_fleet) = (Return rs, s')
       /\ Forall fleet_ok (devices s')
       /\ length (devices s') = length (devices sample_fleet).
Proof.
  split; [exact sample_fleet_fleet_ok|].
  exact (batches_never_fail (fun _ => epoch) 5 sample_fleet sample_fleet_fleet_ok).
Defined.

(** ** Creation of the fleet *)

Lemma perm_swap_middle {A} (l1 l2 : list A) (x y : A) :
  x :: (l1 ++ y :: l2) ≡ₚ (l1 ++ x :: l2) ++ [y].
Proof.
  rewrite <- app_assoc. simpl.
  rewrite <- (Permutation_middle l1 (l2 ++ [y]) x). apply perm_skip.
  apply Permutation_app_head, Permutation_cons_append.
Qed.

Lemma sample_step_perm {A} (pool : list A) (n j : nat) (x y : A) :
  (j <= n)%nat -> pool !! j = Some x -> pool !! n = Some y ->
  x :: take n (<[j := y]> pool) ≡ₚ take (S n) pool.
Proof.
  intros Hj Hx Hy. rewrite (take_S_r pool n y Hy).
  destruct (decide (j = n)) as [->|Hne].
  - rewrite Hx in Hy. injection Hy as <-.
    rewrite (list_insert_id pool n x Hx). apply Permutation_cons_append.
  - assert (Hlt : (j < n)%nat) by lia.
    rewrite take_insert_lt by assumption.
    assert (Hl : take n pool !! j = Some x) by (now rewrite lookup_take_lt).
    assert (Hlen : (j < length (take n pool))%nat) by (eapply lookup_lt_Some; eassumption).
    rewrite insert_take_drop by assumption.
    etransitivity; [apply perm_swap_middle|].
    now rewrite (take_drop_middle (take n pool) j x Hl).
Qed.

Lemma sample_loop_spec {A} (k : nat) :
  forall (live : nat) (pool : list A) (g : Random.state),
    (k <= live)%nat -> (live <= length pool)%nat -> NoDup (take live pool) ->
    exists l g',
      sample_loop k live pool g = (Some l, g')
      /\ length l = k /\ NoDup l
      /\ forall x, In x l -> In x (take live pool).
Proof.
  induction k as [|k IH]; intros live pool g Hk Hlive Hnd.
  - exists [], g. repeat split; [constructor | intros x []].
  - destruct live as [|n]; [lia|].
    cbn [sample_loop]. unfold Random.next.
    set (j := (N.to_nat _ mod S n)%nat).
    assert (Hj : (j < S n)%nat) by (apply Nat.mod_upper_bound; lia).
    destruct (lookup_lt_is_Some_2 pool j) as [x Hx]; [lia|].
    destruct (lookup_lt_is_Some_2 pool n) as [y Hy]; [lia|].
    replace (S n - 1)%nat with n by lia. rewrite Hx, Hy.
    pose proof (sample_step_perm pool n j x y ltac:(lia) Hx Hy) as Hperm.
    assert (Hnd' : NoDup (x :: take n (<[j:=y]> pool))) by (now rewrite Hperm).
    apply NoDup_cons in Hnd'. destruct Hnd' as [Hnin Hnd'].
    destruct (IH n (<[j:=y]> pool)
                {| Random.tape := Random.tape g;
                   Random.calls := Random.calls g ++ [Random.Call_choice (S n)] |})
      as (l & g' & E & Hlen & Hndl & Hsub);
      [lia | rewrite length_insert; lia | exact Hnd' |].
    rewrite E. exists (x :: l), g'. split; [reflexivity|].
    split; [simpl; lia|]. split.
    + apply NoDup_cons. split; [|exact Hndl].
      intros Hin. apply Hnin. apply list_elem_of_In, Hsub, list_elem_of_In, Hin.
    + intros z [<-|Hz].
      * apply list_elem_of_In. rewrite <- Hperm. left.
      * apply list_elem_of_In. rewrite <- Hperm. right.
        apply list_elem_of_In, Hsub, Hz.
Qed.

Lemma random_sample_spec {A} (population : list A) (k : Z) (g : Random.state) :
  (0 <= k <= Z.of_nat (length population))%Z -> NoDup population ->
  exists l g',
    random_sample population k g = (Some l, g')
    /\ Z.of_nat (length l) = k /\ NoDup l
    /\ forall x, In x l -> In x population.
Proof.
  intros Hk Hnd. unfold random_sample.
  replace ((k <? 0) || (Z.of_nat (length population) <? k))%Z with false
    by (symmetry; apply orb_false_iff; split; apply Z.ltb_ge; lia).
  destruct (sample_loop_spec (Z.to_nat k) (length population) population g)
    as (l & g' & E & Hlen & Hndl & Hsub); [lia | lia | now rewrite firstn_all |].
  exists l, g'. split; [exact E|]. split; [lia|]. split; [exact Hndl|].
  intros x Hx. specialize (Hsub x Hx). now rewrite firstn_all in Hsub.
Qed.

Lemma random_randint_spec (a b : Z) (g : Random.state) :
  (a <= b)%Z ->
  exists n g', random_randint a b g = (Some n, g') /\ (a <= n <= b)%Z.
Proof.
  intros Hab. unfold random_randint.
  replace (b <? a)%Z with false by (symmetry; apply Z.ltb_ge; lia).
  unfold Random.next. eexists _, _. split; [reflexivity|].
  set (width := Z.to_nat (b - a + 1)).
  assert (Hm : (N.to_nat (Random.num (Random.tape g (length (Random.calls g))))
                mod width < width)%nat) by (apply Nat.mod_upper_bound; lia).
  lia.
Qed.

Lemma sensor_keys_registered (k : string) :
  In k SENSOR_KEYS <-> is_Some (SENSOR_TYPES !! k).
Proof.
  split.
  - intros H. repeat (destruct H as [<-|H]; [vm_compute; eauto|]). destruct H.
  - intros [c Hc]. apply list_elem_of_In.
    apply (elem_of_dom_2 (D := gset string)) in Hc.
    assert (Hd : dom SENSOR_TYPES = list_to_set SENSOR_KEYS) by (vm_compute; reflexivity).
    rewrite Hd in Hc. now apply elem_of_list_to_set in Hc.
Qed.

Lemma sensor_keys_nodup : NoDup SENSOR_KEYS.
Proof. apply (bool_decide_unpack _). vm_compute. exact I. Qed.

Lemma new_device_spec (uuid_hex : string) (g : Random.state) :
  exists d g',
    new_device uuid_hex g = (Return d, g')
    /\ device_id d = "device_" ++ String.substring 0 8 uuid_hex
    /\ fleet_ok d /\ as_constructed d.
Proof.
  unfold new_device.
  unfold bind at 1. unfold draw at 1.
  rewrite (choice_eq LOCATIONS g) by discriminate.
  set (i := (_ mod length LOCATIONS)%nat).
  assert (Hi : (i < length LOCATIONS)%nat) by (apply Nat.mod_upper_bound; discriminate).
  destruct (lookup_lt_is_Some_2 _ _ Hi) as [loc Hloc]. rewrite Hloc.
  unfold bind at 1. unfold or_raise at 1. unfold ret at 1.
  unfold bind at 1. unfold draw at 1.
  destruct (random_randint_spec (Z.max 1 (Z.of_nat (length SENSOR_KEYS) - 2))
              (Z.of_nat (length SENSOR_KEYS))
              (logged g [Random.Call_choice (length LOCATIONS)]))
    as (n & g1 & En & Hn); [simpl; lia|].
  rewrite En.
  unfold bind at 1. unfold or_raise at 1. unfold ret at 1.
  unfold bind at 1. unfold draw at 1.
  change (Z.max 1 (Z.of_nat (length SENSOR_KEYS) - 2)) with 4%Z in Hn.
  change (Z.of_nat (length SENSOR_KEYS)) with 6%Z in Hn.
  destruct (random_sample_spec SENSOR_KEYS n g1) as (ks & g2 & Es & Hlen & Hnd & Hsub);
    [simpl; lia | exact sensor_keys_nodup |].
  rewrite Es.
  unfold bind at 1. unfold or_raise at 1. unfold ret at 1.
  destruct (SensorDevice_init_spec ("device_" ++ String.substring 0 8 uuid_hex) loc ks g2)
    as (d & g' & E & Hid & Hl & Hk & Hr & Hdom).
  exists d, g'. split; [exact E|]. split; [exact Hid|].
  assert (Hreg : forall k, In k ks -> is_Some (SENSOR_TYPES !! k)).
  { intros k Hin. apply sensor_keys_registered, Hsub, Hin. }
  split; [split; [split|]|].
  - rewrite Hk. intros ->. simpl in Hlen. lia.
  - rewrite Hk. intros k Hin _. apply Hdom. auto.
  - exact Hr.
  - split; [rewrite Hl; apply list_elem_of_In; eapply list_elem_of_lookup_2; exact Hloc|].
    rewrite Hk. split; [exact Hnd|]. split; [lia|]. split; [exact Hreg|].
    intros k. rewrite Hdom. split; [tauto | auto].
Qed.

Lemma new_devices_spec (uuids : nat -> string) (n : nat) :
  forall i acc g,
    exists ds g',
      new_devices uuids i n acc g = (Return (acc ++ ds)%list, g')
      /\ length ds = n
      /\ Forall fleet_ok ds /\ Forall as_constructed ds
      /\ forall j d, ds !! j = Some d ->
           device_id d = "device_" ++ String.substring 0 8 (uuids (i + j)%nat).
Proof.
  induction n as [|n IH]; intros i acc g.
  - exists [], g. simpl. rewrite app_nil_r. repeat split; try constructor.
    intros j d H. rewrite lookup_nil in H. discriminate.
  - cbn [new_devices]. unfold bind at 1.
    destruct (new_device_spec (uuids i) g) as (d & g1 & E & Hid & Hok & Hc).
    rewrite E.
    destruct (IH (S i) (acc ++ [d])%list g1) as (ds & g' & E' & Hlen & Hoks & Hcs & Hids).
    rewrite E', <- app_assoc. exists (d :: ds), g'.
    split; [reflexivity|]. split; [simpl; lia|].
    split; [now constructor|]. split; [now constructor|].
    intros [|j] d' Hj; simpl in Hj.
    + injection Hj as <-. now rewrite Nat.add_0_r.
    + rewrite (Hids j d' Hj). do 3 f_equal. lia.
Qed.

Lemma DataGenerator_init_spec (uuids : nat -> string) (num_devices : Z)
    (g : Random.state) :
  exists s,
    DataGenerator_init uuids num_devices g = (Return s, gen s)
    /\ length (devices s) = Z.to_nat num_devices
    /\ Forall fleet_ok (devices s)
    /\ Forall as_constructed (devices s)
    /\ forall j d, devices s !! j = Some d ->
         device_id d = "device_" ++ String.substring 0 8 (uuids j).
Proof.
  unfold DataGenerator_init.
  destruct (new_devices_spec uuids (Z.to_nat num_devices) 0 [] g)
    as (ds & g' & E & H).
  rewrite E. exists {| devices := ds; gen := g' |}. split; [reflexivity|]. exact H.
Qed.

(** X10 — The fleet as constructed.  [DataGenerator(num_devices)] never
    fails.  It builds [num_devices] devices (none when the number is
    negative), the [j]-th named "device_" followed by the first eight hex
    digits of the [j]-th uuid; each is placed at one of the registered
    sites, supports between four and six distinct kinds, all registered,
    and holds an in-range value for exactly those kinds. *)
Theorem fleet_as_constructed (uuids : nat -> string) (num_devices : Z)
    (g : Random.state) :
  exists s,
    DataGenerator_init uuids num_devices g = (Return s, gen s)
    /\ length (devices s) = Z.to_nat num_devices
    /\ Forall fleet_ok (devices s)
    /\ Forall as_constructed (devices s)
    /\ forall j d, devices s !! j = Some d ->
         device_id d = "device_" ++ String.substring 0 8 (uuids j).
Proof. apply DataGenerator_init_spec. Qed.

(** X11 — A constructed fleet never fails to report.  On the generator
    [DataGenerator(num_devices)] builds, every call of [generate_batch],
    after any number of earlier ones, returns a batch. *)
Theorem constructed_fleet_reports (uuids : nat -> string) (num_devices : Z)
    (g : Random.state) (clock : nat -> nat -> string) (m : nat) :
  exists s rs s',
    DataGenerator_init uuids num_devices g = (Return s, gen s)
    /\ generate_batch (clock m) (run_batches clock m s) = (Return rs, s')
    /\ (length rs <= Z.to_nat num_devices)%nat.
Proof.
  destruct (DataGenerator_init_spec uuids num_devices g) as (s & E & Hlen & Hok & _).
  pose proof (run_batches_fleet_ok clock m s Hok) as Hm.
  destruct (generate_batch_run (clock m) _ Hm) as (rs & s' & Eb & Hrun).
  exists s, rs, s'. split; [exact E|]. split; [exact Eb|].
  destruct (batch_run_keeps _ _ _ _ _ _ _ Hrun Hm) as (_ & Hle & _).
  rewrite <- Hlen.
  assert (Hl : forall m', length (devices (run_batches clock m' s)) = length (devices s)).
  { clear -Hok. induction m' as [|m' IH]; [reflexivity|]. simpl run_batches.
    pose proof (run_batches_fleet_ok clock m' s Hok) as Hm'.
    destruct (generate_batch_run (clock m') _ Hm') as (rs & s' & E & Hrun).
    rewrite E. cbn [snd].
    destruct (batch_run_keeps _ _ _ _ _ _ _ Hrun Hm') as (_ & _ & H3 & _).
    now rewrite H3. }
  now rewrite <- (Hl m).
Qed.

(** On the steady tape the constructor places both devices at the second
    site and gives each five kinds, picked from the pool in the order the
    draws select them. *)
Example constructed_fleet_sample :
  match DataGenerator_init (fun _ => "0123456789abcdef0123456789abcdef") 2 steady_rng with
  | (Return s, _) =>
    map device_id (devices s) = ["device_01234567"; "device_01234567"]
    /\ map (fun d => loc_id (location d)) (devices s) = ["warehouse_b"; "warehouse_b"]
    /\ map sensor_types (devices s)
       = [["humidity"; "battery_level"; "air_quality"; "light_level"; "pressure"];
          ["humidity"; "battery_level"; "air_quality"; "light_level"; "pressure"]]
  | (Raise _, _) => False
  end.
Proof. vm_compute. repeat split. Qed.

(** ** The flat records *)

Lemma list_ascii_of_string_app (a b : string) :
  String.list_ascii_of_string (a ++ b)
  = (String.list_ascii_of_string a ++ String.list_ascii_of_string b)%list.
Proof. induction a as [|c a IH]; simpl; [reflexivity | now rewrite IH]. Qed.

Lemma list_ascii_of_string_inj (a b : string) :
  String.list_ascii_of_string a = String.list_ascii_of_string b -> a = b.
Proof.
  intros H. rewrite <- (String.string_of_list_ascii_of_string a),
              <- (String.string_of_list_ascii_of_string b). now rewrite H.
Qed.

Lemma append_inv_tail (k1 k2 s : string) : k1 ++ s = k2 ++ s -> k1 = k2.
Proof.
  intros H. apply (f_equal String.list_ascii_of_string) in H.
  rewrite !list_ascii_of_string_app in H.
  apply app_inv_tail in H. now apply list_ascii_of_string_inj.
Qed.

(** Reading a column name from its end tells the suffixes apart. *)
Lemma rev_chars_append (k s : string) :
  rev (String.list_ascii_of_string (k ++ s))
  = (rev (String.list_ascii_of_string s) ++ rev (String.list_ascii_of_string k))%list.
Proof. now rewrite list_ascii_of_string_app, rev_app_distr. Qed.

Lemma value_not_unit (k1 k2 : string) : k1 ++ "_value" <> k2 ++ "_unit".
Proof.
  intros H. apply (f_equal (fun s => rev (String.list_ascii_of_string s))) in H.
  rewrite !rev_chars_append in H. simpl in H. discriminate.
Qed.

Lemma fixed_not_sensor (col k : string) :
  In col FIXED_COLUMNS -> col <> k ++ "_value" /\ col <> k ++ "_unit".
Proof.
  intros Hin.
  repeat (destruct Hin as [<-|Hin];
          [split; intros H;
           apply (f_equal (fun s => rev (String.list_ascii_of_string s))) in H;
           rewrite rev_chars_append in H; simpl in H; discriminate|]).
  destruct Hin.
Qed.

Lemma add_sensor_columns_other (items : list (string * SensorReading)) :
  forall acc col,
    (forall k e, In (k, e) items -> col <> k ++ "_value" /\ col <> k ++ "_unit") ->
    add_sensor_columns acc items !! col = acc !! col.
Proof.
  induction items as [|[k0 e0] items IH]; intros acc col Hcol; [reflexivity|].
  unfold add_sensor_columns in *. cbn [foldl]. rewrite IH.
  - destruct (Hcol k0 e0 (or_introl eq_refl)) as [H1 H2].
    rewrite lookup_insert_ne by congruence. now rewrite lookup_insert_ne by congruence.
  - intros k e Hin. apply (Hcol k e). now right.
Qed.

Lemma add_sensor_columns_entry (items : list (string * SensorReading)) :
  forall acc k e,
    NoDup (map fst items) -> In (k, e) items ->
    add_sensor_columns acc items !! (k ++ "_value") = Some (Number (value e))
    /\ add_sensor_columns acc items !! (k ++ "_unit") = Some (Text (unit_ e)).
Proof.
  induction items as [|[k0 e0] items IH]; intros acc k e Hnd Hin; [destruct Hin|].
  cbn [map fst] in Hnd. apply NoDup_cons in Hnd. destruct Hnd as [Hnin Hnd].
  destruct Hin as [Heq|Hin].
  - injection Heq as -> ->.
    unfold add_sensor_columns. cbn [foldl]. fold (add_sensor_columns).
    assert (Hfresh : forall col, (col = k ++ "_value" \/ col = k ++ "_unit") ->
              forall k' e', In (k', e') items ->
                col <> k' ++ "_value" /\ col <> k' ++ "_unit").
    { intros col Hc k' e' Hin'.
      assert (Hne : k <> k').
      { intros ->. apply Hnin. apply list_elem_of_In.
        apply (in_map fst) in Hin'. exact Hin'. }
      destruct Hc as [-> | ->]; split; intros H.
      - apply Hne. eapply append_inv_tail; exact H.
      - eapply value_not_unit; exact H.
      - eapply value_not_unit; symmetry; exact H.
      - apply Hne. eapply append_inv_tail; exact H. }
    change (foldl _ ?a items) with (add_sensor_columns a items).
    rewrite !add_sensor_columns_other by (apply Hfresh; auto).
    split.
    + rewrite lookup_insert_ne by (intros H; eapply value_not_unit; symmetry; exact H).
      now rewrite lookup_insert_eq.
    + now rewrite lookup_insert_eq.
  - unfold add_sensor_columns. cbn [foldl].
    change (foldl _ ?a items) with (add_sensor_columns a items).
    now apply IH.
Qed.

Lemma add_sensor_columns_dom (items : list (string * SensorReading)) :
  forall acc col,
    is_Some (add_sensor_columns acc items !! col) ->
    is_Some (acc !! col)
    \/ exists k e, In (k, e) items /\ (col = k ++ "_value" \/ col = k ++ "_unit").
Proof.
  induction items as [|[k0 e0] items IH]; intros acc col H; [now left|].
  unfold add_sensor_columns in H. cbn [foldl] in H.
  change (foldl _ ?a items) with (add_sensor_columns a items) in H.
  destruct (IH _ _ H) as [H'|(k & e & Hin & Hc)].
  - destruct (decide (col = k0 ++ "_unit")) as [->|N1];
      [right; exists k0, e0; split; [now left | now right]|].
    rewrite lookup_insert_ne in H' by congruence.
    destruct (decide (col = k0 ++ "_value")) as [->|N2];
      [right; exists k0, e0; split; [now left | now left]|].
    rewrite lookup_insert_ne in H' by congruence. now left.
  - right. exists k, e. split; [now right | exact Hc].
Qed.

Lemma flat_record_spec (record : Reading) (items : list (string * SensorReading)) :
  items ≡ₚ map_to_list (readings record) ->
  flat_of record (flat_record record items).
Proof.
  intros Hperm.
  assert (Hnd : NoDup (map fst items)).
  { apply NoDup_ListNoDup. rewrite Hperm. apply NoDup_ListNoDup, NoDup_fst_map_to_list. }
  assert (Hin : forall k e, In (k, e) items <-> readings record !! k = Some e).
  { intros k e. rewrite <- list_elem_of_In, Hperm. apply elem_of_map_to_list. }
  assert (Hfixed : forall col, In col FIXED_COLUMNS ->
            flat_record record items !! col = flat_record record [] !! col).
  { intros col Hc. unfold flat_record. apply add_sensor_columns_other.
    intros k e _. now apply fixed_not_sensor. }
  assert (Hnone : forall col, ~ In col FIXED_COLUMNS ->
            flat_record record [] !! col = None).
  { intros col Hc. unfold flat_record, add_sensor_columns. cbn [foldl].
    unfold FIXED_COLUMNS in Hc. cbn [In] in Hc.
    repeat (rewrite lookup_insert_ne by (intros <-; apply Hc; tauto)).
    apply lookup_empty. }
  assert (Hsensor : forall k, ~ In (k ++ "_value") FIXED_COLUMNS
                              /\ ~ In (k ++ "_unit") FIXED_COLUMNS).
  { intros k. split; intros H; apply (fixed_not_sensor _ k) in H;
      destruct H as [H1 H2]; congruence. }
  unfold flat_of.
  repeat (split; [rewrite Hfixed by (unfold FIXED_COLUMNS; simpl; tauto);
                  vm_compute; reflexivity|]).
  split; [|split].
  - intros k. destruct (readings record !! k) as [e|] eqn:He; cbn [fmap option_fmap option_map].
    + apply (add_sensor_columns_entry items _ k e Hnd). now apply Hin.
    + unfold flat_record. rewrite add_sensor_columns_other.
      * apply (Hnone (k ++ "_value")), Hsensor.
      * intros k' e' Hin'. apply Hin in Hin'. split; intros H.
        -- apply append_inv_tail in H. subst k'. rewrite He in Hin'. discriminate.
        -- eapply value_not_unit; exact H.
  - intros k. destruct (readings record !! k) as [e|] eqn:He; cbn [fmap option_fmap option_map].
    + apply (add_sensor_columns_entry items _ k e Hnd). now apply Hin.
    + unfold flat_record. rewrite add_sensor_columns_other.
      * apply (Hnone (k ++ "_unit")), Hsensor.
      * intros k' e' Hin'. apply Hin in Hin'. split; intros H.
        -- eapply value_not_unit; symmetry; exact H.
        -- apply append_inv_tail in H. subst k'. rewrite He in Hin'. discriminate.
  - intros col Hcol. unfold flat_record in Hcol.
    destruct (add_sensor_columns_dom _ _ _ Hcol) as [H|(k & e & Hke & Hc)].
    + left. destruct (in_dec String.string_dec col FIXED_COLUMNS) as [Hy|Hn]; [exact Hy|].
      apply Hnone in Hn. unfold flat_record, add_sensor_columns in Hn.
      cbn [foldl] in Hn. rewrite Hn in H. destruct H; discriminate.
    + right. exists k. split; [|exact Hc]. apply Hin in Hke. rewrite Hke. eauto.
Qed.

(** X12 — The flat records of [save_to_csv].  Whatever the order in which
    the dictionaries of readings yield their entries, [flattened_data] has
    one flat record per record, in the same order, and the flat record of
    a record holds its seven fixed columns, a [<kind>_value] and a
    [<kind>_unit] column for each kind the record reports, with the value
    and the unit of that reading, and no other column. *)
Theorem flattened_rows (order : Reading -> list (string * SensorReading))
    (data : list Reading) :
  (forall r, In r data -> order r ≡ₚ map_to_list (readings r)) ->
  length (flattened_data order data) = length data
  /\ forall i r, data !! i = Some r ->
       exists flat, flattened_data order data !! i = Some flat /\ flat_of r flat.
Proof.
  intros Hord. unfold flattened_data. split; [apply length_map|].
  intros i r Hi. exists (flat_record r (order r)). split.
  - rewrite list_lookup_fmap, Hi. reflexivity.
  - apply flat_record_spec, Hord. apply list_elem_of_In.
    eapply list_elem_of_lookup_2; exact Hi.
Qed.

Lemma flattened_rows_witness :
  (forall r, In r [sample_record; sample_record] ->
     map_to_list (readings r) ≡ₚ map_to_list (readings r))
  /\ length (flattened_data (fun r => map_to_list (readings r))
               [sample_record; sample_record]) = 2%nat
  /\ forall i r, [sample_record; sample_record] !! i = Some r ->
       exists flat,
         flattened_data (fun r => map_to_list (readings r))
           [sample_record; sample_record] !! i = Some flat
         /\ flat_of r flat.
Proof.
  split; [intros r _; reflexivity|].
  apply (flattened_rows (fun r => map_to_list (readings r))
           [sample_record; sample_record]).
  intros r _; reflexivity.
Defined.

Lemma flat_of_unique (record : Reading) (f1 f2 : gmap string Cell) :
  flat_of record f1 -> flat_of record f2 -> f1 = f2.
Proof.
  intros H1 H2. apply map_eq. intros col.
  assert (Hsome : forall f g, flat_of record f -> flat_of record g ->
            is_Some (f !! col) -> f !! col = g !! col).
  { intros f g (F1 & F2 & F3 & F4 & F5 & F6 & F7 & Fv & Fu & Fd)
             (G1 & G2 & G3 & G4 & G5 & G6 & G7 & Gv & Gu & Gd) Hs.
    destruct (Fd col Hs) as [Hfix|(k & _ & [-> | ->])].
    - unfold FIXED_COLUMNS in Hfix. cbn [In] in Hfix.
      destruct Hfix as [<-|[<-|[<-|[<-|[<-|[<-|[<-|[]]]]]]]]; congruence.
    - now rewrite Fv, Gv.
    - now rewrite Fu, Gu. }
  destruct (f1 !! col) as [c1|] eqn:E1.
  - rewrite <- E1. apply Hsome; [exact H1 | exact H2 | rewrite E1; eauto].
  - destruct (f2 !! col) as [c2|] eqn:E2; [|reflexivity].
    rewrite <- E1, <- E2. symmetry.
    apply Hsome; [exact H2 | exact H1 | rewrite E2; eauto].
Qed.

Lemma add_sensor_columns_size (items : list (string * SensorReading)) :
  forall acc,
    NoDup (map fst items) ->
    (forall k e, In (k, e) items ->
       acc !! (k ++ "_value") = None /\ acc !! (k ++ "_unit") = None) ->
    size (add_sensor_columns acc items) = (size acc + 2 * length items)%nat.
Proof.
  induction items as [|[k0 e0] items IH]; intros acc Hnd Hfresh.
  - unfold add_sensor_columns. cbn [foldl length]. lia.
  - cbn [map fst] in Hnd. apply NoDup_cons in Hnd. destruct Hnd as [Hnin Hnd].
    destruct (Hfresh k0 e0 (or_introl eq_refl)) as [Hv Hu].
    unfold add_sensor_columns. cbn [foldl].
    change (foldl _ ?a items) with (add_sensor_columns a items).
    rewrite IH; [|exact Hnd|].
    + rewrite !map_size_insert_None.
      * cbn [length]. lia.
      * exact Hv.
      * rewrite lookup_insert_ne; [exact Hu|].
        intros H. eapply value_not_unit; exact H.
    + intros k e Hin.
      assert (Hne : k0 <> k).
      { intros ->. apply Hnin. apply list_elem_of_In.
        apply (in_map fst) in Hin. exact Hin. }
      destruct (Hfresh k e (or_intror Hin)) as [Hv' Hu'].
      split.
      * rewrite lookup_insert_ne
          by (intros H; eapply value_not_unit; symmetry; exact H).
        rewrite lookup_insert_ne
          by (intros H; apply Hne; eapply append_inv_tail; exact H).
        exact Hv'.
      * rewrite lookup_insert_ne
          by (intros H; apply Hne; eapply append_inv_tail; exact H).
        rewrite lookup_insert_ne
          by (intros H; eapply value_not_unit; exact H).
        exact Hu'.
Qed.

Lemma flat_record_fixed_only (record : Reading) (col : string) :
  ~ In col FIXED_COLUMNS -> flat_record record [] !! col = None.
Proof.
  intros Hc. unfold flat_record, add_sensor_columns. cbn [foldl].
  unfold FIXED_COLUMNS in Hc. cbn [In] in Hc.
  repeat (rewrite lookup_insert_ne by (intros <-; apply Hc; tauto)).
  apply lookup_empty.
Qed.

Lemma flat_record_fixed_size (record : Reading) :
  size (flat_record record []) = 7%nat.
Proof.
  unfold flat_record, add_sensor_columns. cbn [foldl].
  repeat (rewrite map_size_insert_None;
          [|repeat (rewrite lookup_insert_ne by discriminate); apply lookup_empty]).
  reflexivity.
Qed.

(** X13 — The columns of a flat record.  The flat record [save_to_csv]
    builds does not depend on the order in which the dictionary of readings
    yields its entries, and it has seven columns and two more for each kind
    the record reports. *)
Theorem flat_record_columns (record : Reading)
    (items : list (string * SensorReading)) :
  items ≡ₚ map_to_list (readings record) ->
  flat_record record items = flat_record record (map_to_list (readings record))
  /\ size (flat_record record items) = (7 + 2 * size (readings record))%nat.
Proof.
  intros Hperm. split.
  - apply (flat_of_unique record); apply flat_record_spec; [exact Hperm | reflexivity].
  - unfold flat_record at 1.
    rewrite add_sensor_columns_size.
    + fold (add_sensor_columns). 
      change (size (flat_record record []) + 2 * length items
              = 7 + 2 * size (readings record))%nat.
      rewrite flat_record_fixed_size, Hperm, length_map_to_list. reflexivity.
    + apply NoDup_ListNoDup. rewrite Hperm.
      apply NoDup_ListNoDup, NoDup_fst_map_to_list.
    + intros k e _.
      assert (Hs : ~ In (k ++ "_value") FIXED_COLUMNS
                   /\ ~ In (k ++ "_unit") FIXED_COLUMNS).
      { split; intros H; apply (fixed_not_sensor _ k) in H;
          destruct H as [H1 H2]; congruence. }
      split; [apply (flat_record_fixed_only record), Hs
             |apply (flat_record_fixed_only record), Hs].
Qed.

Lemma flat_record_columns_witness :
  reverse (map_to_list (readings sample_record))
    ≡ₚ map_to_list (readings sample_record)
  /\ flat_record sample_record (reverse (map_to_list (readings sample_record)))
     = flat_record sample_record (map_to_list (readings sample_record))
  /\ size (flat_record sample_record
             (reverse (map_to_list (readings sample_record))))
     = (7 + 2 * size (readings sample_record))%nat.
Proof.
  split; [apply reverse_Permutation|].
  apply (flat_record_columns sample_record), reverse_Permutation.
Defined.

(** ** The dashboard *)

Section ConversionFacts.
Import Dashboard.

Context {datetime : Type}.

(** Induction on an item, with the property known of the elements of a list
    and of the values of a dict. *)
Lemma item_nested_ind (P : item datetime -> Prop) :
  (forall v, P (Dec v)) ->
  (forall s, P (Str s)) ->
  (forall b, P (Bool b)) ->
  P Null ->
  (forall n, P (Int n)) ->
  (forall x, P (Float x)) ->
  (forall t, P (Datetime t)) ->
  (forall b, P (Binary b)) ->
  (forall l, P (StringSet l)) ->
  (forall l, P (NumberSet l)) ->
  (forall l, P (BinarySet l)) ->
  (forall l, Forall P l -> P (List l)) ->
  (forall kvs, Forall (fun kv => P (snd kv)) kvs -> P (Dict kvs)) ->
  forall it, P it.
Proof.
  intros HDec HStr HBool HNull HInt HFloat HDt HBin HSS HNS HBS HList HDict.
  fix IH 1. intros [v|s|b| |n|x|t|b|l|l|l|l|kvs].
  - apply HDec.
  - apply HStr.
  - apply HBool.
  - apply HNull.
  - apply HInt.
  - apply HFloat.
  - apply HDt.
  - apply HBin.
  - apply HSS.
  - apply HNS.
  - apply HBS.
  - apply HList. induction l as [|a l IHl]; constructor; [apply IH | exact IHl].
  - apply HDict.
    induction kvs as [|[k v] kvs IHk]; constructor; [apply IH | exact IHk].
Qed.

(** *** Loops that may raise *)

Lemma mapM_cons {A B : Type} (f : A -> outcome B) (a : A) (l : list A) :
  mapM f (a :: l)
  = match f a with
    | Return b =>
      match mapM f l with
      | Return bs => Return (b :: bs)
      | Raise e => Raise e
      end
    | Raise e => Raise e
    end.
Proof. reflexivity. Qed.

Lemma mapM_ext {A B : Type} (f g : A -> outcome B) (l : list A) :
  (forall a, f a = g a) -> mapM f l = mapM g l.
Proof.
  intros H. induction l as [|a l IH]; [reflexivity|].
  now rewrite !mapM_cons, H, IH.
Qed.

Lemma mapM_Return {A B : Type} (f : A -> outcome B) (l : list A) (l' : list B) :
  mapM f l = Return l' -> Forall2 (fun a b => f a = Return b) l l'.
Proof.
  revert l'. induction l as [|a l IH]; intros l' E.
  - injection E as <-. constructor.
  - rewrite mapM_cons in E. destruct (f a) as [b|e] eqn:Ea; [|discriminate].
    destruct (mapM f l) as [bs|e]; [|discriminate].
    injection E as <-. constructor; [exact Ea | now apply IH].
Qed.

Lemma mapM_Raise {A B : Type} (f : A -> outcome B) (l : list A) (e : exn) :
  mapM f l = Raise e -> exists a, In a l /\ f a = Raise e.
Proof.
  induction l as [|a l IH]; intros E; [discriminate|].
  rewrite mapM_cons in E. destruct (f a) as [b|e'] eqn:Ea.
  - destruct (mapM f l) as [bs|e'']; [discriminate|].
    injection E as ->. destruct (IH eq_refl) as (a' & Hin & Ha').
    exists a'. split; [now right | exact Ha'].
  - injection E as ->. exists a. split; [now left | exact Ea].
Qed.

Lemma mapM_fixed {A : Type} (f : A -> outcome A) (l : list A) :
  Forall (fun a => f a = Return a) l -> mapM f l = Return l.
Proof.
  induction 1 as [|a l Ha _ IH]; [reflexivity|].
  now rewrite mapM_cons, Ha, IH.
Qed.

Lemma mapM_length {A B : Type} (f : A -> outcome B) (l : list A) (l' : list B) :
  mapM f l = Return l' -> length l' = length l.
Proof.
  intros E. apply mapM_Return in E.
  induction E as [|a b l l' _ _ IH]; [reflexivity|]. cbn [length]. now rewrite IH.
Qed.

Variable fromisoformat : string -> option datetime.
Variable to_float : Decimal -> Q.

Local Abbreviation convert := (convert_dynamodb_item fromisoformat to_float).
Local Abbreviation value_of := (convert_value fromisoformat to_float).

(** The entry the loop over a dictionary makes of an entry. *)
Local Abbreviation entry_of :=
  (fun kv : string * item datetime =>
     match value_of (fst kv) (snd kv) with
     | Return v' => Return (fst kv, v')
     | Raise e => Raise e
     end).

Lemma convert_List (l : list (item datetime)) :
  convert (List l)
  = match mapM convert l with
    | Return l' => Return (List l')
    | Raise e => Raise e
    end.
Proof. reflexivity. Qed.

Lemma convert_Dict (kvs : list (string * item datetime)) :
  convert (Dict kvs)
  = match mapM entry_of kvs with
    | Return new_dict => Return (Dict new_dict)
    | Raise e => Raise e
    end.
Proof.
  cbn [convert_dynamodb_item].
  erewrite mapM_ext; [reflexivity|]. intros [k v]. reflexivity.
Qed.

Lemma is_whole_oversized (d : Decimal) :
  is_whole d = if oversized d then Raise InvalidOperation
               else Return (remainder_is_zero d).
Proof. reflexivity. Qed.

(** When the conversion returns and when it raises, and the [Decimal]s its
    result holds. *)
Lemma convert_spec (it : item datetime) :
  match convert it with
  | Return r => oversized_under_key it = false
                /\ has_decimal r = exposed_decimal it
  | Raise e => e = InvalidOperation /\ oversized_under_key it = true
  end.
Proof.
  induction it as [v|s|b| |n|x|t|b|l|l|l|l IHl|kvs IHk] using item_nested_ind;
    try (cbn; split; reflexivity).
  - rewrite convert_List.
    cbn [oversized_under_key exposed_decimal].
    induction IHl as [|a l Ha _ IH]; [cbn; split; reflexivity|].
    rewrite mapM_cons. cbn [existsb].
    destruct (convert a) as [a'|e].
    + destruct Ha as [Ha1 Ha2]. rewrite Ha1, <- Ha2.
      destruct (mapM convert l) as [l'|e].
      * destruct IH as [IH1 IH2]. cbn [has_decimal existsb] in *.
        rewrite IH1, IH2. split; reflexivity.
      * destruct IH as [-> IH2]. rewrite IH2. split; reflexivity.
    + destruct Ha as [-> Ha2]. rewrite Ha2. split; reflexivity.
  - rewrite convert_Dict.
    cbn [oversized_under_key exposed_decimal].
    induction IHk as [|[k v] kvs Hv _ IH]; [cbn; split; reflexivity|].
    rewrite mapM_cons. cbn [existsb fst snd] in *.
    assert (Hval :
      match value_of k v with
      | Return v' =>
        match v with Dec d => oversized d | _ => oversized_under_key v end = false
        /\ has_decimal v'
           = match v with Dec _ => false | _ => exposed_decimal v end
      | Raise e =>
        e = InvalidOperation
        /\ match v with Dec d => oversized d | _ => oversized_under_key v end = true
      end).
    { destruct v; try exact Hv.
      - unfold convert_value. rewrite is_whole_oversized.
        destruct (oversized v); [split; reflexivity|].
        destruct (remainder_is_zero v); split; reflexivity.
      - unfold convert_value. destruct (String.eqb k "timestamp"); [|exact Hv].
        destruct (fromisoformat s); split; reflexivity. }
    destruct (value_of k v) as [v'|e].
    + destruct Hval as [H1 H2]. rewrite H1, <- H2.
      destruct (mapM entry_of kvs) as [kvs'|e].
      * destruct IH as [IH1 IH2]. cbn [has_decimal existsb snd] in *.
        rewrite IH1, IH2. split; reflexivity.
      * destruct IH as [-> IH2]. rewrite IH2. split; reflexivity.
    + destruct Hval as [-> H2]. rewrite H2. split; reflexivity.
Qed.

(** X14 — What the conversion raises and what it leaves.
    [convert_dynamodb_item] raises [InvalidOperation], and nothing else,
    exactly when a [Decimal] whose integer part has more than 28 digits is
    the value of a dictionary key it reaches.  When it returns, a
    [Decimal] occurs in the result exactly when the item had one that is
    not the value of a dictionary key: the item itself, an element of a
    list or a member of a number set, at any depth. *)
Theorem decimals_left (it : item datetime) :
  match convert it with
  | Return r => oversized_under_key it = false
                /\ has_decimal r = exposed_decimal it
  | Raise e => e = InvalidOperation /\ oversized_under_key it = true
  end.
Proof. exact (convert_spec it). Qed.

Lemma value_of_fixed (k : string) (v v' : item datetime) :
  (forall r, convert v = Return r -> convert r = Return r) ->
  value_of k v = Return v' -> value_of k v' = Return v'.
Proof.
  intros IH E. destruct v.
  - unfold convert_value in E.
    destruct (is_whole v) as [[|]|e]; try discriminate E;
      injection E as <-; reflexivity.
  - unfold convert_value in E. destruct (String.eqb k "timestamp") eqn:Ek.
    + injection E as <-. destruct (fromisoformat s) eqn:F; [reflexivity|].
      unfold convert_value. now rewrite Ek, F.
    + injection E as <-. unfold convert_value. now rewrite Ek.
  - injection E as <-; reflexivity.
  - injection E as <-; reflexivity.
  - injection E as <-; reflexivity.
  - injection E as <-; reflexivity.
  - injection E as <-; reflexivity.
  - injection E as <-; reflexivity.
  - injection E as <-; reflexivity.
  - injection E as <-; reflexivity.
  - injection E as <-; reflexivity.
  - change (convert (List l) = Return v') in E. pose proof (IH _ E) as E'.
    rewrite convert_List in E. destruct (mapM convert l); [|discriminate].
    injection E as <-. exact E'.
  - change (convert (Dict kvs) = Return v') in E. pose proof (IH _ E) as E'.
    rewrite convert_Dict in E. destruct (mapM entry_of kvs); [|discriminate].
    injection E as <-. exact E'.
Qed.

Lemma convert_fixed (it : item datetime) :
  forall r, convert it = Return r -> convert r = Return r.
Proof.
  induction it as [v|s|b| |n|x|t|b|l|l|l|l IHl|kvs IHk] using item_nested_ind;
    intros r E; try (injection E as <-; reflexivity).
  - rewrite convert_List in E.
    destruct (mapM convert l) as [l'|e] eqn:El; [|discriminate].
    injection E as <-. rewrite convert_List, mapM_fixed; [reflexivity|].
    apply mapM_Return in El. clear -El IHl.
    induction El as [|a b l l' Hab _ IH]; [constructor|].
    apply Forall_cons in IHl. destruct IHl as [Ha IHl].
    constructor; [exact (Ha _ Hab) | exact (IH IHl)].
  - rewrite convert_Dict in E.
    destruct (mapM entry_of kvs) as [kvs'|e] eqn:El; [|discriminate].
    injection E as <-. rewrite convert_Dict, mapM_fixed; [reflexivity|].
    apply mapM_Return in El. clear -El IHk.
    induction El as [|[k v] [k' v'] kvs kvs' Hab _ IH]; [constructor|].
    apply Forall_cons in IHk. destruct IHk as [Hv IHk].
    constructor; [|exact (IH IHk)].
    cbn [fst snd] in *.
    destruct (value_of k v) as [v0|e] eqn:Ev; [|discriminate].
    injection Hab as <- <-.
    now rewrite (value_of_fixed k v v0 Hv Ev).
Qed.

(** X15 — Converting twice.  When [convert_dynamodb_item] returns, the
    function applied to its result returns it unchanged: numbers, dates,
    sets and the strings that did not parse stay as the first pass left
    them, and the second pass cannot raise. *)
Theorem convert_idempotent (it r : item datetime) :
  convert it = Return r -> convert r = Return r.
Proof. apply convert_fixed. Qed.

(** Conversion works key by key: what [get] finds under a key of the
    converted dict is what the loop stored for the value found under it. *)
Lemma dict_get_convert (kvs kvs' : list (string * item datetime)) (key : string) :
  mapM entry_of kvs = Return kvs' ->
  match dict_get kvs key with
  | Some v => exists v', value_of key v = Return v' /\ dict_get kvs' key = Some v'
  | None => dict_get kvs' key = None
  end.
Proof.
  revert kvs'. induction kvs as [|[k v] kvs IH]; intros kvs' E.
  - injection E as <-. reflexivity.
  - rewrite mapM_cons in E. cbn [fst snd] in E.
    destruct (value_of k v) as [v'|e] eqn:Ev; [|discriminate].
    destruct (mapM entry_of kvs) as [rest|e]; [|discriminate].
    injection E as <-. cbn [dict_get].
    destruct (String.eqb k key) eqn:Ek.
    + apply String.eqb_eq in Ek. subst k. exists v'. split; [exact Ev | reflexivity].
    + exact (IH rest eq_refl).
Qed.

Lemma dict_get_In (kvs : list (string * item datetime)) (key : string)
    (v : item datetime) :
  dict_get kvs key = Some v -> In (key, v) kvs.
Proof.
  induction kvs as [|[k v0] kvs IH]; [discriminate|]. cbn [dict_get].
  destruct (String.eqb k key) eqn:Ek.
  - apply String.eqb_eq in Ek. subst k. intros [= ->]. now left.
  - intros H. right. now apply IH.
Qed.

Lemma to_int_exact (d : Decimal) :
  is_whole d = Return true -> (ETINY <= exponent d)%Z ->
  inject_Z (to_int d) == decimal_value d.
Proof.
  rewrite is_whole_oversized. destruct (oversized d); [discriminate|].
  unfold remainder_is_zero, to_int, decimal_value.
  destruct (0 <=? exponent d)%Z eqn:E; [reflexivity|].
  intros H Ht. apply Z.leb_le in Ht. rewrite Ht in H.
  injection H as H. apply Z.eqb_eq in H. apply Z.leb_gt in E.
  assert (Hp : (0 < 10 ^ (- exponent d))%Z) by (apply Z.pow_pos_nonneg; lia).
  unfold Qeq. cbn [Qnum Qden inject_Z]. rewrite Z2Pos.id by exact Hp.
  rewrite Z.mul_1_r.
  apply Z.rem_mod_eq_0 in H; [|lia].
  apply Z.quot_exact in H; [|lia]. lia.
Qed.

Lemma extract_convert (reading_dict converted : item datetime) (sensor_name : string) :
  convert reading_dict = Return converted ->
  match extract_sensor_value reading_dict sensor_name with
  | Dec d =>
    exists b, is_whole d = Return b
              /\ extract_sensor_value converted sensor_name
                 = if b then Int (to_int d) else Float (to_float d)
  | v => convert v = Return (extract_sensor_value converted sensor_name)
  end.
Proof.
  intros E.
  destruct reading_dict as [v|s|b| |n|x|t|b|l|l|l|l|kvs];
    try (injection E as <-; reflexivity).
  - rewrite convert_List in E. destruct (mapM convert l); [|discriminate].
    injection E as <-. reflexivity.
  - rewrite convert_Dict in E.
    destruct (mapM entry_of kvs) as [kvs'|e] eqn:Ek; [|discriminate].
    injection E as <-. unfold extract_sensor_value.
    pose proof (dict_get_convert kvs kvs' sensor_name Ek) as H.
    destruct (dict_get kvs sensor_name) as [v|]; [|now rewrite H].
    destruct H as (v' & Hv & ->).
    destruct v as [d|s|b| |n|x|t|b|l|l|l|l|reading];
      try (injection Hv as <-; reflexivity).
    + unfold convert_value in Hv.
      destruct (is_whole d) as [[|]|e]; try discriminate Hv;
        injection Hv as <-; reflexivity.
    + unfold convert_value in Hv.
      destruct (String.eqb sensor_name "timestamp").
      * injection Hv as <-. now destruct (fromisoformat s).
      * injection Hv as <-. reflexivity.
    + change (convert (List l) = Return v') in Hv. rewrite convert_List in Hv.
      destruct (mapM convert l); [|discriminate]. injection Hv as <-. reflexivity.
    + change (convert (Dict reading) = Return v') in Hv. rewrite convert_Dict in Hv.
      destruct (mapM entry_of reading) as [reading'|e] eqn:Er; [|discriminate].
      injection Hv as <-.
      pose proof (dict_get_convert reading reading' "value" Er) as H.
      destruct (dict_get reading "value") as [v|]; [|now rewrite H].
      destruct H as (v' & Hv & ->).
      destruct v as [d|s|b| |n|x|t|b|l|l|l|l|inner]; try exact Hv.
      unfold convert_value in Hv.
      destruct (is_whole d) as [[|]|e]; try discriminate Hv;
        injection Hv as <-; eexists; split; reflexivity.
Qed.

(** X16 — The sensor value of a converted item.  When the conversion of
    the readings returns, [extract_sensor_value] on the converted readings
    gives the conversion of what it gives on the readings themselves: the
    [int] or the [float] for a [Decimal], [None] where the readings are no
    dictionary, or the kind, its dictionary or its ['value'] is missing. *)
Theorem extract_after_convert (reading_dict converted : item datetime)
    (sensor_name : string) :
  convert reading_dict = Return converted ->
  match extract_sensor_value reading_dict sensor_name with
  | Dec d =>
    exists b, is_whole d = Return b
              /\ extract_sensor_value converted sensor_name
                 = if b then Int (to_int d) else Float (to_float d)
  | v => convert v = Return (extract_sensor_value converted sensor_name)
  end.
Proof. apply extract_convert. Qed.

(** X17 — The number the dashboard plots.  Where the readings hold a
    [Decimal] as the ['value'] of a kind: if its integer part has more
    than 28 digits the conversion of the readings raises
    [InvalidOperation]; otherwise, when the conversion returns,
    [extract_sensor_value] gives [int(v)] when [v % 1 == 0] holds and
    [float(v)] when it does not; and the [int] has exactly the value of
    the [Decimal] whenever its exponent is [Etiny] or more, as that of
    every number a table holds is. *)
Theorem plotted_value (kvs reading : list (string * item datetime))
    (sensor_name : string) (d : Decimal) :
  dict_get kvs sensor_name = Some (Dict reading) ->
  dict_get reading "value" = Some (Dec d) ->
  (oversized d = true -> convert (Dict kvs) = Raise InvalidOperation)
  /\ forall converted,
       convert (Dict kvs) = Return converted ->
       oversized d = false
       /\ exists b,
            is_whole d = Return b
            /\ if b
               then extract_sensor_value converted sensor_name = Int (to_int d)
                    /\ ((ETINY <= exponent d)%Z ->
                        inject_Z (to_int d) == decimal_value d)
               else extract_sensor_value converted sensor_name
                    = Float (to_float d).
Proof.
  intros Hk Hv.
  assert (Hover : oversized d = true -> oversized_under_key (Dict kvs) = true).
  { intros Ho. cbn [oversized_under_key]. apply existsb_exists.
    exists (sensor_name, Dict reading). split; [now apply dict_get_In|].
    cbn [snd oversized_under_key]. apply existsb_exists.
    exists ("value", Dec d). split; [now apply dict_get_In | exact Ho]. }
  pose proof (convert_spec (Dict kvs)) as Hspec.
  split.
  - intros Ho. destruct (convert (Dict kvs)) as [r|e].
    + destruct Hspec as [Hno _]. rewrite (Hover Ho) in Hno. discriminate.
    + now destruct Hspec as [-> _].
  - intros converted E. rewrite E in Hspec. destruct Hspec as [Hno _].
    assert (Hd : oversized d = false).
    { destruct (oversized d); [|reflexivity]. now rewrite Hover in Hno. }
    split; [exact Hd|].
    pose proof (extract_convert (Dict kvs) converted sensor_name E) as H.
    unfold extract_sensor_value at 1 in H. rewrite Hk, Hv in H.
    destruct H as (b & Hb & Hx). exists b. split; [exact Hb|].
    destruct b; [|exact Hx]. split; [exact Hx | now apply to_int_exact].
Qed.

End ConversionFacts.

Lemma plotted_value_witness :
  dict_get sample_readings "battery_level"
  = Some (Dashboard.Dict sample_battery_reading)
  /\ dict_get sample_battery_reading "value"
     = Some (Dashboard.Dec (Dashboard.mk_decimal 800 (-1)))
  /\ (oversized (Dashboard.mk_decimal 800 (-1)) = true ->
      Dashboard.convert_dynamodb_item (fun _ => None) decimal_value
        (Dashboard.Dict sample_readings) = Raise InvalidOperation)
  /\ forall converted,
       Dashboard.convert_dynamodb_item (fun _ => None) decimal_value
         (Dashboard.Dict sample_readings) = Return converted ->
       oversized (Dashboard.mk_decimal 800 (-1)) = false
       /\ exists b,
            Dashboard.is_whole (Dashboard.mk_decimal 800 (-1)) = Return b
            /\ if b
               then extract_sensor_value converted "battery_level"
                    = Dashboard.Int (Dashboard.to_int (Dashboard.mk_decimal 800 (-1)))
                    /\ ((Dashboard.ETINY <= -1)%Z ->
                        inject_Z (Dashboard.to_int (Dashboard.mk_decimal 800 (-1)))
                        == decimal_value (Dashboard.mk_decimal 800 (-1)))
               else extract_sensor_value converted "battery_level"
                    = Dashboard.Float (decimal_value (Dashboard.mk_decimal 800 (-1))).
Proof.
  split; [reflexivity|]. split; [reflexivity|].
  apply (plotted_value (fun _ => None) decimal_value sample_readings
           sample_battery_reading "battery_level" (Dashboard.mk_decimal 800 (-1)));
    reflexivity.
Defined.

(** The sample readings convert, whatever [float] makes of 20.5. *)
Lemma sample_readings_converted (to_float : Dashboard.Decimal -> Q) :
  Dashboard.convert_dynamodb_item (fun _ => None) to_float
    (Dashboard.Dict sample_readings)
  = Return (sample_converted to_float).
Proof. reflexivity. Qed.

(** In the samples [float] is taken without rounding. *)
Lemma convert_idempotent_witness :
  Dashboard.convert_dynamodb_item (fun _ => None) decimal_value
    (Dashboard.Dict sample_readings)
  = Return (sample_converted decimal_value)
  /\ Dashboard.convert_dynamodb_item (fun _ => None) decimal_value
       (sample_converted decimal_value)
     = Return (sample_converted decimal_value).
Proof.
  split; [reflexivity|].
  apply (convert_idempotent (fun _ => None) decimal_value
           (Dashboard.Dict sample_readings) (sample_converted decimal_value)).
  reflexivity.
Defined.

Lemma extract_after_convert_witness :
  Dashboard.convert_dynamodb_item (fun _ => None) decimal_value
    (Dashboard.Dict sample_readings)
  = Return (sample_converted decimal_value)
  /\ exists b,
       Dashboard.is_whole (Dashboard.mk_decimal 205 (-1)) = Return b
       /\ extract_sensor_value (sample_converted decimal_value) "temperature"
          = if b then Dashboard.Int (Dashboard.to_int (Dashboard.mk_decimal 205 (-1)))
            else Dashboard.Float (decimal_value (Dashboard.mk_decimal 205 (-1))).
Proof.
  split; [reflexivity|].
  apply (extract_after_convert (fun _ => None) decimal_value
           (Dashboard.Dict sample_readings) (sample_converted decimal_value)
           "temperature").
  reflexivity.
Defined.

(** The test [v % 1 == 0] at the edge of the context: 28 digits pass, with
    or without a fractional part, and 29 do not. *)
Example is_whole_at_the_edge :
  Dashboard.is_whole (Dashboard.mk_decimal 9999999999999999999999999999 0)
  = Return true
  /\ Dashboard.is_whole (Dashboard.mk_decimal 99999999999999999999999999995 (-1))
     = Return false
  /\ Dashboard.is_whole (Dashboard.mk_decimal 1 28) = Raise InvalidOperation
  /\ Dashboard.is_whole (Dashboard.mk_decimal (-1) 28) = Raise InvalidOperation
  /\ Dashboard.is_whole (Dashboard.mk_decimal 0 40) = Return true.
Proof. repeat split; reflexivity. Qed.

(** A reading of 29 digits: the item does not convert. *)
Example oversized_reading_raises :
  Dashboard.convert_dynamodb_item (datetime := ()) (fun _ => None) decimal_value
    (Dashboard.Dict
       [("readings",
         Dashboard.Dict
           [("counter",
             Dashboard.Dict
               [("value",
                 Dashboard.Dec
                   (Dashboard.mk_decimal 12345678901234567890123456789 0))])])])
  = Raise InvalidOperation.
Proof. reflexivity. Qed.

(** ** Gathering the items *)

Section FetchFacts.

Context {datetime Key : Type}.
Variable scan : nat -> Z -> option Key -> ScanResponse (datetime := datetime) Key.
Hypothesis respects : scan_respects_limit scan.
Hypothesis progresses : scan_progresses scan.

Lemma scan_loop_bound (limit : Z) (fuel : nat) :
  forall n response items,
    (Z.of_nat (length items) <= limit)%Z ->
    (is_Some (LastEvaluatedKey response) ->
     (Z.to_nat (limit - Z.of_nat (length items)) <= fuel)%nat) ->
    exists r, scan_loop scan fuel n limit response items = Some r
              /\ (Z.of_nat (length r) <= limit)%Z.
Proof.
  induction fuel as [|fuel IH]; intros n response items Hlen Hfuel.
  - cbn [scan_loop]. destruct (LastEvaluatedKey response) as [key|]; [|eauto].
    destruct (Z.ltb_spec (Z.of_nat (length items)) limit) as [Hlt|Hge]; [|eauto].
    specialize (Hfuel (ex_intro _ key eq_refl)). lia.
  - cbn [scan_loop]. destruct (LastEvaluatedKey response) as [key|]; [|eauto].
    destruct (Z.ltb_spec (Z.of_nat (length items)) limit) as [Hlt|Hge]; [|eauto].
    specialize (Hfuel (ex_intro _ key eq_refl)).
    set (lim := (limit - Z.of_nat (length items))%Z) in *.
    assert (Hlim : (1 <= lim)%Z) by (unfold lim; lia).
    pose proof (respects n lim (Some key) Hlim) as Hr.
    cbv zeta.
    destruct (Z.leb_spec limit
                (Z.of_nat (length (items ++ get_items (scan n lim (Some key)))%list)))
      as [Hfull|Hmore].
    + eexists. split; [reflexivity|]. rewrite length_app in *. lia.
    + apply IH.
      * rewrite length_app. lia.
      * intros Hkey. pose proof (progresses n lim (Some key) Hlim Hkey) as Hp.
        rewrite length_app. lia.
Qed.

(** X18 — The scan loop of [fetch_data_from_dynamodb].  If a scan never
    returns more items than the [Limit] it is given, and every page that
    is not the last holds an item, then for a limit of one or more the loop
    ends within [limit] turns and the items gathered number [limit] at
    most; the comprehension that converts them gives as many converted
    items, or ends with [InvalidOperation]. *)
Theorem fetch_within_limit (fromisoformat : string -> option datetime)
    (to_float : Dashboard.Decimal -> Q) (limit : Z) (fuel : nat) :
  (1 <= limit)%Z ->
  (Z.to_nat limit <= fuel)%nat ->
  exists items,
    fetch_items scan fuel limit = Some items
    /\ converted_items scan fromisoformat to_float fuel limit
       = Some (Dashboard.mapM
                 (Dashboard.convert_dynamodb_item fromisoformat to_float) items)
    /\ (Z.of_nat (length items) <= limit)%Z
    /\ match Dashboard.mapM
               (Dashboard.convert_dynamodb_item fromisoformat to_float) items with
       | Return converted => length converted = length items
       | Raise e => e = InvalidOperation
       end.
Proof.
  intros Hlimit Hfuel.
  destruct (scan_loop_bound limit fuel 1 (scan 0 limit None)
              (get_items (scan 0 limit None))) as (r & E & Hr).
  - apply respects, Hlimit.
  - intros _. lia.
  - exists r. unfold converted_items, fetch_items. cbv zeta. rewrite E.
    split; [reflexivity|]. split; [reflexivity|]. split; [exact Hr|].
    destruct (Dashboard.mapM _ r) as [converted|e] eqn:Em.
    + now apply mapM_length in Em.
    + apply mapM_Raise in Em. destruct Em as (it & _ & Hit).
      pose proof (convert_spec fromisoformat to_float it) as Hs.
      rewrite Hit in Hs. now destruct Hs.
Qed.

End FetchFacts.

Lemma sample_scan_respects : scan_respects_limit sample_scan.
Proof.
  intros n lim key Hlim. unfold sample_scan, get_items. cbn [Items].
  rewrite length_take. lia.
Qed.

Lemma sample_scan_progresses : scan_progresses sample_scan.
Proof.
  intros n lim key Hlim. unfold sample_scan, get_items.
  cbn [Items LastEvaluatedKey]. rewrite length_take, length_drop.
  destruct (Nat.ltb_spec (default 0%nat key
                          + Z.to_nat (Z.min lim 2)
                            `min` (length sample_table - default 0%nat key))
              (length sample_table)) as [Hlt|Hge].
  - intros _. lia.
  - intros [k Hk]. discriminate.
Qed.

Lemma fetch_within_limit_witness :
  scan_respects_limit sample_scan
  /\ scan_progresses sample_scan
  /\ (1 <= 3)%Z
  /\ (Z.to_nat 3 <= 3)%nat
  /\ exists items,
       fetch_items sample_scan 3 3 = Some items
       /\ converted_items sample_scan (fun _ => None) decimal_value 3 3
          = Some (Dashboard.mapM
                    (Dashboard.convert_dynamodb_item (fun _ => None) decimal_value)
                    items)
       /\ (Z.of_nat (length items) <= 3)%Z
       /\ match Dashboard.mapM
                  (Dashboard.convert_dynamodb_item (fun _ => None) decimal_value)
                  items with
          | Return converted => length converted = length items
          | Raise e => e = InvalidOperation
          end.
Proof.
  split; [exact sample_scan_respects|].
  split; [exact sample_scan_progresses|].
  split; [lia|]. split; [simpl; lia|].
  apply (fetch_within_limit sample_scan sample_scan_respects
           sample_scan_progresses (fun _ => None) decimal_value 3 3);
    [lia | simpl; lia].
Defined.

(** On the table of five the loop stops after the second scan, with three
    items and their numbers converted. *)
Example fetch_sample :
  converted_items sample_scan (fun _ => None) decimal_value 3 3
  = Some (Return
            (map (fun n => Dashboard.Dict
                             [("device_id", Dashboard.Str "device_0042");
                              ("battery_level", Dashboard.Int n)])
                 [80; 79; 78]%Z)).
Proof. vm_compute. reflexivity. Qed.
